(** * Travel assistant: resilience layer

    A shallow embedding of the throttling, retry, cooldown and location
    resolution code of the travel assistant, and the properties of it that
    the specification states, followed by further properties of the code:
    the candidate extractor, the map components, and how each retry loop
    and route ends under rate limiting and failures.

    Conventions.  Times and delays are integers (milliseconds, [Z]); a
    retry budget is a natural number.  A thrown JavaScript [Error] is
    identified with its message.  Strings are byte strings (UTF-8), with
    the letter case and the white space of ASCII.  Asynchronous functions
    are written in a state-and-exception monad over a [world] that holds
    the wall clock, the module-level [lastRequestTime] variable, the
    answers the upstream service is going to give, and the trace of
    requests and timers performed so far.  Calls run one at a time: the
    interleaving of concurrent calls is not modelled. *)

From Stdlib Require Import ZArith List String Ascii Bool Lia QArith DecimalString.
Import ListNotations.
Open Scope string_scope.
Open Scope Z_scope.

Set Implicit Arguments.

(** ** JavaScript strings *)

(** [s.includes(sub)] *)
Fixpoint includes (s sub : string) : bool :=
  String.prefix sub s ||
  match s with
  | EmptyString => false
  | String _ rest => includes rest sub
  end.

(** [s || fallback] for a string [s]: the empty string is falsy. *)
Definition or_else (s fallback : string) : string :=
  match s with
  | EmptyString => fallback
  | _ => s
  end.

(** [!x] for a value that is a string or is missing ([undefined], [null]):
    missing or the empty string. *)
Definition unset (x : option string) : bool :=
  match x with
  | None => true
  | Some EmptyString => true
  | Some _ => false
  end.

(** Template-literal rendering of an integer such as a status code. *)
Definition string_of_Z (z : Z) : string := NilZero.string_of_int (Z.to_int z).

(** The test every module applies to the message of a caught error to decide
    whether it is a rate-limiting error (the three disjuncts appear in
    varying order in the source). *)
Definition is_rate_limit_message (message : string) : bool :=
  includes message "429" ||
  includes message "Too Many Requests" ||
  includes message "rate limit".

(** ** src/lib/types.ts ([Message]) *)

Inductive Role : Type := user | assistant | system.

Record Message : Type := { role : Role; content : string }.

(** ** The runtime: clock, network, timers *)

Inductive outcome (A : Type) : Type :=
| Return (a : A)
| Throw (message : string).
Arguments Throw {A} message.

(** An HTTP response as the code inspects it. *)
Record response (J : Type) : Type := Response {
  status : Z;
  content_type : string;        (* [headers.get("content-type") || ""] *)
  json : outcome J;             (* [response.json()], or [JSON.parse] of the body *)
  text : outcome string         (* [response.text()] *)
}.

Definition ok {J} (r : response J) : bool :=
  (200 <=? status r) && (status r <=? 299).

(** What [fetch] does: it resolves to a response or rejects (network failure). *)
Inductive fetch_result (J : Type) : Type :=
| Responds (r : response J)
| NetworkError (message : string).
Arguments NetworkError {J} message.

(** What a request carries, as far as the properties below look at it. *)
Inductive payload : Type :=
| NoBody
| ChatBody (messages : list Message)   (* [JSON.stringify({ messages, ... })] *)
| QueryBody (query : string).          (* [JSON.stringify({ query })] *)

Inductive event : Type :=
| Dispatch (time : Z) (url : string) (body : payload)
                                       (* a network request leaves at [time] *)
| Throttled (ms : Z)                   (* timer of the minimum-interval wait *)
| Backoff (ms : Z)                     (* timer of a retry delay *)
| Idle (ms : Z).                       (* time passing between two calls *)

Record world (J : Type) : Type := World {
  clock : Z;                           (* [Date.now()] *)
  lastRequestTime : Z;                 (* the module-level variable *)
  upstream : list (fetch_result J);    (* answers to the next requests, in order *)
  lag : list N;                        (* extra time each [await] takes, in order *)
  trace : list event                   (* what happened so far, oldest first *)
}.

Definition M (J A : Type) : Type := world J -> outcome A * world J.

Definition ret {J A} (a : A) : M J A := fun w => (Return a, w).

Definition throw {J A} (message : string) : M J A := fun w => (Throw message, w).

Definition bind {J A B} (m : M J A) (k : A -> M J B) : M J B :=
  fun w =>
    match m w with
    | (Return a, w') => k a w'
    | (Throw e, w') => (Throw e, w')
    end.

Notation "x <- m ;; k" := (bind m (fun x => k))
  (at level 61, m at next level, right associativity).
Notation "m ;; k" := (bind m (fun _ => k))
  (at level 61, right associativity).

(** [try { body } catch (error) { handler }] *)
Definition try_catch {J A} (body : M J A) (handler : string -> M J A) : M J A :=
  fun w =>
    match body w with
    | (Return a, w') => (Return a, w')
    | (Throw e, w') => handler e w'
    end.

(** What a [try] block hands back: a value, or a call that was returned
    without [await], whose rejection the surrounding [catch] never sees. *)
Inductive completion (J A : Type) : Type :=
| Value (a : A)
| TailCall (k : M J A).
Arguments Value {J A} a.
Arguments TailCall {J A} k.

(** Running a computation to its end and looking at how it ended
    ([try { x = await m } catch (error) { ... }] with code after it). *)
Definition settle {J A} (m : M J A) : M J (outcome A) :=
  fun w => let (o, w') := m w in (Return o, w').

Definition complete {J A} (c : completion J A) : M J A :=
  match c with
  | Value a => ret a
  | TailCall k => k
  end.

Definition Date_now {J} : M J Z := fun w => (Return (clock w), w).

Definition get_lastRequestTime {J} : M J Z :=
  fun w => (Return (lastRequestTime w), w).

Definition set_lastRequestTime {J} (t : Z) : M J unit :=
  fun w => (Return tt,
            {| clock := clock w; lastRequestTime := t; upstream := upstream w;
               lag := lag w; trace := trace w |}).

(** Time that passes while an [await] is pending, beyond what was asked for. *)
Definition next_lag {J} (w : world J) : Z := Z.of_N (hd 0%N (lag w)).

(** [await new Promise((resolve) => setTimeout(resolve, ms))]: the caller
    resumes no earlier than [ms] milliseconds later.  This is what the
    timer does for a delay it takes as it is, from 0 to 2147483647 ms (a
    signed 32-bit value); a longer delay makes the real timer fire at
    once.  What is proved about requests that a retry delay keeps apart
    is stated for delays within that range ([MAX_TIMEOUT] below). *)
Definition sleep {J} (mark : Z -> event) (ms : Z) : M J unit :=
  fun w => (Return tt,
            {| clock := clock w + Z.max 0 ms + next_lag w;
               lastRequestTime := lastRequestTime w;
               upstream := upstream w;
               lag := tl (lag w);
               trace := trace w ++ [mark ms] |}).

(** [await fetch(url, ...)]: the request leaves now; the answer is the next
    one the upstream has in store (a network failure when it has none). *)
Definition fetch {J} (url : string) (body : payload) : M J (response J) :=
  fun w =>
    let w' := {| clock := clock w + next_lag w;
                 lastRequestTime := lastRequestTime w;
                 upstream := tl (upstream w);
                 lag := tl (lag w);
                 trace := trace w ++ [Dispatch (clock w) url body] |} in
    match upstream w with
    | Responds r :: _ => (Return r, w')
    | NetworkError e :: _ => (Throw e, w')
    | [] => (Throw "Failed to fetch", w')
    end.

(** Time passing between two calls of the application. *)
Definition idle {J} (ms : N) : M J unit :=
  fun w => (Return tt,
            {| clock := clock w + Z.of_N ms;
               lastRequestTime := lastRequestTime w;
               upstream := upstream w;
               lag := lag w;
               trace := trace w ++ [Idle (Z.of_N ms)] |}).

(** The minimum-interval wait that opens [sendMessage], [geocodeLocation],
    [fetchWithRetry] and the geocode route:
<<
    const now = Date.now()
    const timeSinceLastRequest = now - lastRequestTime
    if (timeSinceLastRequest < MIN_REQUEST_INTERVAL) {
      await new Promise((resolve) => setTimeout(resolve, MIN_REQUEST_INTERVAL - timeSinceLastRequest))
    }
    lastRequestTime = Date.now()
>> *)
Definition throttle {J} (MIN_REQUEST_INTERVAL : Z) : M J unit :=
  now <- Date_now ;;
  last <- get_lastRequestTime ;;
  let timeSinceLastRequest := now - last in
  (if timeSinceLastRequest <? MIN_REQUEST_INTERVAL
   then sleep Throttled (MIN_REQUEST_INTERVAL - timeSinceLastRequest)
   else ret tt) ;;
  now' <- Date_now ;;
  set_lastRequestTime now'.

(** Reading the trace. *)
Fixpoint dispatches (evs : list event) : list Z :=
  match evs with
  | [] => []
  | Dispatch t _ _ :: rest => t :: dispatches rest
  | _ :: rest => dispatches rest
  end.

Fixpoint backoffs (evs : list event) : list Z :=
  match evs with
  | [] => []
  | Backoff d :: rest => d :: backoffs rest
  | _ :: rest => backoffs rest
  end.


(** Retry delays as the retry loops produce them: the first is the delay
    the call was given, and [next] leads from one to the following.  In
    [sendMessage] and [geocodeLocation] the step is [delay * 2]; in
    [fetchWithRetry] it is [Math.min(delay * 2, MAX_RETRY_DELAY)]. *)
Fixpoint schedule (next : Z -> Z) (delay : Z) (n : nat) : list Z :=
  match n with
  | O => []
  | S n' => delay :: schedule next (next delay) n'
  end.

Definition doubling : Z -> nat -> list Z := schedule (fun delay => delay * 2).

Definition capped (cap : Z) : Z -> nat -> list Z :=
  schedule (fun delay => Z.min (delay * 2) cap).

(** [spaced gap last ts]: each time in [ts] is at least [gap] after the one
    before it, the first being at least [gap] after [last]. *)
Fixpoint spaced (gap last : Z) (ts : list Z) : Prop :=
  match ts with
  | [] => True
  | t :: rest => last + gap <= t /\ spaced gap t rest
  end.

(** ** src/lib/api.ts *)

Module Api.

Definition MIN_REQUEST_INTERVAL : Z := 2000.
Definition MAX_RETRIES : nat := 2.
Definition INITIAL_RETRY_DELAY : Z := 2000.

(** The body of a response of [/api/chat] once parsed, as far as
    [sendMessage] looks into it.  [JNull] is JSON [null] (reading a property
    of it throws); any other value is [JValue reply error], with [reply]
    present when [typeof data.reply === "string"] and [error] the message
    of an [Error] built from [data.error], present when that field is
    truthy. *)
Inductive chat_json : Type :=
| JNull
| JValue (reply : option string) (error : option string).

Definition malformed_reply : string :=
  "Je suis désolé, une erreur s'est produite lors du traitement de la réponse. Veuillez réessayer.".

Definition overloaded_reply : string :=
  "Je suis désolé, mais le service est temporairement surchargé. Veuillez réessayer dans quelques instants.".

Definition failed_reply : string :=
  "Je suis désolé, une erreur s'est produite. Veuillez réessayer dans quelques instants.".

(** The message of the error thrown for a response that is not [ok]
    (lines 38-55). *)
Definition error_message_of (r : response chat_json) : string :=
  let errorMessage := "HTTP error! status: " ++ string_of_Z (status r) in
  let from_text :=
    match text r with
    | Return errorText => or_else errorText errorMessage
    | Throw _ => errorMessage
    end in
  match json r with
  | Return (JValue _ (Some e)) => or_else e errorMessage
  | Return (JValue _ None) => errorMessage
  | Return JNull => from_text
  | Throw _ => from_text
  end.

(** The body of [sendMessage(messages, retries, delay)].  [again] is the
    recursive call [sendMessage(messages, retries - 1, delay * 2)], which
    exists when [retries > 0].  The result is the [reply] field of the
    object the promise resolves to. *)
Definition sendMessage_body (messages : list Message) (delay : Z)
  (again : option (M chat_json string)) : M chat_json string :=
  c <- try_catch
         (throttle MIN_REQUEST_INTERVAL ;;
          r <- fetch "/api/chat" (ChatBody messages) ;;
          match (status r =? 429), again with
          | true, Some k =>
              sleep Backoff delay ;;
              ret (TailCall k)
          | _, _ =>
              if negb (ok r) then throw (error_message_of r)
              else
                match json r with
                | Throw _ => ret (Value malformed_reply)
                | Return (JValue (Some reply) _) => ret (Value reply)
                | Return _ => ret (Value malformed_reply)
                end
          end)
         (fun error =>
            if is_rate_limit_message error then
              match again with
              | Some k =>
                  sleep Backoff delay ;;
                  ret (TailCall k)
              | None => ret (Value overloaded_reply)
              end
            else ret (Value failed_reply)) ;;
  complete c.

(** [sendMessage(messages, retries = MAX_RETRIES, delay = INITIAL_RETRY_DELAY)] *)
Fixpoint sendMessage (messages : list Message) (retries : nat) (delay : Z)
  : M chat_json string :=
  sendMessage_body messages delay
    match retries with
    | O => None
    | S retries' => Some (sendMessage messages retries' (delay * 2))
    end.

End Api.

(** ** The chat route (server side): [fetchWithRetry] and [POST] *)

Module ChatRoute.

Definition MAX_RETRIES : nat := 3.
Definition INITIAL_RETRY_DELAY : Z := 1000.
Definition MAX_RETRY_DELAY : Z := 10000.
Definition MIN_OPENAI_REQUEST_INTERVAL : Z := 1000.

(** The completion service's answer once parsed.  [DataFalsy] is a falsy
    value ([!data]).  In [Data choices], [choices] is [None] when
    [data.choices] is falsy or not an array.  A choice is [ChoiceNull] for
    [null] (reading [.message] of it throws) and otherwise carries
    [message]: [None] when [.message] is falsy, [Some content] otherwise,
    with [content] present when [typeof message.content === "string"]. *)
Inductive choice : Type :=
| ChoiceNull
| Choice (message : option (option string)).

Inductive completion_json : Type :=
| DataFalsy
| Data (choices : option (list choice)).

(** The body of [fetchWithRetry(url, options, retries, delay)]; of
    [options] only the messages of the body are kept.  [again] is the
    recursive call [fetchWithRetry(url, options, retries - 1,
    Math.min(delay * 2, MAX_RETRY_DELAY))], which exists when [retries > 0]. *)
Definition fetchWithRetry_body (url : string) (options : payload) (delay : Z)
  (again : option (M completion_json (response completion_json)))
  : M completion_json (response completion_json) :=
  c <- try_catch
         (throttle MIN_OPENAI_REQUEST_INTERVAL ;;
          r <- fetch url options ;;
          match (status r =? 429), again with
          | true, Some k =>
              sleep Backoff delay ;;
              ret (TailCall k)
          | _, _ => ret (Value r)
          end)
         (fun error =>
            match again with
            | Some k =>
                sleep Backoff delay ;;
                ret (TailCall k)
            | None => throw error
            end) ;;
  complete c.

(** [fetchWithRetry(url, options, retries = MAX_RETRIES, delay = INITIAL_RETRY_DELAY)] *)
Fixpoint fetchWithRetry (url : string) (options : payload) (retries : nat) (delay : Z)
  : M completion_json (response completion_json) :=
  fetchWithRetry_body url options delay
    match retries with
    | O => None
    | S retries' =>
        Some (fetchWithRetry url options retries' (Z.min (delay * 2) MAX_RETRY_DELAY))
    end.

(** [process.env] as the route reads it. *)
Record environment : Type := {
  AZURE_OPENAI_ENDPOINT : option string;
  AZURE_OPENAI_KEY : option string;
  AZURE_OPENAI_DEPLOYMENT : option string
}.

Definition configured (env : environment) : bool :=
  negb (unset (AZURE_OPENAI_ENDPOINT env) ||
        unset (AZURE_OPENAI_KEY env) ||
        unset (AZURE_OPENAI_DEPLOYMENT env)).

(** The incoming request: [await request.json()] throws, or gives a body
    whose [messages] field is an array of messages or is not ([None];
    calling [.some] on it throws). *)
Inductive request : Type :=
| Unparseable (message : string)
| Body (messages : option (list Message)).

(** What [NextResponse.json(body, { status })] sends back. *)
Inductive body : Type :=
| reply (text : string)
| error (text : string).

Record http_response : Type := { http_status : Z; http_body : body }.

Definition NextResponse_json (b : body) (status : Z) : http_response :=
  {| http_status := status; http_body := b |}.

Definition systemMessage : Message :=
  {| role := system;
     content := "Tu es un expert en voyages. Réponds de manière concise et utile en français. Limite tes réponses à 100 mots maximum." |}.

Definition is_system (m : Message) : bool :=
  match role m with
  | system => true
  | _ => false
  end.

(** [messages.some((m) => m.role === "system") ? messages : [systemMessage, ...messages]] *)
Definition messagesWithSystem (messages : list Message) : list Message :=
  if existsb is_system messages then messages else systemMessage :: messages.

(** [l.slice(-n)]: the last [n] elements (all of [l] when it is shorter). *)
Definition slice_last {A} (n : nat) (l : list A) : list A :=
  skipn (List.length l - n) l.

(** [messagesWithSystem.slice(-5)]: what is sent upstream. *)
Definition recentMessages (messages : list Message) : list Message :=
  slice_last 5 (messagesWithSystem messages).

Definition too_many_reply : string :=
  "Je suis désolé, mais je reçois trop de demandes en ce moment. Veuillez réessayer dans quelques instants.".
Definition difficulties_reply : string :=
  "Je suis désolé, mais je rencontre des difficultés à traiter votre demande. Veuillez réessayer dans quelques instants.".
Definition uninterpretable_reply : string :=
  "Je suis désolé, j'ai reçu une réponse que je ne peux pas interpréter. Veuillez réessayer.".
Definition invalid_reply : string :=
  "Je suis désolé, j'ai reçu une réponse invalide. Veuillez réessayer.".
Definition unexpected_reply : string :=
  "Je suis désolé, j'ai reçu une réponse dans un format inattendu. Veuillez réessayer.".
Definition failed_reply : string :=
  "Je suis désolé, une erreur s'est produite. Veuillez réessayer dans quelques instants.".

(** Lines 94-135: the answer for an upstream response that is not [ok]. *)
Definition answer_error (r : response completion_json) : http_response :=
  match json r with
  | Return _ =>
      if status r =? 429 then NextResponse_json (reply too_many_reply) 200
      else NextResponse_json (reply difficulties_reply) 200
  | Throw _ => NextResponse_json (reply difficulties_reply) 200
  end.

(** Lines 137-173: the answer for an [ok] upstream response.  Reading
    [data.choices[0].message] of a [null] choice throws. *)
Definition answer_success (r : response completion_json)
  : M completion_json http_response :=
  match json r with
  | Throw _ => ret (NextResponse_json (reply uninterpretable_reply) 200)
  | Return DataFalsy => ret (NextResponse_json (reply invalid_reply) 200)
  | Return (Data None) => ret (NextResponse_json (reply invalid_reply) 200)
  | Return (Data (Some [])) => ret (NextResponse_json (reply invalid_reply) 200)
  | Return (Data (Some (ChoiceNull :: _))) =>
      throw "Cannot read properties of null (reading 'message')"
  | Return (Data (Some (Choice (Some (Some content)) :: _))) =>
      ret (NextResponse_json (reply content) 200)
  | Return (Data (Some (Choice _ :: _))) =>
      ret (NextResponse_json (reply unexpected_reply) 200)
  end.

(** [POST(request)] *)
Definition POST (env : environment) (req : request)
  : M completion_json http_response :=
  try_catch
    (match req with
     | Unparseable e => throw e
     | Body messages =>
         if negb (configured env)
         then ret (NextResponse_json (error "Service configuration error") 500)
         else
           match messages with
           | None => throw "messages.some is not a function"
           | Some messages =>
               let endpoint := match AZURE_OPENAI_ENDPOINT env with Some s => s | None => "" end in
               let deployment := match AZURE_OPENAI_DEPLOYMENT env with Some s => s | None => "" end in
               r <- fetchWithRetry
                      (endpoint ++ "/openai/deployments/" ++ deployment
                                ++ "/chat/completions?api-version=2023-05-15")
                      (ChatBody (recentMessages messages))
                      MAX_RETRIES INITIAL_RETRY_DELAY ;;
               if negb (ok r) then ret (answer_error r) else answer_success r
           end
     end)
    (fun _ => ret (NextResponse_json (reply failed_reply) 200)).

End ChatRoute.

(** ** JavaScript numbers and [Location] *)

(** A JavaScript number: [NaN], an infinity, or a finite value.  The code
    only compares coordinates and zoom levels with integer bounds, so a
    finite number is identified with the rational value it denotes. *)
Inductive number : Type :=
| NaN
| Infinity (negative : bool)
| Finite (q : Q).

Definition isNaN (x : number) : bool :=
  match x with
  | NaN => true
  | _ => false
  end.

(** [x <= y]; every comparison with [NaN] is false. *)
Definition number_le (x y : number) : bool :=
  match x, y with
  | NaN, _ => false
  | _, NaN => false
  | Infinity true, _ => true
  | _, Infinity false => true
  | Infinity false, _ => false
  | _, Infinity true => false
  | Finite a, Finite b => Qle_bool a b
  end.

(** [x < y] *)
Definition number_lt (x y : number) : bool :=
  match x, y with
  | NaN, _ => false
  | _, NaN => false
  | _, _ => negb (number_le y x)
  end.

Definition integer (z : Z) : number := Finite (inject_Z z).

(** Reference readings of the JavaScript built-ins that the routes take as
    parameters, for running examples.  [parse_digits] is what
    [Number.parseFloat] and [Number.parseInt] give on a string of decimal
    digits (and [NaN] on the empty string); [render] is the template-literal
    rendering of an integral number, of [NaN] and of the infinities. *)
Fixpoint digits_value (s : string) (acc : Z) : option Z :=
  match s with
  | EmptyString => Some acc
  | String c rest =>
      if (Ascii.leb "0" c && Ascii.leb c "9")%char
      then digits_value rest (10 * acc + (Z.of_nat (nat_of_ascii c) - 48))
      else None
  end.

Definition parse_digits (s : string) : number :=
  match s with
  | EmptyString => NaN
  | _ =>
      match digits_value s 0 with
      | Some z => integer z
      | None => NaN
      end
  end.

Definition render (x : number) : string :=
  match x with
  | NaN => "NaN"
  | Infinity true => "-Infinity"
  | Infinity false => "Infinity"
  | Finite q => string_of_Z (Qnum q / Z.pos (Qden q))
  end.

(** [validateCoordinates(lon, lat)], defined alike in src/lib/geocoding.ts
    and in the geocode route:
    [!isNaN(lon) && !isNaN(lat) && lon >= -180 && lon <= 180 && lat >= -90 && lat <= 90]. *)
Definition validateCoordinates (lon lat : number) : bool :=
  negb (isNaN lon) && negb (isNaN lat) &&
  number_le (integer (-180)) lon && number_le lon (integer 180) &&
  number_le (integer (-90)) lat && number_le lat (integer 90).

(** src/lib/types.ts, [Location] (the optional [mapStyle] is never set). *)
Record Location : Type := {
  name : string;
  coordinates : number * number;       (* [longitude, latitude] *)
  zoom : number;
  description : option string
}.

(** A location is well formed when its coordinates are numbers other than
    [NaN], the longitude within [-180, 180] and the latitude within
    [-90, 90]. *)
Definition valid_location (l : Location) : bool :=
  validateCoordinates (fst (coordinates l)) (snd (coordinates l)).

(** ** src/lib/locations.ts *)

Definition place (n : string) (lon lat : Q) (z : Z) (d : string) : Location :=
  {| name := n; coordinates := (Finite lon, Finite lat); zoom := integer z;
     description := Some d |}.

(** [locationData], in the order [Object.entries] enumerates it (the order
    in which the keys are written, none of them being an integer index). *)
Definition locationData : list (string * Location) :=
  [ ("paris", place "Paris" 2.3522 48.8566 12
       "La capitale de la France, connue pour la Tour Eiffel et le Louvre.");
    ("londres", place "Londres" (-0.1278) 51.5074 12
       "La capitale du Royaume-Uni, célèbre pour Big Ben et Buckingham Palace.");
    ("new york", place "New York" (-74.006) 40.7128 12
       "La plus grande ville des États-Unis, connue pour Times Square et la Statue de la Liberté.");
    ("tokyo", place "Tokyo" 139.6917 35.6895 12
       "La capitale du Japon, mélange de culture traditionnelle et de technologie moderne.");
    ("rome", place "Rome" 12.4964 41.9028 12
       "La capitale de l'Italie, célèbre pour le Colisée et le Vatican.");
    ("tunisie", place "Tunisie" 9.5375 33.8869 7
       "Pays d'Afrique du Nord connu pour ses plages méditerranéennes et ses sites archéologiques.");
    ("maroc", place "Maroc" (-7.0926) 31.7917 6
       "Pays d'Afrique du Nord connu pour ses médinas, ses déserts et sa cuisine.");
    ("barcelone", place "Barcelone" 2.1734 41.3851 12
       "Ville espagnole connue pour son architecture unique et ses plages.");
    ("berlin", place "Berlin" 13.405 52.52 12
       "La capitale de l'Allemagne, connue pour son histoire et sa scène culturelle.");
    ("amsterdam", place "Amsterdam" 4.9041 52.3676 12
       "La capitale des Pays-Bas, connue pour ses canaux et ses musées.");
    ("venise", place "Venise" 12.3155 45.4408 13
       "Ville italienne construite sur des îles et connue pour ses canaux et son architecture.");
    ("bangkok", place "Bangkok" 100.5018 13.7563 12
       "La capitale de la Thaïlande, connue pour ses temples et sa street food.");
    ("sydney", place "Sydney" 151.2093 (-33.8688) 12
       "La plus grande ville d'Australie, connue pour son opéra et son port.");
    ("rio de janeiro", place "Rio de Janeiro" (-43.1729) (-22.9068) 12
       "Ville brésilienne connue pour ses plages, le Christ Rédempteur et le carnaval.");
    ("le caire", place "Le Caire" 31.2357 30.0444 12
       "La capitale de l'Égypte, proche des pyramides de Gizeh.");
    ("istanbul", place "Istanbul" 28.9784 41.0082 12
       "Ville turque à cheval sur deux continents, connue pour ses mosquées et bazars.");
    ("dubai", place "Dubaï" 55.2708 25.2048 12
       "Ville des Émirats arabes unis connue pour ses gratte-ciels et son luxe.");
    ("singapour", place "Singapour" 103.8198 1.3521 12
       "Cité-État asiatique connue pour sa propreté, sa modernité et sa cuisine.");
    ("hawaii", place "Hawaii" (-157.8583) 21.3069 10
       "État insulaire américain connu pour ses plages et ses volcans.");
    ("maldives", place "Maldives" 73.2207 3.2028 9
       "Archipel de l'océan Indien connu pour ses plages et ses récifs coralliens.");
    ("alpes", place "Alpes" 8.2275 46.8182 8
       "Chaîne de montagnes européenne populaire pour les sports d'hiver.") ].

(** [defaultLocation] (Paris). *)
Definition defaultLocation : Location :=
  place "Paris" 2.3522 48.8566 12
    "La capitale de la France, connue pour la Tour Eiffel et le Louvre.".

(** ** src/lib/geocoding.ts *)

Module Geocoding.

Definition MIN_REQUEST_INTERVAL : Z := 2000.
Definition MAX_RETRIES : nat := 2.
Definition INITIAL_RETRY_DELAY : Z := 2000.

(** [c.toLowerCase()] on one character.  Strings are byte strings: the
    letters A to Z are mapped, every other byte is left as it is. *)
Definition lower (c : ascii) : ascii :=
  if (Ascii.leb "A" c && Ascii.leb c "Z")%char
  then ascii_of_nat (nat_of_ascii c + 32)
  else c.

(** [text.toLowerCase()] *)
Fixpoint toLowerCase (text : string) : string :=
  match text with
  | EmptyString => EmptyString
  | String c rest => String (lower c) (toLowerCase rest)
  end.

(** The loop of [detectPredefinedLocation] over the entries. *)
Fixpoint first_match (lowercaseText : string) (entries : list (string * Location))
  : option Location :=
  match entries with
  | [] => None
  | (key, location) :: rest =>
      if includes lowercaseText key then Some location
      else first_match lowercaseText rest
  end.

(** [detectPredefinedLocation(text)] *)
Definition detectPredefinedLocation (text : string) : option Location :=
  let lowercaseText := toLowerCase text in
  first_match lowercaseText locationData.

(** The [location] object of a response of [/api/geocode].  [coordinates]
    is [None] unless [Array.isArray(location.coordinates)]; its elements are
    numbers, as [validateCoordinates] declares its arguments. *)
Record location_json : Type := {
  loc_name : string;
  loc_coordinates : option (list number);
  loc_zoom : number;
  loc_description : option string
}.

(** The body of a response of [/api/geocode] once parsed.  [GNull] is JSON
    [null]; any other value is [GValue error stringified location], with
    [error] its [.error] field when truthy, [stringified] what
    [JSON.stringify] makes of it and [location] its [.location] field when
    truthy. *)
Inductive geocode_json : Type :=
| GNull
| GValue (error : option string) (stringified : string) (location : option location_json).

Definition too_many_requests : string :=
  "Too Many Requests: Service temporarily unavailable".

(** Lines 64-86: the message of the error for a response that is not [ok]. *)
Definition error_message_of (r : response geocode_json) : string :=
  let errorMessage := "Geocoding API error: " ++ string_of_Z (status r) in
  if includes (content_type r) "text/" then
    match text r with
    | Return errorText => errorMessage ++ " - " ++ errorText
    | Throw _ => errorMessage
    end
  else
    match json r with
    | Return (GValue (Some e) stringified _) =>
        errorMessage ++ " - " ++ or_else e stringified
    | Return (GValue None stringified _) => errorMessage ++ " - " ++ stringified
    | Return GNull => errorMessage
    | Throw _ => errorMessage
    end.

(** Lines 98-151: reading the body of an [ok] response. *)
Definition read_body (r : response geocode_json) : outcome geocode_json :=
  if negb (includes (content_type r) "application/json") then
    match text r with
    | Return t =>
        if includes t "Too Many Requests" || includes t "429"
        then Throw too_many_requests
        else
          match json r with
          | Return responseData => Return responseData
          | Throw _ => Throw "Failed to read response"
          end
    | Throw textError =>
        if includes textError "Too Many Requests" then Throw textError
        else Throw "Failed to read response"
    end
  else
    match json r with
    | Return responseData => Return responseData
    | Throw jsonError => Throw jsonError
    end.

(** Lines 153-171: validation of the location data. *)
Definition validate (responseData : geocode_json) : option Location :=
  match responseData with
  | GValue _ _ (Some location) =>
      match loc_coordinates location with
      | Some [lon; lat] =>
          if negb (validateCoordinates lon lat) then None
          else Some {| name := loc_name location;
                       coordinates := (lon, lat);
                       zoom := loc_zoom location;
                       description := loc_description location |}
      | _ => None
      end
  | _ => None
  end.

(** The body of [geocodeLocation(locationName, retries, delay)]; [None]
    is [null].  [again] is the recursive call [geocodeLocation(locationName,
    retries - 1, delay * 2)], which exists when [retries > 0]. *)
Definition geocodeLocation_body (locationName : string) (delay : Z)
  (again : option (M geocode_json (option Location)))
  : M geocode_json (option Location) :=
  c <- try_catch
         (match detectPredefinedLocation locationName with
          | Some predefinedLocation => ret (Value (Some predefinedLocation))
          | None =>
              throttle MIN_REQUEST_INTERVAL ;;
              r <- fetch "/api/geocode" (QueryBody locationName) ;;
              if status r =? 429 then
                match again with
                | Some k =>
                    sleep Backoff delay ;;
                    ret (TailCall k)
                | None => throw too_many_requests
                end
              else if negb (ok r) then
                match again, (500 <=? status r) with
                | Some k, true =>
                    sleep Backoff delay ;;
                    ret (TailCall k)
                | _, _ => throw (error_message_of r)
                end
              else
                match read_body r with
                | Throw e => throw e
                | Return responseData => ret (Value (validate responseData))
                end
          end)
         (fun error =>
            if is_rate_limit_message error then throw error
            else
              match again with
              | Some k =>
                  sleep Backoff delay ;;
                  ret (TailCall k)
              | None => ret (Value None)
              end) ;;
  complete c.

(** [geocodeLocation(locationName, retries = MAX_RETRIES, delay = INITIAL_RETRY_DELAY)] *)
Fixpoint geocodeLocation (locationName : string) (retries : nat) (delay : Z)
  : M geocode_json (option Location) :=
  geocodeLocation_body locationName delay
    match retries with
    | O => None
    | S retries' => Some (geocodeLocation locationName retries' (delay * 2))
    end.

(** [detectAndGeocodeLocation(text)], over the candidate extractor
    [extractLocationNames] and the geocoder [geocode] (which the module
    instantiates with [geocodeLocation] at its default arguments). *)
Section Pipeline.

Variable J : Type.
Variable extractLocationNames : string -> list string.
Variable geocode : string -> M J (option Location).

(** Lines 245-264: the loop over the candidates.  [None] means that no
    candidate gave a location and the loop ran to its end. *)
Fixpoint try_candidates (potentialLocations : list string)
  : M J (option Location) :=
  match potentialLocations with
  | [] => ret None
  | locationName :: rest =>
      found <- try_catch
                 (geocode locationName)
                 (fun error =>
                    if is_rate_limit_message error then throw error
                    else ret None) ;;
      match found with
      | Some location => ret (Some location)
      | None => try_candidates rest
      end
  end.

Definition detectAndGeocodeLocation_with (text : string) : M J (option Location) :=
  try_catch
    (match detectPredefinedLocation text with
     | Some predefinedLocation => ret (Some predefinedLocation)
     | None =>
         let potentialLocations := extractLocationNames text in
         found <- try_candidates potentialLocations ;;
         match found with
         | Some location => ret (Some location)
         | None =>
             try_catch
               (geocode text)
               (fun error =>
                  if is_rate_limit_message error then throw error
                  else ret None)
         end
     end)
    (fun error =>
       if is_rate_limit_message error then throw error
       else ret None).

(** A call of the geocoder that the loop passes over: it gave [null], or
    failed with an error that is not a rate-limiting error. *)
Definition passed_over (o : outcome (option Location)) : Prop :=
  o = Return None \/ exists e, o = Throw e /\ is_rate_limit_message e = false.

(** [passes names w w']: geocoding the [names] one after the other from
    [w] passes over each of them and ends in [w']. *)
Fixpoint passes (names : list string) (w w' : world J) : Prop :=
  match names with
  | [] => w' = w
  | locationName :: rest =>
      exists o w1, geocode locationName w = (o, w1) /\ passed_over o /\ passes rest w1 w'
  end.

End Pipeline.

(** [detectAndGeocodeLocation(text)].  The candidate extractor
    [extractLocationNames] splits on Unicode white space and tests Unicode
    letter case; it stays a parameter, and what is proved of the pipeline
    holds whatever candidates it proposes. *)
Definition detectAndGeocodeLocation (extractLocationNames : string -> list string)
  (text : string) : M geocode_json (option Location) :=
  detectAndGeocodeLocation_with extractLocationNames
    (fun locationName => geocodeLocation locationName MAX_RETRIES INITIAL_RETRY_DELAY)
    text.

(** [text] has a part that reads [key] when case is ignored. *)
Definition contains_ignoring_case (text key : string) : Prop :=
  exists before part after_,
    text = before ++ part ++ after_ /\ toLowerCase part = key.

End Geocoding.

(** ** The geocode route (server side), src/app/api/geocode/route.ts *)

Module GeocodeRoute.

Definition MIN_REQUEST_INTERVAL : Z := 1000.
Definition MAX_RETRIES : nat := 2.

(** The search service's answer once parsed.  An address carries its
    [freeformAddress] and [country] fields when they are truthy.  A result
    is [ResultNull] for [null] (reading [.position] of it throws);
    otherwise [position] is [None] when [result.position] is falsy and
    else gives [lon] and [lat], each present when its [typeof] is
    ["number"].  [ANull] is JSON [null]; in [AValue stringified results],
    [results] is empty when [data.results] is falsy or has no element. *)
Record address_json : Type := {
  freeformAddress : option string;
  country : option string
}.

Inductive result : Type :=
| ResultNull
| Result (position : option (option number * option number))
         (entityType : string)
         (address : option address_json).

Inductive azure_json : Type :=
| ANull
| AValue (stringified : string) (results : list result).

Inductive request : Type :=
| Unparseable
| Body (query : string).               (* [""] for a falsy or missing query *)

Inductive body : Type :=
| location (l : option Location)       (* [{ location }], [None] being [null] *)
| error (text : string).               (* [{ error }] *)

Record http_response : Type := { http_status : Z; http_body : body }.

Definition NextResponse_json (b : body) (status : Z) : http_response :=
  {| http_status := status; http_body := b |}.

(** Lines 183-200: the zoom level by entity type. *)
Definition zoom_of (entityType : string) : Z :=
  if String.eqb entityType "Country" then 5
  else if String.eqb entityType "CountrySubdivision" then 7
  else if String.eqb entityType "Municipality" then 10
  else if String.eqb entityType "PostalCodeArea" then 11
  else if String.eqb entityType "Neighbourhood" then 14
  else if String.eqb entityType "Street" then 15
  else if String.eqb entityType "Address" || String.eqb entityType "POI" then 16
  else 12.

Definition truthy_or (x : option string) (fallback : string) : string :=
  match x with
  | Some s => or_else s fallback
  | None => fallback
  end.

(** Lines 202-215: the location built from a result. *)
Definition location_of (query : string) (lon lat : number) (entityType : string)
  (address : option address_json) : Location :=
  let address :=
    match address with
    | Some a => a
    | None => {| freeformAddress := Some query; country := None |}
    end in
  {| name := truthy_or (freeformAddress address) query;
     coordinates := (lon, lat);
     zoom := integer (zoom_of entityType);
     description :=
       Some (if unset (country address)
             then truthy_or (freeformAddress address) query
             else truthy_or (freeformAddress address) "" ++ ", "
                  ++ truthy_or (country address) "") |}.

Section Route.

(** [encodeURIComponent], and the rendering of a number in a template
    literal, taken as given. *)
Variable encodeURIComponent : string -> string.
Variable ToString : number -> string.

(** Lines 71-103: the error thrown for a response that is not [ok]. *)
Definition error_message_of (r : response azure_json) : string :=
  let errorDetails :=
    if includes (content_type r) "application/json" then
      match json r with
      | Return ANull => "null"
      | Return (AValue stringified _) => stringified
      | Throw _ => ""
      end
    else
      match text r with
      | Return errorText => errorText
      | Throw _ => ""
      end in
  if status r =? 429 then "Too Many Requests"
  else "API error: " ++ string_of_Z (status r)
       ++ match errorDetails with
          | EmptyString => ""
          | _ => " - " ++ errorDetails
          end.

(** The body of [makeRequestWithRetry(retries)]; [url] is the request it
    closes over.  [again] is the recursive call
    [makeRequestWithRetry(retries - 1)], which exists when [retries > 0]. *)
Definition makeRequestWithRetry_body (url : string)
  (again : option (M azure_json azure_json)) : M azure_json azure_json :=
  c <- try_catch
         (r <- fetch url NoBody ;;
          match (status r =? 429), again with
          | true, Some k =>
              sleep Backoff (MIN_REQUEST_INTERVAL * 2) ;;
              ret (TailCall k)
          | _, _ =>
              if negb (ok r) then throw (error_message_of r)
              else
                match json r with
                | Return (AValue stringified results) =>
                    ret (Value (AValue stringified results))
                | Return ANull => throw "Failed to parse response as JSON"
                | Throw _ => throw "Failed to parse response as JSON"
                end
          end)
         (fun error =>
            match again with
            | Some k =>
                if is_rate_limit_message error then
                  sleep Backoff (MIN_REQUEST_INTERVAL * 2) ;;
                  ret (TailCall k)
                else throw error
            | None => throw error
            end) ;;
  complete c.

(** [makeRequestWithRetry(retries)] *)
Fixpoint makeRequestWithRetry (url : string) (retries : nat)
  : M azure_json azure_json :=
  makeRequestWithRetry_body url
    match retries with
    | O => None
    | S retries' => Some (makeRequestWithRetry url retries')
    end.

(** Lines 164-221: the answer built from the data. *)
Definition answer (query : string) (data : azure_json)
  : M azure_json http_response :=
  match data with
  | AValue _ (ResultNull :: _) =>
      throw "Cannot read properties of null (reading 'position')"
  | AValue _ (Result (Some (Some lon, Some lat)) entityType address :: _) =>
      if negb (validateCoordinates lon lat) then
        ret (NextResponse_json
               (error ("Invalid coordinates: " ++ ToString lon ++ ", " ++ ToString lat))
               400)
      else
        ret (NextResponse_json
               (location (Some (location_of query lon lat entityType address))) 200)
  | AValue _ (Result _ _ _ :: _) =>
      ret (NextResponse_json (error "Invalid position data in geocoding result") 500)
  | AValue _ [] => ret (NextResponse_json (location None) 200)
  | ANull => throw "Cannot read properties of null (reading 'results')"
  end.

(** [POST(request)], with [apiKey] the value of [process.env.AZURE_MAPS_KEY]. *)
Definition POST (apiKey : option string) (req : request)
  : M azure_json http_response :=
  try_catch
    (match req with
     | Unparseable => ret (NextResponse_json (error "Invalid request format") 400)
     | Body query =>
         match query with
         | EmptyString =>
             ret (NextResponse_json (error "Query parameter is required") 400)
         | _ =>
             if unset apiKey
             then ret (NextResponse_json (error "Configuration error") 500)
             else
               throttle MIN_REQUEST_INTERVAL ;;
               let encodedQuery := encodeURIComponent query in
               let url :=
                 "https://atlas.microsoft.com/search/address/json?api-version=1.0&query="
                 ++ encodedQuery ++ "&subscription-key="
                 ++ match apiKey with Some k => k | None => "" end
                 ++ "&language=fr" in
               data <- settle (makeRequestWithRetry url MAX_RETRIES) ;;
               match data with
               | Throw e =>
                   if is_rate_limit_message e then
                     ret (NextResponse_json
                            (error "Too Many Requests: Service temporarily unavailable") 429)
                   else ret (NextResponse_json (error e) 500)
               | Return data => answer query data
               end
         end
     end)
    (fun e => ret (NextResponse_json (error e) 500)).

End Route.

End GeocodeRoute.

(** ** The static-map route (server side), src/app/api/static-map/route.ts *)

Module StaticMap.

(** The query string of the request: each parameter is present or not
    ([searchParams.get] gives [null]). *)
Record request : Type := {
  longitude : option string;
  latitude : option string;
  zoom_level : option string
}.

Inductive body : Type :=
| url (u : string)
| error (text : string).

Record http_response : Type := { http_status : Z; http_body : body }.

Definition NextResponse_json (b : body) (status : Z) : http_response :=
  {| http_status := status; http_body := b |}.

(** A request without any parameter. *)
Definition no_parameters : request :=
  {| longitude := None; latitude := None; zoom_level := None |}.

(** [url.searchParams.get(name) || fallback] *)
Definition param_or (p : option string) (fallback : string) : string :=
  match p with
  | Some s => or_else s fallback
  | None => fallback
  end.

Section Route.

(** [Number.parseFloat], [Number.parseInt] and the rendering of a number
    in a template literal, taken as given. *)
Variable parseFloat : string -> number.
Variable parseInt : string -> number.
Variable ToString : number -> string.

(** Line 28: the URL of the static map. *)
Definition mapUrl (zoom longitude latitude : number) (apiKey : string) : string :=
  "https://atlas.microsoft.com/map/static/png?api-version=1.0&layer=basic&style=main&zoom="
  ++ ToString zoom ++ "&center=" ++ ToString longitude ++ "," ++ ToString latitude
  ++ "&width=800&height=500&subscription-key=" ++ apiKey.

(** [GET(request)], with [apiKey] the value of [process.env.AZURE_MAPS_KEY]. *)
Definition GET (apiKey : option string) (req : request) : http_response :=
  let longitude := parseFloat (param_or (longitude req) "0") in
  let latitude := parseFloat (param_or (latitude req) "0") in
  let zoom := parseInt (param_or (zoom_level req) "10") in
  if isNaN longitude || isNaN latitude ||
     number_lt longitude (integer (-180)) || number_lt (integer 180) longitude ||
     number_lt latitude (integer (-90)) || number_lt (integer 90) latitude
  then NextResponse_json (error "Invalid coordinates") 400
  else if isNaN zoom || number_lt zoom (integer 1) || number_lt (integer 20) zoom
  then NextResponse_json (error "Invalid zoom level") 400
  else
    match apiKey with
    | None => NextResponse_json (error "Map service configuration error") 500
    | Some EmptyString => NextResponse_json (error "Map service configuration error") 500
    | Some key => NextResponse_json (url (mapUrl zoom longitude latitude key)) 200
    end.

End Route.

End StaticMap.

(** ** The page, src/app/page.tsx: rate-limit flags and cooldown timers *)

Module Page.

(** The state of the [Home] component that [handleSendMessage] reads and
    writes.  A timer reference holds the time at which its pending timer
    fires, if one is pending.  The loading flags, the input-disabling
    timer and the self-clearing geocoding banner only drive the display
    and are left out. *)
Record state : Type := {
  messages : list Message;
  currentLocation : Location;
  error : option string;
  isMapRateLimited : bool;
  isChatRateLimited : bool;
  rateLimitTimerRef : option Z;
  chatRateLimitTimerRef : option Z;
  consecutiveErrorsRef : Z;
  geocodingErrorsRef : Z
}.

Definition COOLDOWN : Z := 60000.

(** [setMapRateLimitWithCooldown(limited)], called at time [now]: the
    pending timer is cleared and, when [limited], a new one is armed. *)
Definition setMapRateLimitWithCooldown (limited : bool) (now : Z) (s : state) : state :=
  {| messages := messages s;
     currentLocation := currentLocation s;
     error := error s;
     isMapRateLimited := limited;
     isChatRateLimited := isChatRateLimited s;
     rateLimitTimerRef := if limited then Some (now + COOLDOWN) else None;
     chatRateLimitTimerRef := chatRateLimitTimerRef s;
     consecutiveErrorsRef := consecutiveErrorsRef s;
     geocodingErrorsRef := geocodingErrorsRef s |}.

(** [setChatRateLimitWithCooldown(limited)], called at time [now]. *)
Definition setChatRateLimitWithCooldown (limited : bool) (now : Z) (s : state) : state :=
  {| messages := messages s;
     currentLocation := currentLocation s;
     error := error s;
     isMapRateLimited := isMapRateLimited s;
     isChatRateLimited := limited;
     rateLimitTimerRef := rateLimitTimerRef s;
     chatRateLimitTimerRef := if limited then Some (now + COOLDOWN) else None;
     consecutiveErrorsRef := consecutiveErrorsRef s;
     geocodingErrorsRef := geocodingErrorsRef s |}.

(** The clock reaching [now]: a pending timer whose time has come runs its
    callback, [setIsMapRateLimited(false)] or [setIsChatRateLimited(false)]. *)
Definition tick (now : Z) (s : state) : state :=
  let map_fires :=
    match rateLimitTimerRef s with
    | Some t => t <=? now
    | None => false
    end in
  let chat_fires :=
    match chatRateLimitTimerRef s with
    | Some t => t <=? now
    | None => false
    end in
  {| messages := messages s;
     currentLocation := currentLocation s;
     error := error s;
     isMapRateLimited := if map_fires then false else isMapRateLimited s;
     isChatRateLimited := if chat_fires then false else isChatRateLimited s;
     rateLimitTimerRef := if map_fires then None else rateLimitTimerRef s;
     chatRateLimitTimerRef := if chat_fires then None else chatRateLimitTimerRef s;
     consecutiveErrorsRef := consecutiveErrorsRef s;
     geocodingErrorsRef := geocodingErrorsRef s |}.

Definition setMessages (f : list Message -> list Message) (s : state) : state :=
  {| messages := f (messages s);
     currentLocation := currentLocation s;
     error := error s;
     isMapRateLimited := isMapRateLimited s;
     isChatRateLimited := isChatRateLimited s;
     rateLimitTimerRef := rateLimitTimerRef s;
     chatRateLimitTimerRef := chatRateLimitTimerRef s;
     consecutiveErrorsRef := consecutiveErrorsRef s;
     geocodingErrorsRef := geocodingErrorsRef s |}.

Definition setCurrentLocation (l : Location) (s : state) : state :=
  {| messages := messages s;
     currentLocation := l;
     error := error s;
     isMapRateLimited := isMapRateLimited s;
     isChatRateLimited := isChatRateLimited s;
     rateLimitTimerRef := rateLimitTimerRef s;
     chatRateLimitTimerRef := chatRateLimitTimerRef s;
     consecutiveErrorsRef := consecutiveErrorsRef s;
     geocodingErrorsRef := geocodingErrorsRef s |}.

Definition setError (e : option string) (s : state) : state :=
  {| messages := messages s;
     currentLocation := currentLocation s;
     error := e;
     isMapRateLimited := isMapRateLimited s;
     isChatRateLimited := isChatRateLimited s;
     rateLimitTimerRef := rateLimitTimerRef s;
     chatRateLimitTimerRef := chatRateLimitTimerRef s;
     consecutiveErrorsRef := consecutiveErrorsRef s;
     geocodingErrorsRef := geocodingErrorsRef s |}.

Definition set_consecutiveErrors (n : Z) (s : state) : state :=
  {| messages := messages s;
     currentLocation := currentLocation s;
     error := error s;
     isMapRateLimited := isMapRateLimited s;
     isChatRateLimited := isChatRateLimited s;
     rateLimitTimerRef := rateLimitTimerRef s;
     chatRateLimitTimerRef := chatRateLimitTimerRef s;
     consecutiveErrorsRef := n;
     geocodingErrorsRef := geocodingErrorsRef s |}.

Definition set_geocodingErrors (n : Z) (s : state) : state :=
  {| messages := messages s;
     currentLocation := currentLocation s;
     error := error s;
     isMapRateLimited := isMapRateLimited s;
     isChatRateLimited := isChatRateLimited s;
     rateLimitTimerRef := rateLimitTimerRef s;
     chatRateLimitTimerRef := chatRateLimitTimerRef s;
     consecutiveErrorsRef := consecutiveErrorsRef s;
     geocodingErrorsRef := n |}.

(** One turn as the environment plays it: the text typed, and for each
    call the handler may make, how it ends and at what time. *)
Record turn : Type := {
  input : string;
  geocode_of_input : outcome (option Location);  (* [detectAndGeocodeLocation(input)] *)
  geocode_of_input_time : Z;
  chat_reply : string;                           (* [(await sendMessage(...)).reply] *)
  chat_reply_time : Z;
  geocode_of_reply : outcome (option Location);  (* [detectAndGeocodeLocation(response.reply)] *)
  geocode_of_reply_time : Z
}.

(** The calls to the two services a turn makes. *)
Inductive call : Type :=
| GeocodeCall (text : string)
| ChatCall (history : list Message).

Definition is_space (c : ascii) : bool :=
  (Ascii.eqb c " " || Ascii.eqb c "009" || Ascii.eqb c "010" ||
   Ascii.eqb c "011" || Ascii.eqb c "012" || Ascii.eqb c "013")%char.

(** [!input.trim()]: the input has nothing but white space. *)
Fixpoint blank (s : string) : bool :=
  match s with
  | EmptyString => true
  | String c rest => is_space c && blank rest
  end.

Definition overloaded_reply : string :=
  "Je suis désolé, mais le service est temporairement surchargé. Veuillez réessayer dans quelques instants.".

Definition sorry_reply : string :=
  "Désolé, une erreur s'est produite. Veuillez réessayer dans quelques instants.".

(** Lines 187-192: the reply reads as a rate-limiting notice. *)
Definition signals_rate_limit (reply : string) : bool :=
  includes reply "trop de demandes" ||
  includes reply "surchargé" ||
  includes reply "réessayer dans quelques instants".

(** Lines 140-165 and 222-238: what the handler does with the way a
    geocoding call ended at time [now] (the banner of line 158 is display
    only). *)
Definition after_geocoding (o : outcome (option Location)) (now : Z) (s : state) : state :=
  match o with
  | Return (Some detectedLocation) =>
      set_geocodingErrors 0 (setCurrentLocation detectedLocation s)
  | Return None => s
  | Throw geocodeError =>
      if is_rate_limit_message geocodeError
      then setMapRateLimitWithCooldown true now s
      else set_geocodingErrors (geocodingErrorsRef s + 1) s
  end.

(** Lines 246-276: the handler of the outer [try]. *)
Definition on_error (message : string) (now : Z) (s : state) : state :=
  let s := setError (Some (or_else message "Une erreur s'est produite")) s in
  if (negb (String.eqb message "")) && is_rate_limit_message message then
    setMessages (fun prev => (prev ++ [{| role := assistant; content := overloaded_reply |}])%list)
      (setChatRateLimitWithCooldown true now s)
  else
    setMessages (fun prev => (prev ++ [{| role := assistant; content := sorry_reply |}])%list) s.

(** [handleSendMessage()], run on the state [s] of the render it was
    created in: every read of [isMapRateLimited], [isChatRateLimited] and
    [messages] inside it sees the value of that render, whatever was set
    meanwhile; the two counters are references and are read live.  The
    result is the state when the handler ends and the calls it made. *)
Definition handleSendMessage (t : turn) (s : state) : state * list call :=
  if blank (input t) then (s, [])
  else
    let userMessage := {| role := user; content := input t |} in
    let s1 := setMessages (fun prev => (prev ++ [userMessage])%list) (setError None s) in
    (* lines 130-166 *)
    let '(detectedLocation, s2, calls1) :=
      if negb (isMapRateLimited s) then
        (match geocode_of_input t with
         | Return (Some l) => Some l
         | _ => None
         end,
         after_geocoding (geocode_of_input t) (geocode_of_input_time t) s1,
         [GeocodeCall (input t)])
      else (None, s1, []) in
    (* lines 170-182 *)
    if isChatRateLimited s then
      (setMessages (fun prev => (prev ++ [{| role := assistant; content := overloaded_reply |}])%list) s2,
       calls1)
    else
      (* line 185 *)
      let history := (messages s ++ [userMessage])%list in
      let calls2 := (calls1 ++ [ChatCall history])%list in
      let reply := chat_reply t in
      (* lines 187-204 *)
      let s3 :=
        if signals_rate_limit reply then
          let s' := set_consecutiveErrors (consecutiveErrorsRef s2 + 1) s2 in
          if 2 <=? consecutiveErrorsRef s' then
            setChatRateLimitWithCooldown true (chat_reply_time t) s'
          else s'
        else set_consecutiveErrors 0 s2 in
      (* lines 206-245 *)
      match reply with
      | EmptyString =>
          (on_error "No valid reply received from API" (chat_reply_time t) s3, calls2)
      | _ =>
          let assistantMessage := {| role := assistant; content := reply |} in
          let s4 := setMessages (fun prev => (prev ++ [assistantMessage])%list) s3 in
          match detectedLocation with
          | None =>
              if negb (isMapRateLimited s) then
                (after_geocoding (geocode_of_reply t) (geocode_of_reply_time t) s4,
                 (calls2 ++ [GeocodeCall reply])%list)
              else (s4, calls2)
          | Some _ => (s4, calls2)
          end
      end.

End Page.

(** ** Vocabulary of the properties *)

Open Scope list_scope.

(** One attempt of a throttled call: the minimum-interval wait, then the
    request. *)
Definition attempt {J} (gap : Z) (url : string) (body : payload) : M J (response J) :=
  throttle gap ;; fetch url body.

(** The world a computation leaves behind. *)
Definition after {J A} (m : M J A) (w : world J) : world J := snd (m w).

(** How the next request is going to end. *)
Definition fetched {J} (ups : list (fetch_result J)) : outcome (response J) :=
  match ups with
  | Responds r :: _ => Return r
  | NetworkError e :: _ => Throw e
  | [] => Throw "Failed to fetch"
  end.

(** Calls made one after the other, each after some idle time; a call
    that throws is caught by its caller. *)
Fixpoint in_sequence {J A} (calls : list (N * M J A)) : M J unit :=
  match calls with
  | [] => ret tt
  | (pause, call) :: rest =>
      idle pause ;;
      settle call ;;
      in_sequence rest
  end.

(** The fixed replies [sendMessage] falls back on, and a reply that a
    response really carried. *)
Definition degraded_reply (reply : string) : Prop :=
  reply = Api.malformed_reply \/ reply = Api.overloaded_reply \/
  reply = Api.failed_reply.

Definition carries (r : response Api.chat_json) (reply : string) : Prop :=
  ok r = true /\ exists e, json r = Return (Api.JValue (Some reply) e).

(** The fixed replies the chat route falls back on, and a reply that a
    response of the completion service really carried: the content, a
    string, of the message of its first choice. *)
Definition route_notice (text : string) : Prop :=
  text = ChatRoute.too_many_reply \/ text = ChatRoute.difficulties_reply \/
  text = ChatRoute.uninterpretable_reply \/ text = ChatRoute.invalid_reply \/
  text = ChatRoute.unexpected_reply \/ text = ChatRoute.failed_reply.

Definition completes (r : response ChatRoute.completion_json) (content : string) : Prop :=
  ok r = true /\
  exists rest,
    json r = Return (ChatRoute.Data
                       (Some (ChatRoute.Choice (Some (Some content)) :: rest))).

(** What the chat route answers when it goes as far as asking the
    completion service, or fails before: status 200 and a reply, which is
    one of the fixed replies or what a response in [answers] carried. *)
Definition served (answers : list (fetch_result ChatRoute.completion_json))
  (resp : ChatRoute.http_response) : Prop :=
  exists text,
    resp = ChatRoute.NextResponse_json (ChatRoute.reply text) 200 /\
    (route_notice text \/
     exists r, In (Responds r) answers /\ completes r text).

(** The response [sendMessage] receives when the chat route answers with
    status 500 and the body [{ error: "Service configuration error" }]. *)
Definition configuration_error_response : response Api.chat_json :=
  {| status := 500; content_type := "application/json";
     json := Return (Api.JValue None (Some "Service configuration error"));
     text := Throw "body stream already read" |}.

(** Events that are neither requests nor retry delays. *)
Definition quiet (evs : list event) : Prop :=
  dispatches evs = [] /\ backoffs evs = [].

(** [retry_trace url body next delay n evs]: the events [evs] are [n + 1]
    requests to [url], each possibly after a minimum-interval wait, with
    one retry delay between each request and the following; the delays
    are, in order, [schedule next delay n]. *)
Fixpoint retry_trace (url : string) (body : payload) (next : Z -> Z) (delay : Z)
  (n : nat) (evs : list event) : Prop :=
  exists waits t, quiet waits /\
    match n with
    | O => evs = waits ++ [Dispatch t url body]
    | S n' =>
        exists rest,
          evs = waits ++ [Dispatch t url body; Backoff delay] ++ rest /\
          retry_trace url body next (next delay) n' rest
    end.

(** [orderly gap w w']: from [w] to [w'] the trace grew by events whose
    requests left at least [gap] after one another, the first at least
    [gap] after the request time recorded in [w], and [w'] records the
    time of the last of them. *)
Definition orderly {J} (gap : Z) (w w' : world J) : Prop :=
  exists evs,
    trace w' = trace w ++ evs /\
    spaced gap (lastRequestTime w) (dispatches evs) /\
    lastRequestTime w' = last (dispatches evs) (lastRequestTime w).

(** ** Concrete inputs *)

(** A world at time [now] whose module has made no request yet. *)
Definition world_at {J} (now : Z) (answers : list (fetch_result J)) (lags : list N)
  : world J :=
  {| clock := now; lastRequestTime := 0; upstream := answers; lag := lags;
     trace := [] |}.

(** The chat route answering 429 to [sendMessage]. *)
Definition chat_429 : fetch_result Api.chat_json :=
  Responds {| status := 429; content_type := "application/json";
              json := Return (Api.JValue None (Some "Too Many Requests"));
              text := Throw "body stream already read" |}.

(** The chat route answering 200 with a reply. *)
Definition chat_200 (reply : string) : fetch_result Api.chat_json :=
  Responds {| status := 200; content_type := "application/json";
              json := Return (Api.JValue (Some reply) None);
              text := Throw "body stream already read" |}.

(** The completion service answering 429 to the chat route. *)
Definition completion_429 : fetch_result ChatRoute.completion_json :=
  Responds {| status := 429; content_type := "application/json";
              json := Return ChatRoute.DataFalsy;
              text := Throw "body stream already read" |}.

Definition no_configuration : ChatRoute.environment :=
  {| ChatRoute.AZURE_OPENAI_ENDPOINT := None;
     ChatRoute.AZURE_OPENAI_KEY := None;
     ChatRoute.AZURE_OPENAI_DEPLOYMENT := None |}.

Definition full_configuration : ChatRoute.environment :=
  {| ChatRoute.AZURE_OPENAI_ENDPOINT := Some "https://example.openai.azure.com";
     ChatRoute.AZURE_OPENAI_KEY := Some "secret";
     ChatRoute.AZURE_OPENAI_DEPLOYMENT := Some "gpt" |}.

Definition bonjour : Message := {| role := user; content := "Bonjour" |}.

(** The page as it is first rendered. *)
Definition first_render : Page.state :=
  {| Page.messages :=
       [{| role := assistant; content := "Bonjour ! Où souhaitez-vous voyager ?" |}];
     Page.currentLocation := defaultLocation;
     Page.error := None;
     Page.isMapRateLimited := false;
     Page.isChatRateLimited := false;
     Page.rateLimitTimerRef := None;
     Page.chatRateLimitTimerRef := None;
     Page.consecutiveErrorsRef := 0;
     Page.geocodingErrorsRef := 0 |}.

(** A turn in which the geocoding of the input fails, once, with the
    rate-limiting error of [geocodeLocation], and the chat answers. *)
Definition geocoder_limited_turn : Page.turn :=
  {| Page.input := "Je vais à Lyon";
     Page.geocode_of_input := Throw Geocoding.too_many_requests;
     Page.geocode_of_input_time := 1006000;
     Page.chat_reply := "Lyon est une belle ville.";
     Page.chat_reply_time := 1007000;
     Page.geocode_of_reply := Return None;
     Page.geocode_of_reply_time := 1009000 |}.

(** A turn in which the chat answers with its overload notice. *)
Definition chat_overloaded_turn : Page.turn :=
  {| Page.input := "Bonjour";
     Page.geocode_of_input := Return None;
     Page.geocode_of_input_time := 1001000;
     Page.chat_reply := Api.overloaded_reply;
     Page.chat_reply_time := 1007000;
     Page.geocode_of_reply := Return None;
     Page.geocode_of_reply_time := 1009000 |}.

(** The search service answering 429, and answering 200 without result. *)
Definition search_429 : fetch_result GeocodeRoute.azure_json :=
  Responds {| status := 429; content_type := "application/json";
              json := Return (GeocodeRoute.AValue "{}" []);
              text := Throw "body stream already read" |}.

Definition search_nothing : fetch_result GeocodeRoute.azure_json :=
  Responds {| status := 200; content_type := "application/json";
              json := Return (GeocodeRoute.AValue "{}" []);
              text := Throw "body stream already read" |}.

(** The search service answering 200 with one result at [(lon, lat)]. *)
Definition search_result (lon lat : Z) : fetch_result GeocodeRoute.azure_json :=
  Responds {| status := 200; content_type := "application/json";
              json := Return
                (GeocodeRoute.AValue "{}"
                   [GeocodeRoute.Result (Some (Some (integer lon), Some (integer lat)))
                      "Municipality" None]);
              text := Throw "body stream already read" |}.

(** Two requests to the geocode route, the second 10 ms after the first
    was answered.  The search service answers the first with 429, after
    100 ms, and then, to the retry, with an empty result after 50 ms. *)
Definition two_geocode_requests : M GeocodeRoute.azure_json unit :=
  in_sequence
    [ (0%N, GeocodeRoute.POST (fun s => s) render (Some "key") (GeocodeRoute.Body "Lyon"));
      (10%N, GeocodeRoute.POST (fun s => s) render (Some "key") (GeocodeRoute.Body "Nice")) ].

Definition retried_then_next : world GeocodeRoute.azure_json :=
  world_at 1000000 [search_429; search_nothing; search_nothing] [100%N; 0%N; 50%N; 50%N].

(** The geocode route answering [geocodeLocation]: 200 without location,
    429, and 400 with an error body. *)
Definition geocode_null : fetch_result Geocoding.geocode_json :=
  Responds {| status := 200; content_type := "application/json";
              json := Return (Geocoding.GValue None "{}" None);
              text := Throw "body stream already read" |}.

Definition geocode_429 : fetch_result Geocoding.geocode_json :=
  Responds {| status := 429; content_type := "application/json";
              json := Return (Geocoding.GValue
                                (Some "Too Many Requests: Service temporarily unavailable")
                                "{}" None);
              text := Throw "body stream already read" |}.

Definition geocode_400 : fetch_result Geocoding.geocode_json :=
  Responds {| status := 400; content_type := "application/json";
              json := Return (Geocoding.GValue (Some "Invalid coordinates: 200, 48")
                                "{}" None);
              text := Throw "body stream already read" |}.

(** The geocoder at its default arguments. *)
Definition geocode_by_default (locationName : string)
  : M Geocoding.geocode_json (option Location) :=
  Geocoding.geocodeLocation locationName Geocoding.MAX_RETRIES
    Geocoding.INITIAL_RETRY_DELAY.

(** A text outside the gazetteer, and the candidates that
    [extractLocationNames] finds in it; the route knows no Lyon and then
    answers 429 three times. *)
Definition lyon_then_nice : string := "Je vais de Lyon vers Nice".

Definition lyon_and_nice (text : string) : list string := ["Lyon"; "Nice"].

Definition null_then_limited : world Geocoding.geocode_json :=
  world_at 1000000 [geocode_null; geocode_429; geocode_429; geocode_429] [].

(** A history of five questions, none of them a system entry. *)
Definition five_questions : list Message :=
  [ {| role := user; content := "Où partir en mai ?" |};
    {| role := assistant; content := "Pourquoi pas Rome ?" |};
    {| role := user; content := "Et en juin ?" |};
    {| role := assistant; content := "Venise est agréable en juin." |};
    {| role := user; content := "Et en juillet ?" |} ].

(** The completion service answering 200 with one choice. *)
Definition completion_200 (content : string) : fetch_result ChatRoute.completion_json :=
  Responds {| status := 200; content_type := "application/json";
              json := Return (ChatRoute.Data (Some [ChatRoute.Choice (Some (Some content))]));
              text := Throw "body stream already read" |}.

(** The geocode route answering 200 with a location at [(lon, lat)]. *)
Definition geocode_at (lon lat : Z) : fetch_result Geocoding.geocode_json :=
  Responds {| status := 200; content_type := "application/json";
              json := Return
                (Geocoding.GValue None "{}"
                   (Some {| Geocoding.loc_name := "Somewhere";
                            Geocoding.loc_coordinates := Some [integer lon; integer lat];
                            Geocoding.loc_zoom := integer 10;
                            Geocoding.loc_description := None |}));
              text := Throw "body stream already read" |}.

Definition je_veux_visiter_paris : string := "Je veux visiter Paris cet été".

(** ** src/lib/geocoding.ts, [extractLocationNames] *)

Module Extract.

(** [w.endsWith(".")] *)
Fixpoint endsWith_period (w : string) : bool :=
  match w with
  | EmptyString => false
  | String c EmptyString => Ascii.eqb c "."
  | String _ rest => endsWith_period rest
  end.

(** [words.join(" ")] *)
Fixpoint join (words : list string) : string :=
  match words with
  | [] => EmptyString
  | [w] => w
  | w :: rest => (w ++ " " ++ join rest)%string
  end.

Section Extraction.

(** [text.split(/\s+/)], [word.trim()] and the test
    [word[0] === word[0].toUpperCase()] of a word that is not empty follow
    Unicode and are taken as given.  The test asks whether [toUpperCase]
    leaves the first character of the word as it is: it holds of an
    upper-case letter, and of a digit, a punctuation mark and any other
    character without case as well. *)
Variable split : string -> list string.
Variable trim : string -> string.
Variable initial_unchanged : string -> bool.

(** The [for] loop, at a word whose predecessor in [words] is [previous]
    ([None] at index 0). *)
Fixpoint scan (previous : option string) (words : list string)
  (currentPhrase potentialLocations : list string) : list string :=
  match words with
  | [] =>
      match currentPhrase with
      | [] => potentialLocations
      | _ => potentialLocations ++ [join currentPhrase]
      end
  | next :: rest =>
      let word := trim next in
      let first := match previous with None => true | Some _ => false end in
      match word with
      | EmptyString => scan (Some next) rest currentPhrase potentialLocations
      | _ =>
          if first && initial_unchanged word
          then scan (Some next) rest currentPhrase potentialLocations
          else if initial_unchanged word &&
                  match previous with
                  | None => true
                  | Some p => negb (endsWith_period p)
                  end
          then scan (Some next) rest (currentPhrase ++ [word]) potentialLocations
          else
            match currentPhrase with
            | [] => scan (Some next) rest currentPhrase potentialLocations
            | _ => scan (Some next) rest [] (potentialLocations ++ [join currentPhrase])
            end
      end
  end.

(** [extractLocationNames(text)] *)
Definition extractLocationNames (text : string) : list string :=
  scan None (split text) [] [].

End Extraction.

(** Readings of the three built-ins on ASCII text, for running examples:
    the white space of ASCII, and a first character that [toUpperCase]
    leaves as it is, which is every character but the letters a to z. *)
Definition is_space (c : ascii) : bool :=
  (Ascii.eqb c " " || Ascii.eqb c "009" || Ascii.eqb c "010" ||
   Ascii.eqb c "011" || Ascii.eqb c "012" || Ascii.eqb c "013")%char.

Fixpoint split_from (text : string) (word : string) (in_space : bool) : list string :=
  match text with
  | EmptyString => [word]
  | String c rest =>
      if is_space c then
        if in_space then split_from rest word true
        else word :: split_from rest EmptyString true
      else split_from rest (word ++ String c EmptyString)%string false
  end.

Definition split_ascii (text : string) : list string :=
  split_from text EmptyString false.

Definition initial_unchanged_ascii (word : string) : bool :=
  match word with
  | EmptyString => true
  | String c _ => negb (Ascii.leb "a" c && Ascii.leb c "z")%char
  end.

End Extract.

(** ** src/components/map-fallback.tsx, [fetchMapUrl] *)

(** The body of an answer of [/api/static-map] once parsed: JSON [null],
    or a value with its [url] field, present when the value has one (the
    route sends a string; the empty string is falsy). *)
Inductive static_json : Type :=
| SNull
| SValue (url : option string).

(** [location.zoom || 10]: zero and [NaN] are falsy. *)
Definition zoom_or_10 (l : Location) : number :=
  match zoom l with
  | NaN => integer 10
  | Finite q => if Qeq_bool q 0 then integer 10 else Finite q
  | Infinity negative => Infinity negative
  end.

Module MapFallback.

(** The state of the component; [isRateLimited] is declared but never
    set. *)
Record state : Type := {
  imageError : bool;
  isRateLimited : bool;
  mapUrl : string
}.

Definition initial : state :=
  {| imageError := false; isRateLimited := false; mapUrl := EmptyString |}.

Definition setImageError (b : bool) (s : state) : state :=
  {| imageError := b; isRateLimited := isRateLimited s; mapUrl := mapUrl s |}.

Definition setMapUrl (u : string) (s : state) : state :=
  {| imageError := imageError s; isRateLimited := isRateLimited s; mapUrl := u |}.

Section Component.

(** The rendering of a number in a template literal, taken as given. *)
Variable ToString : number -> string.

Definition static_map_request (longitude latitude zoom : number) : string :=
  ("/api/static-map?longitude=" ++ ToString longitude ++ "&latitude="
   ++ ToString latitude ++ "&zoom=" ++ ToString zoom)%string.

Definition osmUrl (longitude latitude zoom : number) : string :=
  ("https://staticmap.openstreetmap.de/staticmap.php?center=" ++ ToString latitude
   ++ "," ++ ToString longitude ++ "&zoom=" ++ ToString zoom
   ++ "&size=600x400&maptype=mapnik&markers=" ++ ToString latitude ++ ","
   ++ ToString longitude ++ ",red-pushpin")%string.

(** [fetchMapUrl()], run by the effect for [location] on the state [s]. *)
Definition fetchMapUrl (location : Location) (s : state) : M static_json state :=
  let (longitude, latitude) := coordinates location in
  let zoom := zoom_or_10 location in
  let validCoordinates := validateCoordinates longitude latitude in
  if negb validCoordinates then ret (setImageError true s)
  else
    try_catch
      (r <- fetch (static_map_request longitude latitude zoom) NoBody ;;
       if status r =? 429 then ret (setMapUrl (osmUrl longitude latitude zoom) s)
       else if negb (ok r)
       then throw ("Failed to get static map URL: " ++ string_of_Z (status r))%string
       else
         match json r with
         | Throw e => throw e
         | Return SNull => throw "Cannot read properties of null (reading 'url')"
         | Return (SValue None) => throw "No URL returned from static map API"
         | Return (SValue (Some EmptyString)) =>
             throw "No URL returned from static map API"
         | Return (SValue (Some u)) => ret (setMapUrl u s)
         end)
      (fun _ => ret (setMapUrl (osmUrl longitude latitude zoom) s)).

End Component.

(** What the component shows. *)
Inductive view : Type := Unavailable | Image (src : string) | Spinner.

Definition render (s : state) : view :=
  if imageError s || isRateLimited s then Unavailable
  else
    match mapUrl s with
    | EmptyString => Spinner
    | u => Image u
    end.

End MapFallback.

(** ** The [Map] component, [generateStaticMap] *)

Module MapComponent.

Definition MIN_REQUEST_INTERVAL : Z := 2000.

(** The state of the component that [generateStaticMap] writes, with the
    number of times it has called the [onError] property (which the page
    always passes). *)
Record state : Type := {
  hasError : bool;
  errorDetails : string;
  staticMapUrl : string;
  isRateLimited : bool;
  onError_calls : nat
}.

Definition initial : state :=
  {| hasError := false; errorDetails := EmptyString; staticMapUrl := EmptyString;
     isRateLimited := false; onError_calls := 0 |}.

(** [setHasError(true); if (onError) onError()] *)
Definition fail (s : state) : state :=
  {| hasError := true; errorDetails := errorDetails s; staticMapUrl := staticMapUrl s;
     isRateLimited := isRateLimited s; onError_calls := S (onError_calls s) |}.

Definition setErrorDetails (d : string) (s : state) : state :=
  {| hasError := hasError s; errorDetails := d; staticMapUrl := staticMapUrl s;
     isRateLimited := isRateLimited s; onError_calls := onError_calls s |}.

Definition setIsRateLimited (b : bool) (s : state) : state :=
  {| hasError := hasError s; errorDetails := errorDetails s;
     staticMapUrl := staticMapUrl s; isRateLimited := b;
     onError_calls := onError_calls s |}.

Definition setStaticMapUrl (u : string) (s : state) : state :=
  {| hasError := hasError s; errorDetails := errorDetails s; staticMapUrl := u;
     isRateLimited := isRateLimited s; onError_calls := onError_calls s |}.

Section Component.

Variable ToString : number -> string.

(** [generateStaticMap()], run by the effect for [location] on the state
    [s]; the world's recorded request time is [lastRequestTimeRef]. *)
Definition generateStaticMap (location : Location) (s : state) : M static_json state :=
  try_catch
    (let zoom := zoom_or_10 location in
     let (longitude, latitude) := coordinates location in
     if isNaN longitude || isNaN latitude ||
        number_lt longitude (integer (-180)) || number_lt (integer 180) longitude ||
        number_lt latitude (integer (-90)) || number_lt (integer 90) latitude
     then
       ret (fail (setErrorDetails
                    ("Coordonnées invalides: " ++ ToString longitude ++ ", "
                     ++ ToString latitude)%string s))
     else
       throttle MIN_REQUEST_INTERVAL ;;
       r <- fetch (MapFallback.static_map_request ToString longitude latitude zoom) NoBody ;;
       if status r =? 429 then
         ret (fail (setErrorDetails
                      "Service temporairement indisponible (trop de requêtes)"
                      (setIsRateLimited true s)))
       else if negb (ok r)
       then throw ("Failed to get static map URL: " ++ string_of_Z (status r))%string
       else
         match json r with
         | Throw e => throw e
         | Return SNull => throw "Cannot read properties of null (reading 'url')"
         | Return (SValue None) => throw "No URL returned from static map API"
         | Return (SValue (Some EmptyString)) =>
             throw "No URL returned from static map API"
         | Return (SValue (Some u)) => ret (setStaticMapUrl u s)
         end)
    (fun _ => ret (fail s)).

End Component.

(** What the component shows; [script_failed] is [status === "error"]. *)
Inductive view : Type := LiveMap | StaticImage (src : string) | Unavailable.

Definition render (script_failed : bool) (s : state) : view :=
  if hasError s || isRateLimited s || script_failed then
    match staticMapUrl s with
    | EmptyString => Unavailable
    | u => if negb (isRateLimited s) then StaticImage u else Unavailable
    end
  else LiveMap.

End MapComponent.

(** ** Further vocabulary *)

(** [made_of initial_unchanged words candidate]: the candidate is one or
    more of the [words], each of them non-empty and passing the test
    [initial_unchanged], joined by single spaces. *)
Definition made_of (initial_unchanged : string -> bool) (words : list string)
  (candidate : string) : Prop :=
  exists phrase,
    phrase <> [] /\ candidate = Extract.join phrase /\
    Forall (fun word => word <> EmptyString /\ initial_unchanged word = true /\ In word words)
      phrase.

(** The URL the chat route posts to (line 79). *)
Definition completions_url (env : ChatRoute.environment) : string :=
  (match ChatRoute.AZURE_OPENAI_ENDPOINT env with Some s => s | None => "" end
   ++ "/openai/deployments/"
   ++ match ChatRoute.AZURE_OPENAI_DEPLOYMENT env with Some s => s | None => "" end
   ++ "/chat/completions?api-version=2023-05-15")%string.

(** The URL the geocode route requests (line 53). *)
Definition search_url (encodeURIComponent : string -> string) (query : string)
  (apiKey : option string) : string :=
  ("https://atlas.microsoft.com/search/address/json?api-version=1.0&query="
   ++ encodeURIComponent query ++ "&subscription-key="
   ++ match apiKey with Some k => k | None => "" end ++ "&language=fr")%string.

(** [bare_retries url delay times]: requests to [url] leaving at [times],
    with a retry delay of [delay] between each and the next and nothing
    else in between. *)
Fixpoint bare_retries (url : string) (delay : Z) (times : list Z) : list event :=
  match times with
  | [] => []
  | [t] => [Dispatch t url NoBody]
  | t :: rest => Dispatch t url NoBody :: Backoff delay :: bare_retries url delay rest
  end.

(** Runs of the effect of the [Map] component, one after the other, each
    on the state the one before left; the list gives the location of each
    run.  The effect runs again at every render (the page passes a new
    [onError] each time), so a location may come several times in the
    list.  Runs that overlap, one starting while another waits, are not
    described: what is proved of [generate_all] is about the flags and the
    calls of [onError], which only ever go up, and not about the times of
    the requests. *)
Fixpoint generate_all (ToString : number -> string) (locations : list Location)
  (s : MapComponent.state) : M static_json MapComponent.state :=
  match locations with
  | [] => ret s
  | location :: rest =>
      s' <- MapComponent.generateStaticMap ToString location s ;;
      generate_all ToString rest s'
  end.

(** Events none of which is a minimum-interval wait. *)
Definition unthrottled (evs : list event) : Prop :=
  Forall (fun e => match e with Throttled _ => False | _ => True end) evs.

(** The longest delay that [setTimeout] takes as it is, and events whose
    timers all ask for a delay that it does. *)
Definition MAX_TIMEOUT : Z := 2147483647.

Definition within_timer (evs : list event) : Prop :=
  Forall (fun e => match e with
                   | Throttled ms => 0 <= ms <= MAX_TIMEOUT
                   | Backoff ms => 0 <= ms <= MAX_TIMEOUT
                   | _ => True
                   end) evs.

(** At most one minimum-interval wait, of a positive time within [gap]. *)
Definition one_wait (gap : Z) (waits : list event) : Prop :=
  waits = [] \/ exists ms, waits = [Throttled ms] /\ 0 < ms <= gap.

(** ** Further inputs *)

(** Answers of the chat route to [sendMessage]: 429, 200 with a reply,
    and 503 with a page of text. *)
Definition chat_limited : response Api.chat_json :=
  {| status := 429; content_type := "application/json";
     json := Return (Api.JValue None (Some "Too Many Requests"));
     text := Throw "body stream already read" |}.

Definition chat_answer (reply : string) : response Api.chat_json :=
  {| status := 200; content_type := "application/json";
     json := Return (Api.JValue (Some reply) None);
     text := Throw "body stream already read" |}.

Definition chat_unavailable : response Api.chat_json :=
  {| status := 503; content_type := "text/html";
     json := Throw "Unexpected token < in JSON at position 0";
     text := Return "Service Unavailable" |}.

(** Answers of the geocode route to [geocodeLocation]: 429, 503 with a
    page of text, and 200 with a location at [(lon, lat)]. *)
Definition geocode_limited : response Geocoding.geocode_json :=
  {| status := 429; content_type := "application/json";
     json := Return (Geocoding.GValue
                       (Some "Too Many Requests: Service temporarily unavailable")
                       "{}" None);
     text := Throw "body stream already read" |}.

Definition geocode_unavailable : response Geocoding.geocode_json :=
  {| status := 503; content_type := "text/html";
     json := Throw "Unexpected token < in JSON at position 0";
     text := Return "Service Unavailable" |}.

Definition geocode_found (lon lat : Z) : response Geocoding.geocode_json :=
  {| status := 200; content_type := "application/json";
     json := Return
       (Geocoding.GValue None "{}"
          (Some {| Geocoding.loc_name := "Somewhere";
                   Geocoding.loc_coordinates := Some [integer lon; integer lat];
                   Geocoding.loc_zoom := integer 10;
                   Geocoding.loc_description := None |}));
     text := Throw "body stream already read" |}.

Definition somewhere (lon lat : Z) : Location :=
  {| name := "Somewhere"; coordinates := (integer lon, integer lat);
     zoom := integer 10; description := None |}.

(** Answers of the completion service to the chat route: 429, and 500
    with a page of text. *)
Definition completion_limited : response ChatRoute.completion_json :=
  {| status := 429; content_type := "application/json";
     json := Return ChatRoute.DataFalsy;
     text := Throw "body stream already read" |}.

Definition completion_broken : response ChatRoute.completion_json :=
  {| status := 500; content_type := "text/html";
     json := Throw "Unexpected token < in JSON at position 0";
     text := Return "Internal Server Error" |}.

Definition completion_url : string :=
  "https://example.openai.azure.com/openai/deployments/gpt/chat/completions?api-version=2023-05-15".

(** A turn in which the chat call failed and [sendMessage] resolved to its
    generic failure notice. *)
Definition chat_failed_turn : Page.turn :=
  {| Page.input := "Bonjour";
     Page.geocode_of_input := Return None;
     Page.geocode_of_input_time := 1001000;
     Page.chat_reply := Api.failed_reply;
     Page.chat_reply_time := 1002000;
     Page.geocode_of_reply := Return None;
     Page.geocode_of_reply_time := 1004000 |}.

(** Answers of the search service to the geocode route: 429, and 503
    with a page of text. *)
Definition search_limited : response GeocodeRoute.azure_json :=
  {| status := 429; content_type := "application/json";
     json := Return (GeocodeRoute.AValue "{}" []);
     text := Throw "body stream already read" |}.

Definition search_unavailable : response GeocodeRoute.azure_json :=
  {| status := 503; content_type := "text/html";
     json := Throw "Unexpected token < in JSON at position 0";
     text := Return "Service Unavailable" |}.

(** The static-map route answering 429. *)
Definition static_map_limited : response static_json :=
  {| status := 429; content_type := "application/json";
     json := Return (SValue None);
     text := Throw "body stream already read" |}.

(** The chat route answering 200 with a body that is not JSON, and a turn
    in which [sendMessage] resolved to its malformed-response notice. *)
Definition chat_garbled : response Api.chat_json :=
  {| status := 200; content_type := "text/html";
     json := Throw "Unexpected token < in JSON at position 0";
     text := Return "<html></html>" |}.

Definition chat_garbled_turn : Page.turn :=
  {| Page.input := "Bonjour";
     Page.geocode_of_input := Return None;
     Page.geocode_of_input_time := 1001000;
     Page.chat_reply := Api.malformed_reply;
     Page.chat_reply_time := 1002000;
     Page.geocode_of_reply := Return None;
     Page.geocode_of_reply_time := 1004000 |}.

(* ################################################################# *)
(** * Properties *)

(** ** Traces and the runtime *)

Lemma dispatches_app evs1 evs2 :
  dispatches (evs1 ++ evs2) = dispatches evs1 ++ dispatches evs2.
Proof.
  induction evs1 as [|e evs1 IH]; simpl; [reflexivity|].
  destruct e; simpl; rewrite IH; reflexivity.
Qed.

Lemma backoffs_app evs1 evs2 :
  backoffs (evs1 ++ evs2) = backoffs evs1 ++ backoffs evs2.
Proof.
  induction evs1 as [|e evs1 IH]; simpl; [reflexivity|].
  destruct e; simpl; rewrite IH; reflexivity.
Qed.

Lemma last_cons (t : Z) ts d : last (t :: ts) d = last ts t.
Proof.
  revert t d; induction ts as [|u ts IH]; intros t d; [reflexivity|].
  change (last (t :: u :: ts) d) with (last (u :: ts) d).
  rewrite (IH u d), (IH u t). reflexivity.
Qed.

Lemma last_app (ts1 ts2 : list Z) : forall d,
  last (ts1 ++ ts2) d = last ts2 (last ts1 d).
Proof.
  induction ts1 as [|t ts1 IH]; intros d; [reflexivity|].
  rewrite <- app_comm_cons, !last_cons. apply IH.
Qed.

Lemma spaced_app gap ts1 : forall prev ts2,
  spaced gap prev (ts1 ++ ts2) <->
  spaced gap prev ts1 /\ spaced gap (last ts1 prev) ts2.
Proof.
  induction ts1 as [|t ts1 IH]; intros prev ts2.
  - simpl. tauto.
  - rewrite last_cons. simpl. rewrite IH. tauto.
Qed.

Lemma orderly_refl J gap (w : world J) : orderly gap w w.
Proof.
  exists []. rewrite app_nil_r. simpl. auto.
Qed.

Lemma orderly_trans J gap (w1 w2 w3 : world J) :
  orderly gap w1 w2 -> orderly gap w2 w3 -> orderly gap w1 w3.
Proof.
  intros (evs1 & T1 & S1 & L1) (evs2 & T2 & S2 & L2).
  exists (evs1 ++ evs2). rewrite dispatches_app.
  split; [rewrite T2, T1, app_assoc; reflexivity|].
  split.
  - apply spaced_app. rewrite <- L1. auto.
  - rewrite L2, L1, last_app. reflexivity.
Qed.

Lemma next_lag_nonneg J (w : world J) : 0 <= next_lag w.
Proof. unfold next_lag. apply N2Z.is_nonneg. Qed.

(** The minimum-interval wait never fails; it leaves the clock at least
    [gap] after the recorded request time and records the clock. *)
Lemma throttle_spec J gap (w : world J) :
  exists w', throttle gap w = (Return tt, w') /\
    lastRequestTime w' = clock w' /\
    lastRequestTime w + gap <= clock w' /\
    upstream w' = upstream w /\
    exists evs, trace w' = trace w ++ evs /\ dispatches evs = [] /\ backoffs evs = [].
Proof.
  unfold throttle, bind, Date_now, get_lastRequestTime, set_lastRequestTime.
  destruct (clock w - lastRequestTime w <? gap) eqn:E; simpl.
  - eexists; split; [reflexivity|]; simpl. repeat split; try lia.
    + apply Z.ltb_lt in E. pose proof (next_lag_nonneg w). lia.
    + exists [Throttled (gap - (clock w - lastRequestTime w))]. auto.
  - eexists; split; [reflexivity|]; simpl. repeat split; try lia.
    exists []. rewrite app_nil_r. auto.
Qed.

Lemma attempt_eq J gap url body (w : world J) :
  attempt gap url body w = (fetched (upstream w), after (attempt gap url body) w).
Proof.
  destruct (throttle_spec gap w) as (w' & R & _ & _ & U & _).
  unfold after, attempt, bind. rewrite R. unfold fetch, fetched. rewrite U.
  destruct (upstream w) as [|[r|e] ?]; reflexivity.
Qed.

Lemma attempt_spec J gap url body (w : world J) :
  exists evs t,
    upstream (after (attempt gap url body) w) = tl (upstream w) /\
    trace (after (attempt gap url body) w) = trace w ++ evs ++ [Dispatch t url body] /\
    dispatches evs = [] /\ backoffs evs = [] /\
    lastRequestTime w + gap <= t /\
    lastRequestTime (after (attempt gap url body) w) = t.
Proof.
  destruct (throttle_spec gap w) as (w' & R & L & G & U & evs & T & D & B).
  exists evs, (clock w').
  unfold after, attempt, bind. rewrite R. unfold fetch. rewrite U.
  destruct (upstream w) as [|[r|e] ?]; simpl;
    rewrite T, <- app_assoc; repeat split; auto; lia.
Qed.

(** A [try] block that opens with the wait and the request. *)
Lemma try_attempt J A gap url body (K : response J -> M J A) handler (w : world J) :
  try_catch (throttle gap ;; r <- fetch url body ;; K r) handler w =
  match fetched (upstream w) with
  | Return r => try_catch (K r) handler (after (attempt gap url body) w)
  | Throw e => handler e (after (attempt gap url body) w)
  end.
Proof.
  destruct (throttle_spec gap w) as (w' & R & _ & _ & U & _).
  unfold after, attempt, try_catch, bind. rewrite R. unfold fetch, fetched. rewrite U.
  destruct (upstream w) as [|[r|e] ?]; reflexivity.
Qed.

Lemma bind_try_attempt J A B gap url body (K : response J -> M J A) handler
  (G : A -> M J B) (w : world J) :
  bind (try_catch (throttle gap ;; r <- fetch url body ;; K r) handler) G w =
  match fetched (upstream w) with
  | Return r => bind (try_catch (K r) handler) G (after (attempt gap url body) w)
  | Throw e => bind (handler e) G (after (attempt gap url body) w)
  end.
Proof.
  unfold bind at 1. rewrite try_attempt.
  destruct (fetched (upstream w)); reflexivity.
Qed.

(** The retry loops are unfolded by their equations only. *)
Arguments Api.sendMessage : simpl never.
Arguments ChatRoute.fetchWithRetry : simpl never.
Arguments Geocoding.geocodeLocation : simpl never.
Arguments GeocodeRoute.makeRequestWithRetry : simpl never.

(** Case analysis on the innermost test of the goal. *)
Ltac branch :=
  match goal with
  | |- context [match ?x with _ => _ end] =>
      lazymatch x with
      | context [match _ with _ => _ end] => fail
      | _ => destruct x eqn:?
      end
  end.

Ltac run := unfold throw, ret, complete, try_catch, bind, sleep, after; simpl.

(** ** Retry loops in general *)

Lemma sleep_after J mark ms (w : world J) :
  trace (after (sleep mark ms) w) = trace w ++ [mark ms] /\
  lastRequestTime (after (sleep mark ms) w) = lastRequestTime w /\
  upstream (after (sleep mark ms) w) = upstream w.
Proof. repeat split. Qed.

Lemma attempt_orderly J gap url body (w : world J) :
  orderly gap w (after (attempt gap url body) w).
Proof.
  destruct (attempt_spec gap url body w) as (evs & t & _ & T & D & _ & G & L).
  exists (evs ++ [Dispatch t url body]).
  rewrite dispatches_app, D. simpl. auto.
Qed.

Lemma backoff_orderly J gap ms (w : world J) :
  orderly gap w (after (sleep Backoff ms) w).
Proof. exists [Backoff ms]. simpl. auto. Qed.

Lemma retry_trace_backoffs url body next n : forall delay evs,
  retry_trace url body next delay n evs -> backoffs evs = schedule next delay n.
Proof.
  induction n as [|n IH]; intros delay evs (waits & t & [D B] & H).
  - subst evs. rewrite backoffs_app, B. reflexivity.
  - destruct H as (rest & -> & H). rewrite backoffs_app, B. simpl.
    rewrite (IH _ _ H). reflexivity.
Qed.

Lemma retry_trace_dispatches url body next n : forall delay evs,
  retry_trace url body next delay n evs -> List.length (dispatches evs) = S n.
Proof.
  induction n as [|n IH]; intros delay evs (waits & t & [D B] & H).
  - subst evs. rewrite dispatches_app, D. reflexivity.
  - destruct H as (rest & -> & H). rewrite dispatches_app, D. simpl.
    rewrite (IH _ _ H). reflexivity.
Qed.

Section RetryLoop.

Variables (J A : Type) (gap : Z) (url : string) (body : payload).
Variable next : Z -> Z.
Variable f : nat -> Z -> M J A.

(** What the retry loops share: one attempt, after which the call either
    ends or, retries being left, sleeps for [delay] and starts again. *)
Hypothesis step : forall retries delay w,
  let w1 := after (attempt gap url body) w in
  after (f retries delay) w = w1 \/
  exists retries', retries = S retries' /\
    f retries delay w = f retries' (next delay) (after (sleep Backoff delay) w1).

Lemma loop_trace retries : forall delay w,
  exists n evs, (n <= retries)%nat /\
    trace (after (f retries delay) w) = trace w ++ evs /\
    retry_trace url body next delay n evs.
Proof.
  assert (base : forall retries delay w,
             after (f retries delay) w = after (attempt gap url body) w ->
             exists n evs, (n <= retries)%nat /\
               trace (after (f retries delay) w) = trace w ++ evs /\
               retry_trace url body next delay n evs).
  { intros r delay w E.
    destruct (attempt_spec gap url body w) as (waits & t & _ & T & D & B & _).
    exists 0%nat, (waits ++ [Dispatch t url body]).
    rewrite E, T. repeat split; auto with arith.
    exists waits, t. repeat split; auto. }
  induction retries as [|retries IH]; intros delay w.
  - destruct (step 0 delay w) as [E | (r' & E & _)]; [auto | discriminate].
  - destruct (step (S retries) delay w) as [E | (r' & E & R)]; [auto|].
    injection E as <-.
    destruct (attempt_spec gap url body w) as (waits & t & _ & T & D & B & _).
    destruct (IH (next delay)
                 (after (sleep Backoff delay) (after (attempt gap url body) w)))
      as (n & evs & Hn & T' & RT).
    exists (S n), (waits ++ [Dispatch t url body; Backoff delay] ++ evs).
    split; [lia|]. split.
    + unfold after at 1. rewrite R. fold (after (f retries (next delay))
        (after (sleep Backoff delay) (after (attempt gap url body) w))).
      rewrite T'. destruct (sleep_after Backoff delay (after (attempt gap url body) w))
        as (-> & _). rewrite T. rewrite <- !app_assoc. reflexivity.
    + exists waits, t. split; [split; assumption|]. exists evs. auto.
Qed.

Lemma loop_orderly retries : forall delay w,
  orderly gap w (after (f retries delay) w).
Proof.
  induction retries as [|retries IH]; intros delay w.
  - destruct (step 0 delay w) as [E | (r' & E & _)]; [|discriminate].
    rewrite E. apply attempt_orderly.
  - destruct (step (S retries) delay w) as [E | (r' & E & R)].
    + rewrite E. apply attempt_orderly.
    + injection E as <-. unfold after at 1. rewrite R.
      fold (after (f retries (next delay))
              (after (sleep Backoff delay) (after (attempt gap url body) w))).
      eapply orderly_trans; [apply attempt_orderly|].
      eapply orderly_trans; [apply backoff_orderly | apply IH].
Qed.

End RetryLoop.

(** ** [sendMessage] *)

(** One attempt of [sendMessage] either settles on a reply, a fixed one or
    the one the response carried, or, retries being left, sleeps for
    [delay] and hands over to the recursive call. *)
Lemma sendMessage_body_step messages delay again (w : world Api.chat_json) :
  let w1 := after (attempt Api.MIN_REQUEST_INTERVAL "/api/chat" (ChatBody messages)) w in
  (exists reply,
     Api.sendMessage_body messages delay again w = (Return reply, w1) /\
     (degraded_reply reply \/
      exists r, fetched (upstream w) = Return r /\ carries r reply)) \/
  (exists k, again = Some k /\
     Api.sendMessage_body messages delay again w = k (after (sleep Backoff delay) w1)).
Proof.
  intros w1. unfold Api.sendMessage_body.
  rewrite !bind_try_attempt. fold w1. run.
  repeat (branch; run);
    first [ right; eexists; split; reflexivity
          | left; eexists; split; [reflexivity|];
            first [ left; unfold degraded_reply; tauto
                  | right; eexists; split; [reflexivity|];
                    split; [apply negb_false_iff; assumption | eexists; eassumption] ] ].
Qed.

Lemma sendMessage_unfold messages retries delay :
  Api.sendMessage messages retries delay =
  Api.sendMessage_body messages delay
    match retries with
    | O => None
    | S retries' => Some (Api.sendMessage messages retries' (delay * 2))
    end.
Proof. destruct retries; reflexivity. Qed.

Lemma sendMessage_step messages retries delay (w : world Api.chat_json) :
  let w1 := after (attempt Api.MIN_REQUEST_INTERVAL "/api/chat" (ChatBody messages)) w in
  after (Api.sendMessage messages retries delay) w = w1 \/
  exists retries', retries = S retries' /\
    Api.sendMessage messages retries delay w =
    Api.sendMessage messages retries' (delay * 2) (after (sleep Backoff delay) w1).
Proof.
  intros w1. rewrite sendMessage_unfold.
  destruct (sendMessage_body_step messages delay
              match retries with
              | O => None
              | S retries' => Some (Api.sendMessage messages retries' (delay * 2))
              end w) as [(reply & E & _) | (k & K & E)].
  - left. unfold after at 1. rewrite E. reflexivity.
  - right. destruct retries as [|retries']; [discriminate|].
    injection K as <-. eauto.
Qed.

Lemma fetched_In J (w : world J) r :
  fetched (upstream w) = Return r -> In (Responds r) (upstream w).
Proof.
  unfold fetched. destruct (upstream w) as [|[r'|e] ups]; try discriminate.
  intros [= ->]. left. reflexivity.
Qed.

Lemma In_tl A (x : A) l : In x (tl l) -> In x l.
Proof. destruct l; simpl; auto. Qed.

(** [sendMessage] never throws: whatever the upstream answers, it resolves
    to a reply, which is one of the three fixed replies or the reply that
    one of the responses carried. *)
Lemma sendMessage_resolves messages retries : forall delay (w : world Api.chat_json),
  exists reply w',
    Api.sendMessage messages retries delay w = (Return reply, w') /\
    (degraded_reply reply \/
     exists r, In (Responds r) (upstream w) /\ carries r reply).
Proof.
  induction retries as [|retries IH]; intros delay w; rewrite sendMessage_unfold.
  - destruct (sendMessage_body_step messages delay None w)
      as [(reply & E & P) | (k & K & _)]; [|discriminate].
    exists reply. eexists. split; [exact E|].
    destruct P as [P | (r & F & C)]; [auto|]. right. exists r. auto using fetched_In.
  - destruct (sendMessage_body_step messages delay
                (Some (Api.sendMessage messages retries (delay * 2))) w)
      as [(reply & E & P) | (k & K & E)].
    + exists reply. eexists. split; [exact E|].
      destruct P as [P | (r & F & C)]; [auto|]. right. exists r. auto using fetched_In.
    + injection K as <-. rewrite E.
      destruct (IH (delay * 2)
                  (after (sleep Backoff delay)
                     (after (attempt Api.MIN_REQUEST_INTERVAL "/api/chat"
                               (ChatBody messages)) w)))
        as (reply & w' & E' & P).
      exists reply, w'. split; [exact E'|].
      destruct P as [P | (r & I & C)]; [auto|]. right. exists r. split; [|exact C].
      destruct (attempt_spec Api.MIN_REQUEST_INTERVAL "/api/chat" (ChatBody messages) w)
        as (evs & t & U & _).
      apply In_tl. rewrite <- U. exact I.
Qed.

(** The events of a call of [sendMessage]: at most [retries + 1] requests,
    with the delays [delay], [2 * delay], [4 * delay], ... between them. *)
Lemma sendMessage_trace messages retries delay (w : world Api.chat_json) :
  exists n evs, (n <= retries)%nat /\
    trace (after (Api.sendMessage messages retries delay) w) = trace w ++ evs /\
    retry_trace "/api/chat" (ChatBody messages) (fun d => d * 2) delay n evs.
Proof.
  apply (@loop_trace _ _ Api.MIN_REQUEST_INTERVAL "/api/chat" (ChatBody messages)
           (fun d => d * 2) (Api.sendMessage messages)).
  intros r d w0. apply sendMessage_step.
Qed.

Lemma sendMessage_orderly messages retries delay (w : world Api.chat_json) :
  orderly Api.MIN_REQUEST_INTERVAL w (after (Api.sendMessage messages retries delay) w).
Proof.
  apply (@loop_orderly _ _ Api.MIN_REQUEST_INTERVAL "/api/chat" (ChatBody messages)
           (fun d => d * 2) (Api.sendMessage messages)).
  intros r d w0. apply sendMessage_step.
Qed.

(** ** The chat route *)

Lemma fetchWithRetry_body_step url options delay again (w : world ChatRoute.completion_json) :
  let w1 := after (attempt ChatRoute.MIN_OPENAI_REQUEST_INTERVAL url options) w in
  after (ChatRoute.fetchWithRetry_body url options delay again) w = w1 \/
  (exists k, again = Some k /\
     ChatRoute.fetchWithRetry_body url options delay again w =
     k (after (sleep Backoff delay) w1)).
Proof.
  intros w1. unfold after at 1. unfold ChatRoute.fetchWithRetry_body.
  rewrite !bind_try_attempt. fold w1. run.
  repeat (branch; run);
    first [left; reflexivity | right; eexists; split; reflexivity].
Qed.

Lemma fetchWithRetry_unfold url options retries delay :
  ChatRoute.fetchWithRetry url options retries delay =
  ChatRoute.fetchWithRetry_body url options delay
    match retries with
    | O => None
    | S retries' =>
        Some (ChatRoute.fetchWithRetry url options retries'
                (Z.min (delay * 2) ChatRoute.MAX_RETRY_DELAY))
    end.
Proof. destruct retries; reflexivity. Qed.

Lemma fetchWithRetry_step url options retries delay (w : world ChatRoute.completion_json) :
  let w1 := after (attempt ChatRoute.MIN_OPENAI_REQUEST_INTERVAL url options) w in
  after (ChatRoute.fetchWithRetry url options retries delay) w = w1 \/
  exists retries', retries = S retries' /\
    ChatRoute.fetchWithRetry url options retries delay w =
    ChatRoute.fetchWithRetry url options retries'
      (Z.min (delay * 2) ChatRoute.MAX_RETRY_DELAY) (after (sleep Backoff delay) w1).
Proof.
  intros w1. rewrite fetchWithRetry_unfold.
  destruct (fetchWithRetry_body_step url options delay
              match retries with
              | O => None
              | S retries' =>
                  Some (ChatRoute.fetchWithRetry url options retries'
                          (Z.min (delay * 2) ChatRoute.MAX_RETRY_DELAY))
              end w) as [E | (k & K & E)].
  - left. exact E.
  - right. destruct retries as [|retries']; [discriminate|].
    injection K as <-. eauto.
Qed.

(** The events of a call of [fetchWithRetry]: at most [retries + 1]
    requests, with the delays [delay], [min (2 * delay) MAX_RETRY_DELAY],
    ... between them. *)
Lemma fetchWithRetry_trace url options retries delay (w : world ChatRoute.completion_json) :
  exists n evs, (n <= retries)%nat /\
    trace (after (ChatRoute.fetchWithRetry url options retries delay) w) = trace w ++ evs /\
    retry_trace url options (fun d => Z.min (d * 2) ChatRoute.MAX_RETRY_DELAY) delay n evs.
Proof.
  apply (@loop_trace _ _ ChatRoute.MIN_OPENAI_REQUEST_INTERVAL url options
           (fun d => Z.min (d * 2) ChatRoute.MAX_RETRY_DELAY)
           (ChatRoute.fetchWithRetry url options)).
  intros r d w0. apply fetchWithRetry_step.
Qed.

Lemma fetchWithRetry_orderly url options retries delay (w : world ChatRoute.completion_json) :
  orderly ChatRoute.MIN_OPENAI_REQUEST_INTERVAL w
    (after (ChatRoute.fetchWithRetry url options retries delay) w).
Proof.
  apply (@loop_orderly _ _ ChatRoute.MIN_OPENAI_REQUEST_INTERVAL url options
           (fun d => Z.min (d * 2) ChatRoute.MAX_RETRY_DELAY)
           (ChatRoute.fetchWithRetry url options)).
  intros r d w0. apply fetchWithRetry_step.
Qed.

(** ** Retry delays in closed form *)

Lemma doubling_nth n : forall delay k d,
  nth_error (doubling delay n) k = Some d -> d = delay * 2 ^ Z.of_nat k.
Proof.
  induction n as [|n IH]; intros delay k d H.
  - destruct k; discriminate.
  - destruct k as [|k]; simpl in H.
    + injection H as <-. simpl. lia.
    + apply IH in H. rewrite H, Nat2Z.inj_succ, Z.pow_succ_r by lia. lia.
Qed.

Lemma capped_nth cap n : forall delay k d,
  0 <= delay <= cap ->
  nth_error (capped cap delay n) k = Some d -> d = Z.min (delay * 2 ^ Z.of_nat k) cap.
Proof.
  induction n as [|n IH]; intros delay k d B H.
  - destruct k; discriminate.
  - destruct k as [|k]; simpl in H.
    + injection H as <-. simpl. lia.
    + apply IH in H; [|lia]. rewrite H, Nat2Z.inj_succ, Z.pow_succ_r by lia.
      assert (0 < 2 ^ Z.of_nat k) by (apply Z.pow_pos_nonneg; lia).
      destruct (Z.le_ge_cases (delay * 2) cap) as [L | L].
      * rewrite (Z.min_l (delay * 2) cap) by exact L. f_equal. lia.
      * rewrite (Z.min_r (delay * 2) cap) by exact L.
        rewrite !Z.min_r; nia.
Qed.

(** ** The gazetteer *)

Lemma locationData_valid :
  forallb (fun entry => valid_location (snd entry)) locationData = true.
Proof. vm_compute. reflexivity. Qed.

Lemma first_match_In lowercaseText entries location :
  Geocoding.first_match lowercaseText entries = Some location ->
  exists key, In (key, location) entries /\ includes lowercaseText key = true.
Proof.
  induction entries as [|[key l] entries IH]; simpl; [discriminate|].
  destruct (includes lowercaseText key) eqn:E.
  - intros [= <-]. exists key. auto.
  - intros H. destruct (IH H) as (key' & I & E'). exists key'. auto.
Qed.

Lemma detectPredefinedLocation_valid text location :
  Geocoding.detectPredefinedLocation text = Some location ->
  valid_location location = true.
Proof.
  intros H. apply first_match_In in H. destruct H as (key & I & _).
  pose proof locationData_valid as V. rewrite forallb_forall in V.
  apply (V (key, location) I).
Qed.

(** ** [geocodeLocation] *)

Lemma validate_valid responseData location :
  Geocoding.validate responseData = Some location -> valid_location location = true.
Proof.
  unfold Geocoding.validate, valid_location.
  destruct responseData as [|e s [l|]]; try discriminate.
  destruct (Geocoding.loc_coordinates l) as [[|lon [|lat [|? ?]]]|]; try discriminate.
  destruct (validateCoordinates lon lat) eqn:V; simpl; [|discriminate].
  intros [= <-]. exact V.
Qed.

Lemma geocodeLocation_body_hit locationName delay again location
  (w : world Geocoding.geocode_json) :
  Geocoding.detectPredefinedLocation locationName = Some location ->
  Geocoding.geocodeLocation_body locationName delay again w = (Return (Some location), w).
Proof.
  intros H. unfold Geocoding.geocodeLocation_body. rewrite H. reflexivity.
Qed.

(** Outside the gazetteer, one attempt of [geocodeLocation] either ends,
    with a valid location, with [null] or with a rate-limiting error, or,
    retries being left, sleeps for [delay] and starts again. *)
Lemma geocodeLocation_body_step locationName delay again
  (w : world Geocoding.geocode_json) :
  Geocoding.detectPredefinedLocation locationName = None ->
  let w1 := after (attempt Geocoding.MIN_REQUEST_INTERVAL "/api/geocode"
                     (QueryBody locationName)) w in
  (exists o,
     Geocoding.geocodeLocation_body locationName delay again w = (o, w1) /\
     (forall location, o = Return (Some location) -> valid_location location = true) /\
     (forall e, o = Throw e -> is_rate_limit_message e = true)) \/
  (exists k, again = Some k /\
     Geocoding.geocodeLocation_body locationName delay again w =
     k (after (sleep Backoff delay) w1)).
Proof.
  intros Miss w1. unfold Geocoding.geocodeLocation_body. rewrite Miss.
  rewrite !bind_try_attempt. fold w1. run.
  repeat (branch; run);
    first [ right; eexists; split; reflexivity
          | left; eexists; split; [reflexivity|]; split;
            [ intros location E; inversion E; subst;
              eauto using validate_valid, eq_sym
            | intros e' E; inversion E; subst;
              first [assumption | reflexivity] ] ].
Qed.

Lemma geocodeLocation_unfold locationName retries delay :
  Geocoding.geocodeLocation locationName retries delay =
  Geocoding.geocodeLocation_body locationName delay
    match retries with
    | O => None
    | S retries' => Some (Geocoding.geocodeLocation locationName retries' (delay * 2))
    end.
Proof. destruct retries; reflexivity. Qed.

(** A name of the gazetteer is answered at once: no wait, no request. *)
Lemma geocodeLocation_hit locationName retries delay location
  (w : world Geocoding.geocode_json) :
  Geocoding.detectPredefinedLocation locationName = Some location ->
  Geocoding.geocodeLocation locationName retries delay w = (Return (Some location), w).
Proof.
  intros H. rewrite geocodeLocation_unfold. apply geocodeLocation_body_hit, H.
Qed.

Lemma geocodeLocation_step locationName retries delay (w : world Geocoding.geocode_json) :
  Geocoding.detectPredefinedLocation locationName = None ->
  let w1 := after (attempt Geocoding.MIN_REQUEST_INTERVAL "/api/geocode"
                     (QueryBody locationName)) w in
  after (Geocoding.geocodeLocation locationName retries delay) w = w1 \/
  exists retries', retries = S retries' /\
    Geocoding.geocodeLocation locationName retries delay w =
    Geocoding.geocodeLocation locationName retries' (delay * 2)
      (after (sleep Backoff delay) w1).
Proof.
  intros Miss w1. rewrite geocodeLocation_unfold.
  destruct (geocodeLocation_body_step locationName delay
              match retries with
              | O => None
              | S retries' =>
                  Some (Geocoding.geocodeLocation locationName retries' (delay * 2))
              end w Miss) as [(o & E & _) | (k & K & E)].
  - left. unfold after at 1. rewrite E. reflexivity.
  - right. destruct retries as [|retries']; [discriminate|].
    injection K as <-. eauto.
Qed.

(** However a call of [geocodeLocation] ends, a location it returns has
    valid coordinates and an error it throws is a rate-limiting error. *)
Lemma geocodeLocation_outcome locationName retries :
  forall delay (w : world Geocoding.geocode_json) o w',
    Geocoding.geocodeLocation locationName retries delay w = (o, w') ->
    (forall location, o = Return (Some location) -> valid_location location = true) /\
    (forall e, o = Throw e -> is_rate_limit_message e = true).
Proof.
  destruct (Geocoding.detectPredefinedLocation locationName) as [l|] eqn:Hit.
  - intros delay w o w' E. erewrite geocodeLocation_hit in E by exact Hit.
    injection E as <- <-. split.
    + intros location [= <-]. eapply detectPredefinedLocation_valid, Hit.
    + discriminate.
  - induction retries as [|retries IH]; intros delay w o w';
      rewrite geocodeLocation_unfold; intros E.
    + destruct (geocodeLocation_body_step locationName delay None w Hit)
        as [(o1 & E1 & P) | (k & K & _)]; [|discriminate].
      rewrite E1 in E. injection E as <- <-. exact P.
    + destruct (geocodeLocation_body_step locationName delay
                  (Some (Geocoding.geocodeLocation locationName retries (delay * 2)))
                  w Hit)
        as [(o1 & E1 & P) | (k & K & E1)].
      * rewrite E1 in E. injection E as <- <-. exact P.
      * injection K as <-. rewrite E1 in E. eapply IH, E.
Qed.

Lemma geocodeLocation_orderly locationName retries delay (w : world Geocoding.geocode_json) :
  orderly Geocoding.MIN_REQUEST_INTERVAL w
    (after (Geocoding.geocodeLocation locationName retries delay) w).
Proof.
  destruct (Geocoding.detectPredefinedLocation locationName) as [l|] eqn:Hit.
  - unfold after. erewrite geocodeLocation_hit by exact Hit. apply orderly_refl.
  - apply (@loop_orderly _ _ Geocoding.MIN_REQUEST_INTERVAL "/api/geocode"
             (QueryBody locationName) (fun d => d * 2)
             (Geocoding.geocodeLocation locationName)).
    intros r d w0. apply geocodeLocation_step, Hit.
Qed.

(** An [ok] response whose location has coordinates out of range makes
    [geocodeLocation] return [null] at once. *)
Lemma geocodeLocation_out_of_range locationName retries delay
  (w : world Geocoding.geocode_json) r e s l lon lat :
  Geocoding.detectPredefinedLocation locationName = None ->
  fetched (upstream w) = Return r ->
  ok r = true ->
  Geocoding.read_body r = Return (Geocoding.GValue e s (Some l)) ->
  Geocoding.loc_coordinates l = Some [lon; lat] ->
  validateCoordinates lon lat = false ->
  Geocoding.geocodeLocation locationName retries delay w =
  (Return None,
   after (attempt Geocoding.MIN_REQUEST_INTERVAL "/api/geocode" (QueryBody locationName)) w).
Proof.
  intros Miss F Ok Body Coord Bad.
  assert (N429 : (status r =? 429) = false).
  { unfold ok in Ok. apply andb_true_iff in Ok. destruct Ok as [_ Ok].
    apply Z.leb_le in Ok. apply Z.eqb_neq. lia. }
  rewrite geocodeLocation_unfold. unfold Geocoding.geocodeLocation_body.
  rewrite Miss, bind_try_attempt, F. run.
  rewrite N429, Ok, Body. run.
  unfold Geocoding.validate. rewrite Coord, Bad. reflexivity.
Qed.

(** A response with a status from 400 to 499 other than 429, whose error
    message does not read as a rate-limiting one, is retried when retries
    are left, and gives [null] when none is. *)
Lemma geocodeLocation_4xx locationName retries delay (w : world Geocoding.geocode_json) r :
  Geocoding.detectPredefinedLocation locationName = None ->
  fetched (upstream w) = Return r ->
  400 <= status r <= 499 -> status r <> 429 ->
  is_rate_limit_message (Geocoding.error_message_of r) = false ->
  let w1 := after (attempt Geocoding.MIN_REQUEST_INTERVAL "/api/geocode"
                     (QueryBody locationName)) w in
  Geocoding.geocodeLocation locationName retries delay w =
  match retries with
  | O => (Return None, w1)
  | S retries' =>
      Geocoding.geocodeLocation locationName retries' (delay * 2)
        (after (sleep Backoff delay) w1)
  end.
Proof.
  intros Miss F R N M w1.
  assert (N429 : (status r =? 429) = false) by (apply Z.eqb_neq; exact N).
  assert (NOk : ok r = false).
  { unfold ok. apply andb_false_iff. right. apply Z.leb_gt. lia. }
  assert (N5 : (500 <=? status r) = false) by (apply Z.leb_gt; lia).
  rewrite geocodeLocation_unfold. unfold Geocoding.geocodeLocation_body.
  rewrite Miss, bind_try_attempt, F. fold w1. run.
  rewrite N429, NOk, N5. simpl.
  destruct retries as [|retries']; run; rewrite M; reflexivity.
Qed.

(** ** The location-resolution pipeline *)

Section PipelineFacts.

Variable J : Type.
Variable extractLocationNames : string -> list string.
Variable geocode : string -> M J (option Location).

Let try_candidates := Geocoding.try_candidates geocode.
Let detect := Geocoding.detectAndGeocodeLocation_with extractLocationNames geocode.
Let passes := Geocoding.passes geocode.

(** The loop stops at a candidate that gives a location. *)
Lemma try_candidates_found locationName rest w location w' :
  geocode locationName w = (Return (Some location), w') ->
  try_candidates (locationName :: rest) w = (Return (Some location), w').
Proof.
  intros E. unfold try_candidates. simpl. unfold bind, try_catch. rewrite E. reflexivity.
Qed.

(** The loop stops at a candidate that fails with a rate-limiting error. *)
Lemma try_candidates_rate_limited locationName rest w e w' :
  geocode locationName w = (Throw e, w') ->
  is_rate_limit_message e = true ->
  try_candidates (locationName :: rest) w = (Throw e, w').
Proof.
  intros E R. unfold try_candidates. simpl. unfold bind, try_catch.
  rewrite E, R. reflexivity.
Qed.

(** The loop goes on after a candidate that is passed over. *)
Lemma try_candidates_passed_over locationName rest w o w' :
  geocode locationName w = (o, w') ->
  Geocoding.passed_over o ->
  try_candidates (locationName :: rest) w = try_candidates rest w'.
Proof.
  intros E [-> | (e & -> & R)]; unfold try_candidates; simpl;
    unfold bind, try_catch; rewrite E; [|rewrite R]; reflexivity.
Qed.

Lemma try_candidates_passes names : forall rest w w1,
  passes names w w1 ->
  try_candidates (names ++ rest) w = try_candidates rest w1.
Proof.
  induction names as [|n names IH]; intros rest w w1 P.
  - simpl in P. subst w1. reflexivity.
  - destruct P as (o & w0 & E & Soft & P). rewrite <- app_comm_cons.
    erewrite try_candidates_passed_over by eassumption. apply IH, P.
Qed.

Lemma try_candidates_all_passed names w w1 :
  passes names w w1 -> try_candidates names w = (Return None, w1).
Proof.
  intros P. rewrite <- (app_nil_r names).
  erewrite try_candidates_passes by exact P. reflexivity.
Qed.

(** A text of the gazetteer is resolved before anything else is tried:
    the world is left as it was. *)
Lemma detect_predefined text location w :
  Geocoding.detectPredefinedLocation text = Some location ->
  detect text w = (Return (Some location), w).
Proof.
  intros H. unfold detect, Geocoding.detectAndGeocodeLocation_with, try_catch.
  rewrite H. reflexivity.
Qed.

(** A rate-limiting error at a candidate ends the pipeline there, with
    that error: the candidates after it and the whole text are not tried. *)
Lemma detect_candidate_rate_limited text before locationName rest w w1 e w2 :
  Geocoding.detectPredefinedLocation text = None ->
  extractLocationNames text = before ++ locationName :: rest ->
  passes before w w1 ->
  geocode locationName w1 = (Throw e, w2) ->
  is_rate_limit_message e = true ->
  detect text w = (Throw e, w2).
Proof.
  intros Miss Names P E R.
  unfold detect, Geocoding.detectAndGeocodeLocation_with, try_catch, bind.
  rewrite Miss, Names. fold try_candidates.
  erewrite try_candidates_passes by exact P.
  erewrite try_candidates_rate_limited by eassumption. rewrite R.
  reflexivity.
Qed.

(** A candidate that gives a location ends the pipeline with it. *)
Lemma detect_candidate_found text before locationName rest w w1 location w2 :
  Geocoding.detectPredefinedLocation text = None ->
  extractLocationNames text = before ++ locationName :: rest ->
  passes before w w1 ->
  geocode locationName w1 = (Return (Some location), w2) ->
  detect text w = (Return (Some location), w2).
Proof.
  intros Miss Names P E.
  unfold detect, Geocoding.detectAndGeocodeLocation_with, try_catch, bind.
  rewrite Miss, Names. fold try_candidates.
  erewrite try_candidates_passes by exact P.
  erewrite try_candidates_found by exact E.
  reflexivity.
Qed.

(** When every candidate is passed over, the whole text is tried: a
    rate-limiting error of that call is thrown on, any other error gives
    [null], and a result is returned as it is. *)
Lemma detect_whole_text text w w1 o w2 :
  Geocoding.detectPredefinedLocation text = None ->
  passes (extractLocationNames text) w w1 ->
  geocode text w1 = (o, w2) ->
  detect text w =
  (match o with
   | Return found => Return found
   | Throw e => if is_rate_limit_message e then Throw e else Return None
   end, w2).
Proof.
  intros Miss P E.
  unfold detect, Geocoding.detectAndGeocodeLocation_with, try_catch, bind.
  rewrite Miss. fold try_candidates.
  erewrite try_candidates_all_passed by exact P. unfold ret, throw. rewrite E.
  destruct o as [found|e]; [reflexivity|].
  destruct (is_rate_limit_message e) eqn:R; [rewrite R|]; reflexivity.
Qed.

End PipelineFacts.

(** ** Substrings, ignoring case *)

Lemma prefix_app key rest : String.prefix key (key ++ rest)%string = true.
Proof.
  induction key as [|c key IH]; simpl; [destruct rest; reflexivity|].
  destruct (ascii_dec c c); [exact IH | congruence].
Qed.

Lemma includes_prefix s sub : String.prefix sub s = true -> includes s sub = true.
Proof. intros H. destruct s; cbn [includes]; rewrite H; reflexivity. Qed.

Lemma includes_app_r before s sub :
  includes s sub = true -> includes (before ++ s)%string sub = true.
Proof.
  intros H. induction before as [|c before IH]; [exact H|].
  change (String c before ++ s)%string with (String c (before ++ s)%string).
  cbn [includes]. rewrite IH. apply orb_true_r.
Qed.

Lemma toLowerCase_app a b :
  Geocoding.toLowerCase (a ++ b)%string =
  (Geocoding.toLowerCase a ++ Geocoding.toLowerCase b)%string.
Proof.
  induction a as [|c a IH]; simpl; [reflexivity|]. rewrite IH. reflexivity.
Qed.

(** The test of [detectPredefinedLocation] holds of every text that has a
    part reading as the key when case is ignored. *)
Lemma includes_ignoring_case text key :
  Geocoding.contains_ignoring_case text key ->
  includes (Geocoding.toLowerCase text) key = true.
Proof.
  intros (before & part & after_ & -> & <-).
  rewrite !toLowerCase_app.
  apply includes_app_r, includes_prefix, prefix_app.
Qed.

(** The loop of [detectPredefinedLocation] returns the first entry whose
    key the text includes. *)
Lemma first_match_first lowercaseText entries key location :
  In (key, location) entries ->
  includes lowercaseText key = true ->
  exists before key' location' rest,
    entries = before ++ (key', location') :: rest /\
    forallb (fun entry => negb (includes lowercaseText (fst entry))) before = true /\
    includes lowercaseText key' = true /\
    Geocoding.first_match lowercaseText entries = Some location'.
Proof.
  induction entries as [|[k l] entries IH]; intros I E; [destruct I|].
  simpl. destruct (includes lowercaseText k) eqn:Ek.
  - exists [], k, l, entries. auto.
  - destruct I as [[= -> ->] | I]; [congruence|].
    destruct (IH I E) as (before & key' & location' & rest & -> & B & E' & F).
    exists ((k, l) :: before), key', location', rest.
    simpl. rewrite Ek. auto.
Qed.

(** ** The geocode route *)

Section GeocodeRouteFacts.

Variable encodeURIComponent : string -> string.
Variable ToString : number -> string.

Let POST := GeocodeRoute.POST encodeURIComponent ToString.

Lemma location_of_coordinates query lon lat entityType address :
  coordinates (GeocodeRoute.location_of query lon lat entityType address) = (lon, lat).
Proof. reflexivity. Qed.

(** A location in an answer of the route has valid coordinates, and comes
    with status 200. *)
Lemma answer_location query data (w : world GeocodeRoute.azure_json) resp w' l :
  GeocodeRoute.answer ToString query data w = (Return resp, w') ->
  GeocodeRoute.http_body resp = GeocodeRoute.location (Some l) ->
  GeocodeRoute.http_status resp = 200 /\ valid_location l = true.
Proof.
  unfold GeocodeRoute.answer.
  destruct data as [|s [|[|[[[lon|] [lat|]]|] entityType address] results]];
    run; try discriminate; try (intros [= <- <-]; discriminate).
  destruct (validateCoordinates lon lat) eqn:V; simpl; intros [= <- <-]; simpl;
    [|discriminate].
  intros [= <-]. split; [reflexivity|].
  unfold valid_location. rewrite location_of_coordinates. exact V.
Qed.

(** The route always answers. *)
Lemma GeocodeRoute_POST_returns apiKey req (w : world GeocodeRoute.azure_json) :
  exists resp w', POST apiKey req w = (Return resp, w').
Proof.
  unfold POST, GeocodeRoute.POST, try_catch.
  match goal with
  | |- context [match ?m w with _ => _ end] => destruct (m w) as [[resp|e] w']
  end; unfold ret; eauto.
Qed.

Lemma GeocodeRoute_POST_location apiKey req (w : world GeocodeRoute.azure_json) resp w' l :
  POST apiKey req w = (Return resp, w') ->
  GeocodeRoute.http_body resp = GeocodeRoute.location (Some l) ->
  GeocodeRoute.http_status resp = 200 /\ valid_location l = true.
Proof.
  unfold POST, GeocodeRoute.POST, try_catch.
  destruct req as [|[|c query]]; run; try (intros [= <- <-]; discriminate).
  destruct (unset apiKey); run; try (intros [= <- <-]; discriminate).
  destruct (throttle GeocodeRoute.MIN_REQUEST_INTERVAL w) as [[[]|e] w0];
    try (intros [= <- <-]; discriminate).
  unfold settle.
  match goal with
  | |- context [GeocodeRoute.makeRequestWithRetry ?u ?n w0] =>
      destruct (GeocodeRoute.makeRequestWithRetry u n w0) as [[data|e] w1]
  end.
  - destruct (GeocodeRoute.answer ToString (String c query) data w1) as [[resp1|e] w2] eqn:A;
      intros [= <- <-]; [|discriminate].
    eapply answer_location, A.
  - destruct (is_rate_limit_message e); intros [= <- <-]; discriminate.
Qed.

(** A first result with coordinates out of range is answered with status
    400 and an error, not with a location. *)
Lemma answer_out_of_range query s lon lat entityType address results
  (w : world GeocodeRoute.azure_json) :
  validateCoordinates lon lat = false ->
  GeocodeRoute.answer ToString query
    (GeocodeRoute.AValue s
       (GeocodeRoute.Result (Some (Some lon, Some lat)) entityType address :: results)) w =
  (Return (GeocodeRoute.NextResponse_json
             (GeocodeRoute.error
                ("Invalid coordinates: " ++ ToString lon ++ ", " ++ ToString lat)%string)
             400), w).
Proof.
  intros V. unfold GeocodeRoute.answer. rewrite V. reflexivity.
Qed.

End GeocodeRouteFacts.

(** ** The static-map route *)

Section StaticMapFacts.

Variable parseFloat : string -> number.
Variable parseInt : string -> number.
Variable ToString : number -> string.

Hypothesis parseFloat_0 : parseFloat "0" = integer 0.
Hypothesis parseInt_10 : parseInt "10" = integer 10.

Let GET := StaticMap.GET parseFloat parseInt ToString.

(** Leaving a parameter out is the same as giving it its default. *)
Lemma GET_defaults apiKey req :
  GET apiKey req =
  GET apiKey
    {| StaticMap.longitude := Some (StaticMap.param_or (StaticMap.longitude req) "0");
       StaticMap.latitude := Some (StaticMap.param_or (StaticMap.latitude req) "0");
       StaticMap.zoom_level := Some (StaticMap.param_or (StaticMap.zoom_level req) "10") |}.
Proof.
  unfold GET, StaticMap.GET.
  cbn [StaticMap.longitude StaticMap.latitude StaticMap.zoom_level].
  assert (I : forall p d,
                StaticMap.param_or (Some (StaticMap.param_or p d)) d = StaticMap.param_or p d).
  { intros [[|c s]|] d; simpl; try reflexivity; destruct d; reflexivity. }
  rewrite !I. reflexivity.
Qed.

(** A request without parameters passes both validations: with the key
    set it gets the map centred on (0, 0) at zoom 10. *)
Lemma GET_no_parameters_configured key :
  key <> EmptyString ->
  GET (Some key) StaticMap.no_parameters =
  StaticMap.NextResponse_json
    (StaticMap.url (StaticMap.mapUrl ToString (integer 10) (integer 0) (integer 0) key))
    200.
Proof.
  intros K. unfold GET, StaticMap.GET. simpl.
  rewrite parseFloat_0, parseInt_10. simpl.
  destruct key; [congruence | reflexivity].
Qed.

(** Without the key it is answered with status 500. *)
Lemma GET_no_parameters_unconfigured apiKey :
  unset apiKey = true ->
  GET apiKey StaticMap.no_parameters =
  StaticMap.NextResponse_json (StaticMap.error "Map service configuration error") 500.
Proof.
  intros U. unfold GET, StaticMap.GET. simpl.
  rewrite parseFloat_0, parseInt_10. simpl.
  destruct apiKey as [[|c k]|]; [reflexivity | discriminate | reflexivity].
Qed.

End StaticMapFacts.

(** ** The page: rate-limit flags *)

Lemma after_geocoding_chat o now s :
  Page.isChatRateLimited (Page.after_geocoding o now s) = Page.isChatRateLimited s /\
  Page.chatRateLimitTimerRef (Page.after_geocoding o now s) = Page.chatRateLimitTimerRef s /\
  Page.consecutiveErrorsRef (Page.after_geocoding o now s) = Page.consecutiveErrorsRef s.
Proof.
  unfold Page.after_geocoding.
  destruct o as [[l|]|e]; [| |destruct (is_rate_limit_message e)]; repeat split.
Qed.

Lemma signals_nonempty reply :
  Page.signals_rate_limit reply = true -> reply <> EmptyString.
Proof. intros H ->. discriminate. Qed.

(** A turn taken while the chat flag is down and answered by a reply that
    reads as a rate-limiting notice adds one to the counter, and raises
    the flag, with a timer of 60 seconds, exactly when the counter has
    reached 2. *)
Lemma chat_signal t s :
  Page.blank (Page.input t) = false ->
  Page.isChatRateLimited s = false ->
  Page.signals_rate_limit (Page.chat_reply t) = true ->
  let s' := fst (Page.handleSendMessage t s) in
  Page.consecutiveErrorsRef s' = Page.consecutiveErrorsRef s + 1 /\
  Page.isChatRateLimited s' = (2 <=? Page.consecutiveErrorsRef s + 1) /\
  Page.chatRateLimitTimerRef s' =
    if 2 <=? Page.consecutiveErrorsRef s + 1
    then Some (Page.chat_reply_time t + Page.COOLDOWN)
    else Page.chatRateLimitTimerRef s.
Proof.
  intros B C S. pose proof (@signals_nonempty _ S) as N.
  unfold Page.handleSendMessage. rewrite B, C, S.
  destruct (Page.chat_reply t) as [|c reply]; [congruence|].
  destruct (Page.isMapRateLimited s); simpl;
    destruct (Page.geocode_of_input t) as [[l|]|e]; simpl;
    try destruct (is_rate_limit_message e); simpl;
    destruct (2 <=? Page.consecutiveErrorsRef s + 1) eqn:T; simpl;
    try rewrite T; simpl;
    try (destruct (Page.geocode_of_reply t) as [[l'|]|e']; simpl;
         try destruct (is_rate_limit_message e'); simpl);
    rewrite ?C; auto.
Qed.

(** A reply that does not read as a rate-limiting notice resets the
    counter to 0 and leaves the flag down. *)
Lemma chat_success t s :
  Page.blank (Page.input t) = false ->
  Page.isChatRateLimited s = false ->
  Page.signals_rate_limit (Page.chat_reply t) = false ->
  let s' := fst (Page.handleSendMessage t s) in
  Page.consecutiveErrorsRef s' = 0 /\ Page.isChatRateLimited s' = false.
Proof.
  intros B C S.
  unfold Page.handleSendMessage. rewrite B, C, S.
  destruct (Page.chat_reply t) as [|c reply];
    destruct (Page.isMapRateLimited s); simpl;
    destruct (Page.geocode_of_input t) as [[l|]|e]; simpl;
    try destruct (is_rate_limit_message e); simpl;
    try (destruct (Page.geocode_of_reply t) as [[l'|]|e']; simpl;
         try destruct (is_rate_limit_message e'); simpl);
    rewrite ?C; auto.
Qed.

(** A turn taken while the chat flag is up calls the chat service not at
    all, and leaves the flag, its timer and the counter as they are. *)
Lemma chat_suppressed t s :
  Page.isChatRateLimited s = true ->
  let s' := fst (Page.handleSendMessage t s) in
  (forall history, ~ In (Page.ChatCall history) (snd (Page.handleSendMessage t s))) /\
  Page.isChatRateLimited s' = true /\
  Page.chatRateLimitTimerRef s' = Page.chatRateLimitTimerRef s /\
  Page.consecutiveErrorsRef s' = Page.consecutiveErrorsRef s.
Proof.
  intros C. unfold Page.handleSendMessage. rewrite C.
  destruct (Page.blank (Page.input t)); simpl; [intuition|].
  destruct (Page.isMapRateLimited s); simpl.
  - intuition.
  - destruct (after_geocoding_chat (Page.geocode_of_input t) (Page.geocode_of_input_time t)
                (Page.setMessages
                   (fun prev => prev ++ [{| role := user; content := Page.input t |}])
                   (Page.setError None s))) as (F & T & N).
    simpl in *. rewrite F, T, N. simpl. repeat split; auto.
    intros history [H | []]. discriminate.
Qed.

(** A turn taken while the map flag is up calls the geocoder not at all. *)
Lemma map_suppressed t s :
  Page.isMapRateLimited s = true ->
  forall text, ~ In (Page.GeocodeCall text) (snd (Page.handleSendMessage t s)).
Proof.
  intros G text. unfold Page.handleSendMessage. rewrite G.
  destruct (Page.blank (Page.input t)); simpl; [auto|].
  destruct (Page.isChatRateLimited s); simpl; [auto|].
  destruct (Page.chat_reply t); simpl; intros [H | []]; discriminate.
Qed.

(** A single rate-limiting error of the geocoding of the input raises the
    map flag: no counter stands in between. *)
Lemma map_single_signal t s e :
  Page.blank (Page.input t) = false ->
  Page.isMapRateLimited s = false ->
  Page.geocode_of_input t = Throw e ->
  is_rate_limit_message e = true ->
  let s' := fst (Page.handleSendMessage t s) in
  Page.isMapRateLimited s' = true /\
  exists now, Page.rateLimitTimerRef s' = Some (now + Page.COOLDOWN) /\
    (now = Page.geocode_of_input_time t \/ now = Page.geocode_of_reply_time t).
Proof.
  intros B G E R.
  unfold Page.handleSendMessage. rewrite B, G, E. simpl. rewrite R. simpl.
  destruct (Page.isChatRateLimited s); simpl; [eauto|].
  destruct (Page.signals_rate_limit (Page.chat_reply t)); simpl;
    try destruct (2 <=? Page.consecutiveErrorsRef s + 1); simpl;
    destruct (Page.chat_reply t) as [|c reply]; simpl; eauto;
    destruct (Page.geocode_of_reply t) as [[l'|]|e']; simpl; eauto;
    destruct (is_rate_limit_message e'); simpl; eauto.
Qed.

(** The timers: a raised flag stays up until its timer fires, and comes
    down when it does. *)
Lemma tick_chat now s deadline :
  Page.isChatRateLimited s = true ->
  Page.chatRateLimitTimerRef s = Some deadline ->
  Page.isChatRateLimited (Page.tick now s) = (now <? deadline).
Proof.
  intros F T. unfold Page.tick. simpl. rewrite T, F.
  destruct (deadline <=? now) eqn:D; symmetry.
  - apply Z.ltb_ge, Z.leb_le, D.
  - apply Z.ltb_lt, Z.leb_gt, D.
Qed.

Lemma tick_map now s deadline :
  Page.isMapRateLimited s = true ->
  Page.rateLimitTimerRef s = Some deadline ->
  Page.isMapRateLimited (Page.tick now s) = (now <? deadline).
Proof.
  intros F T. unfold Page.tick. simpl. rewrite T, F.
  destruct (deadline <=? now) eqn:D; symmetry.
  - apply Z.ltb_ge, Z.leb_le, D.
  - apply Z.ltb_lt, Z.leb_gt, D.
Qed.

(** ** The history sent upstream *)

Lemma slice_last_length A n (l : list A) : (List.length (ChatRoute.slice_last n l) <= n)%nat.
Proof. unfold ChatRoute.slice_last. rewrite length_skipn. lia. Qed.

Lemma slice_last_suffix A n (l : list A) :
  l = firstn (List.length l - n) l ++ ChatRoute.slice_last n l.
Proof. unfold ChatRoute.slice_last. symmetry. apply firstn_skipn. Qed.

Lemma slice_last_short A n (l : list A) :
  (List.length l <= n)%nat -> ChatRoute.slice_last n l = l.
Proof.
  intros H. unfold ChatRoute.slice_last.
  replace (List.length l - n)%nat with 0%nat by lia. reflexivity.
Qed.

(** ** Calls in sequence *)

Lemma in_sequence_orderly J A gap (calls : list (N * M J A)) :
  Forall (fun call => forall w, orderly gap w (after (snd call) w)) calls ->
  forall w, orderly gap w (after (in_sequence calls) w).
Proof.
  induction 1 as [|[pause call] calls H _ IH]; intros w.
  - apply orderly_refl.
  - unfold after. cbn [in_sequence]. unfold bind, idle, settle.
    specialize (H {| clock := clock w + Z.of_N pause;
                     lastRequestTime := lastRequestTime w;
                     upstream := upstream w; lag := lag w;
                     trace := trace w ++ [Idle (Z.of_N pause)] |}).
    unfold after in H. simpl in H.
    destruct (call _) as [o w1]. simpl in H.
    eapply orderly_trans; [|eapply orderly_trans; [exact H | apply IH]].
    exists [Idle (Z.of_N pause)]. simpl. auto.
Qed.

Lemma spaced_nth gap ts : forall prev i a b,
  spaced gap prev ts ->
  nth_error ts i = Some a -> nth_error ts (S i) = Some b -> a + gap <= b.
Proof.
  induction ts as [|t ts IH]; intros prev i a b S A B; [destruct i; discriminate|].
  destruct S as [_ S]. destruct i as [|i].
  - injection A as <-. destruct ts as [|u ts]; [discriminate|].
    injection B as <-. apply S.
  - eapply IH; eauto.
Qed.

(* ################################################################# *)
(** * The claims *)

(** ** C1 *)

(** One attempt of [fetchWithRetry] ends with the response the request
    got or with an error, or, retries being left, sleeps and starts again. *)
Lemma fetchWithRetry_body_outcome url options delay again
  (w : world ChatRoute.completion_json) :
  let w1 := after (attempt ChatRoute.MIN_OPENAI_REQUEST_INTERVAL url options) w in
  (exists o,
     ChatRoute.fetchWithRetry_body url options delay again w = (o, w1) /\
     forall r, o = Return r -> fetched (upstream w) = Return r) \/
  (exists k, again = Some k /\
     ChatRoute.fetchWithRetry_body url options delay again w =
     k (after (sleep Backoff delay) w1)).
Proof.
  intros w1. unfold ChatRoute.fetchWithRetry_body.
  rewrite !bind_try_attempt. fold w1. run.
  repeat (branch; run);
    first [ right; eexists; split; reflexivity
          | left; eexists; split; [reflexivity|];
            intros r0 E; inversion E; subst; reflexivity ].
Qed.

(** A response that [fetchWithRetry] returns is one the upstream gave. *)
Lemma fetchWithRetry_returns_In url options retries :
  forall delay (w : world ChatRoute.completion_json) r w',
    ChatRoute.fetchWithRetry url options retries delay w = (Return r, w') ->
    In (Responds r) (upstream w).
Proof.
  induction retries as [|retries IH]; intros delay w r w'; rewrite fetchWithRetry_unfold.
  - destruct (fetchWithRetry_body_outcome url options delay None w)
      as [(o & E & P) | (k & K & _)]; [|discriminate].
    rewrite E. intros [= -> _]. apply fetched_In, P. reflexivity.
  - destruct (fetchWithRetry_body_outcome url options delay
                (Some (ChatRoute.fetchWithRetry url options retries
                         (Z.min (delay * 2) ChatRoute.MAX_RETRY_DELAY))) w)
      as [(o & E & P) | (k & K & E)].
    + rewrite E. intros [= -> _]. apply fetched_In, P. reflexivity.
    + injection K as <-. rewrite E. intros H. apply IH in H.
      destruct (attempt_spec ChatRoute.MIN_OPENAI_REQUEST_INTERVAL url options w)
        as (evs & t & U & _).
      apply In_tl. rewrite <- U. exact H.
Qed.

(** The answer built from an upstream response is a fixed reply or the
    content that the response carried. *)
Lemma answer_error_notice r :
  exists text,
    ChatRoute.answer_error r = ChatRoute.NextResponse_json (ChatRoute.reply text) 200 /\
    route_notice text.
Proof.
  unfold ChatRoute.answer_error, route_notice.
  destruct (json r); [destruct (status r =? 429)|]; eexists; split; try reflexivity; tauto.
Qed.

Lemma answer_success_served r (w : world ChatRoute.completion_json) :
  ok r = true ->
  match ChatRoute.answer_success r w with
  | (Return resp, w') =>
      w' = w /\
      exists text,
        resp = ChatRoute.NextResponse_json (ChatRoute.reply text) 200 /\
        (route_notice text \/ completes r text)
  | (Throw _, w') => w' = w
  end.
Proof.
  intros Ok. unfold ChatRoute.answer_success, completes, route_notice.
  destruct (json r) as [[|[[|[|[[content|]|]] rest]|]]|e]; run;
    try reflexivity;
    (split; [reflexivity|]); eexists; (split; [reflexivity|]);
    first [ right; split; [exact Ok | eexists; reflexivity] | tauto ].
Qed.

(** The chat route always answers.  A request whose body parses is
    answered, when a variable of the configuration is missing, with status
    500 and the configuration error; every other request is answered with
    status 200 and a reply, one of the fixed replies of the route or the
    content that a response of the completion service carried. *)
Lemma POST_answer env req (w : world ChatRoute.completion_json) :
  exists resp w',
    ChatRoute.POST env req w = (Return resp, w') /\
    match req with
    | ChatRoute.Unparseable _ => served (upstream w) resp
    | ChatRoute.Body _ =>
        if ChatRoute.configured env then served (upstream w) resp
        else resp = ChatRoute.NextResponse_json
                      (ChatRoute.error "Service configuration error") 500
    end.
Proof.
  assert (Failed : forall answers,
            served answers
              (ChatRoute.NextResponse_json (ChatRoute.reply ChatRoute.failed_reply) 200)).
  { intros answers. exists ChatRoute.failed_reply. split; [reflexivity|].
    left. unfold route_notice. tauto. }
  unfold ChatRoute.POST.
  destruct req as [e | [messages|]].
  - run. eexists. eexists. split; [reflexivity | apply Failed].
  - destruct (ChatRoute.configured env); run.
    + match goal with
      | |- context [ChatRoute.fetchWithRetry ?u ?o ?n ?d w] =>
          destruct (ChatRoute.fetchWithRetry u o n d w) as [[r|e] w'] eqn:F
      end.
      * apply fetchWithRetry_returns_In in F.
        destruct (ok r) eqn:Ok; cbn [negb].
        -- pose proof (answer_success_served r w' Ok) as H.
           destruct (ChatRoute.answer_success r w') as [[resp|e] w2].
           ++ destruct H as (-> & text & -> & [N | C]).
              ** eexists. eexists. split; [reflexivity|]. exists text. auto.
              ** eexists. eexists. split; [reflexivity|]. exists text.
                 split; [reflexivity|]. right. exists r. auto.
           ++ eexists. eexists. split; [reflexivity | apply Failed].
        -- destruct (answer_error_notice r) as (text & -> & N).
           eexists. eexists. split; [reflexivity|]. exists text. auto.
      * eexists. eexists. split; [reflexivity | apply Failed].
    + eexists. eexists. split; [reflexivity | reflexivity].
  - destruct (ChatRoute.configured env); run.
    + eexists. eexists. split; [reflexivity | apply Failed].
    + eexists. eexists. split; [reflexivity | reflexivity].
Qed.

(** The configuration error of the route, as [sendMessage] receives it,
    is not retried and ends in the generic failure notice. *)
Lemma sendMessage_configuration_error messages retries delay (w : world Api.chat_json) rest :
  upstream w = Responds configuration_error_response :: rest ->
  Api.sendMessage messages retries delay w =
  (Return Api.failed_reply,
   after (attempt Api.MIN_REQUEST_INTERVAL "/api/chat" (ChatBody messages)) w).
Proof.
  intros U. rewrite sendMessage_unfold. unfold Api.sendMessage_body.
  rewrite bind_try_attempt, U. reflexivity.
Qed.

(** C1, as amended.  For every history, retry budget, delay and upstream
    behaviour, [sendMessage] does not throw: it resolves to a reply, which
    is one of its three fixed replies or the reply carried by a response
    with an [ok] status.  The chat route answers every request.  When its
    three configuration variables are set, and also when the body of the
    request does not parse, it answers with status 200 and a reply, which
    is one of the six fixed replies of the route or the content, a string,
    of the first choice of a response with an [ok] status that the
    completion service gave.  When a variable of the configuration is
    missing, a request whose body parses is answered with status 500 and
    the error "Service configuration error"; [sendMessage], receiving that
    answer, does not retry and resolves to its generic failure notice. *)
Theorem C1_chat_degrades_gracefully messages retries delay (w : world Api.chat_json)
  env req (ws : world ChatRoute.completion_json) :
  (exists reply w',
     Api.sendMessage messages retries delay w = (Return reply, w') /\
     (degraded_reply reply \/
      exists r, In (Responds r) (upstream w) /\ carries r reply)) /\
  (exists resp ws',
     ChatRoute.POST env req ws = (Return resp, ws') /\
     match req with
     | ChatRoute.Unparseable _ => served (upstream ws) resp
     | ChatRoute.Body _ =>
         if ChatRoute.configured env then served (upstream ws) resp
         else resp = ChatRoute.NextResponse_json
                       (ChatRoute.error "Service configuration error") 500
     end) /\
  (forall rest,
     upstream w = Responds configuration_error_response :: rest ->
     Api.sendMessage messages retries delay w =
     (Return Api.failed_reply,
      after (attempt Api.MIN_REQUEST_INTERVAL "/api/chat" (ChatBody messages)) w) /\
     degraded_reply Api.failed_reply).
Proof.
  split; [apply sendMessage_resolves|]. split; [apply POST_answer|].
  intros rest U. split; [eapply sendMessage_configuration_error, U|].
  unfold degraded_reply. tauto.
Qed.

(** Without configuration the route answers [{ messages: [bonjour] }]
    with status 500 and the configuration error, and [sendMessage],
    receiving that answer, resolves to its generic failure notice after
    one request. *)
Lemma C1_chat_degrades_gracefully_witness :
  ChatRoute.configured no_configuration = false /\
  fst (ChatRoute.POST no_configuration (ChatRoute.Body (Some [bonjour]))
         (world_at 1000000 [] [])) =
    Return (ChatRoute.NextResponse_json
              (ChatRoute.error "Service configuration error") 500) /\
  Api.sendMessage [bonjour] Api.MAX_RETRIES Api.INITIAL_RETRY_DELAY
    (world_at 1000000 [Responds configuration_error_response] []) =
    (Return Api.failed_reply,
     {| clock := 1000000; lastRequestTime := 1000000; upstream := []; lag := [];
        trace := [Dispatch 1000000 "/api/chat" (ChatBody [bonjour])] |}).
Proof.
  split; [reflexivity|].
  destruct (@C1_chat_degrades_gracefully [bonjour] Api.MAX_RETRIES Api.INITIAL_RETRY_DELAY
              (world_at 1000000 [Responds configuration_error_response] [])
              no_configuration (ChatRoute.Body (Some [bonjour]))
              (world_at 1000000 [] []))
    as (_ & (resp & ws' & E & A) & F).
  split.
  - rewrite E. cbn [fst]. f_equal.
    change (ChatRoute.configured no_configuration) with false in A. exact A.
  - destruct (F [] eq_refl) as [H _]. rewrite H. reflexivity.
Defined.

(** C1 as stated fails: the chat route does not answer every request with
    status 200.  Without configuration, the request [{ messages:
    [bonjour] }] is answered with status 500. *)
Lemma C1_route_answers_500 :
  ~ (forall env req (w : world ChatRoute.completion_json),
       exists resp w',
         ChatRoute.POST env req w = (Return resp, w') /\
         ChatRoute.http_status resp = 200).
Proof.
  intros H.
  destruct (H no_configuration (ChatRoute.Body (Some [bonjour])) (world_at 1000000 [] []))
    as (resp & w' & E & S).
  vm_compute in E. injection E as <- _. discriminate.
Qed.

Example sendMessage_429_429_success :
  Api.sendMessage [bonjour] Api.MAX_RETRIES Api.INITIAL_RETRY_DELAY
    (world_at 1000000 [chat_429; chat_429; chat_200 "Paris est magnifique."] []) =
  (Return "Paris est magnifique.",
   {| clock := 1006000; lastRequestTime := 1006000; upstream := []; lag := [];
      trace := [ Dispatch 1000000 "/api/chat" (ChatBody [bonjour]);
                 Backoff 2000;
                 Dispatch 1002000 "/api/chat" (ChatBody [bonjour]);
                 Backoff 4000;
                 Dispatch 1006000 "/api/chat" (ChatBody [bonjour]) ] |}).
Proof. vm_compute. reflexivity. Qed.

(** ** C2 *)

Lemma doubling_nth_lt n : forall delay k,
  (k < n)%nat -> nth_error (doubling delay n) k = Some (delay * 2 ^ Z.of_nat k).
Proof.
  induction n as [|n IH]; intros delay k H; [lia|].
  destruct k as [|k].
  - change (Some delay = Some (delay * 2 ^ 0)). f_equal. lia.
  - change (nth_error (doubling (delay * 2) n) k = Some (delay * 2 ^ Z.of_nat (S k))).
    rewrite IH by lia.
    rewrite Nat2Z.inj_succ, Z.pow_succ_r by lia. f_equal. lia.
Qed.

(** A 429 with retries left: [sendMessage] sleeps and calls itself. *)
Lemma sendMessage_429 messages retries delay (w : world Api.chat_json) r :
  fetched (upstream w) = Return r ->
  status r = 429 ->
  Api.sendMessage messages (S retries) delay w =
  Api.sendMessage messages retries (delay * 2)
    (after (sleep Backoff delay)
       (after (attempt Api.MIN_REQUEST_INTERVAL "/api/chat" (ChatBody messages)) w)).
Proof.
  intros F S. rewrite sendMessage_unfold. unfold Api.sendMessage_body.
  rewrite bind_try_attempt, F. run. rewrite S. reflexivity.
Qed.

(** Under 429 after 429, [sendMessage] uses all its retries, and its
    delays are [delay], [2 * delay], ... without end. *)
Lemma sendMessage_all_429 messages retries : forall delay (w : world Api.chat_json) rest,
  upstream w = repeat chat_429 (S retries) ++ rest ->
  exists evs,
    trace (after (Api.sendMessage messages retries delay) w) = trace w ++ evs /\
    backoffs evs = doubling delay retries.
Proof.
  induction retries as [|retries IH]; intros delay w rest U.
  - destruct (sendMessage_trace messages 0 delay w) as (n & evs & N & T & R).
    exists evs. split; [exact T|].
    apply retry_trace_backoffs in R. rewrite R.
    replace n with 0%nat by lia. reflexivity.
  - unfold after at 1. erewrite sendMessage_429; [| rewrite U; reflexivity | reflexivity].
    destruct (attempt_spec Api.MIN_REQUEST_INTERVAL "/api/chat" (ChatBody messages) w)
      as (waits & t & U1 & T1 & D1 & B1 & _).
    set (w1 := after (attempt Api.MIN_REQUEST_INTERVAL "/api/chat" (ChatBody messages)) w) in *.
    destruct (IH (delay * 2) (after (sleep Backoff delay) w1) rest) as (evs & T & B).
    { change (upstream (after (sleep Backoff delay) w1)) with (upstream w1).
      rewrite U1, U. reflexivity. }
    exists (waits ++ [Dispatch t "/api/chat" (ChatBody messages)] ++ [Backoff delay] ++ evs).
    split.
    + fold (after (Api.sendMessage messages retries (delay * 2))
              (after (sleep Backoff delay) w1)).
      rewrite T. change (trace (after (sleep Backoff delay) w1))
        with (trace w1 ++ [Backoff delay]).
      rewrite T1, <- !app_assoc. reflexivity.
    + rewrite !backoffs_app, B1, B. reflexivity.
Qed.

(** C2, as amended.  A call of [sendMessage] makes at most [retries + 1]
    requests, one retry delay lying between each request and the next,
    and its [k]-th delay (counting from 0, so the delay between attempts
    [k + 1] and [k + 2]) is [delay * 2 ^ k]: it doubles and is not capped.
    A call of [fetchWithRetry] whose first delay is within
    [MAX_RETRY_DELAY] makes at most [retries + 1] requests as well, and
    its [k]-th delay is [min (delay * 2 ^ k) MAX_RETRY_DELAY]. *)
Theorem C2_retry_attempts_and_delays
  messages retries delay (w : world Api.chat_json)
  url options retries' delay' (w' : world ChatRoute.completion_json) :
  0 <= delay' <= ChatRoute.MAX_RETRY_DELAY ->
  (exists n evs, (n <= retries)%nat /\
     trace (after (Api.sendMessage messages retries delay) w) = trace w ++ evs /\
     retry_trace "/api/chat" (ChatBody messages) (fun d => d * 2) delay n evs /\
     List.length (dispatches evs) = S n /\
     (forall k d, nth_error (backoffs evs) k = Some d -> d = delay * 2 ^ Z.of_nat k)) /\
  (exists n evs, (n <= retries')%nat /\
     trace (after (ChatRoute.fetchWithRetry url options retries' delay') w') =
       trace w' ++ evs /\
     retry_trace url options (fun d => Z.min (d * 2) ChatRoute.MAX_RETRY_DELAY)
       delay' n evs /\
     List.length (dispatches evs) = S n /\
     (forall k d, nth_error (backoffs evs) k = Some d ->
                  d = Z.min (delay' * 2 ^ Z.of_nat k) ChatRoute.MAX_RETRY_DELAY)).
Proof.
  intros B. split.
  - destruct (sendMessage_trace messages retries delay w) as (n & evs & N & T & R).
    exists n, evs. repeat split; auto.
    + eapply retry_trace_dispatches, R.
    + intros k d H. rewrite (retry_trace_backoffs _ _ _ _ _ _ R) in H.
      eapply doubling_nth, H.
  - destruct (fetchWithRetry_trace url options retries' delay' w') as (n & evs & N & T & R).
    exists n, evs. repeat split; auto.
    + eapply retry_trace_dispatches, R.
    + intros k d H. rewrite (retry_trace_backoffs _ _ _ _ _ _ R) in H.
      eapply capped_nth; eauto.
Qed.

Lemma C2_retry_attempts_and_delays_witness :
  0 <= ChatRoute.INITIAL_RETRY_DELAY <= ChatRoute.MAX_RETRY_DELAY /\
  (exists n evs, (n <= Api.MAX_RETRIES)%nat /\
     trace (after (Api.sendMessage [bonjour] Api.MAX_RETRIES Api.INITIAL_RETRY_DELAY)
              (world_at 1000000 [chat_429; chat_429; chat_200 "Paris"] [])) =
       trace (world_at 1000000 [chat_429; chat_429; chat_200 "Paris"] []) ++ evs /\
     retry_trace "/api/chat" (ChatBody [bonjour]) (fun d => d * 2)
       Api.INITIAL_RETRY_DELAY n evs /\
     List.length (dispatches evs) = S n /\
     (forall k d, nth_error (backoffs evs) k = Some d ->
                  d = Api.INITIAL_RETRY_DELAY * 2 ^ Z.of_nat k)) /\
  (exists n evs, (n <= ChatRoute.MAX_RETRIES)%nat /\
     trace (after (ChatRoute.fetchWithRetry "https://example" (ChatBody [bonjour])
                     ChatRoute.MAX_RETRIES ChatRoute.INITIAL_RETRY_DELAY)
              (world_at 1000000 [completion_429; completion_429] [])) =
       trace (world_at 1000000 [completion_429; completion_429] []) ++ evs /\
     retry_trace "https://example" (ChatBody [bonjour])
       (fun d => Z.min (d * 2) ChatRoute.MAX_RETRY_DELAY)
       ChatRoute.INITIAL_RETRY_DELAY n evs /\
     List.length (dispatches evs) = S n /\
     (forall k d, nth_error (backoffs evs) k = Some d ->
                  d = Z.min (ChatRoute.INITIAL_RETRY_DELAY * 2 ^ Z.of_nat k)
                        ChatRoute.MAX_RETRY_DELAY)).
Proof.
  split.
  - unfold ChatRoute.INITIAL_RETRY_DELAY, ChatRoute.MAX_RETRY_DELAY. lia.
  - apply (C2_retry_attempts_and_delays [bonjour] Api.MAX_RETRIES Api.INITIAL_RETRY_DELAY
             (world_at 1000000 [chat_429; chat_429; chat_200 "Paris"] [])
             "https://example" (ChatBody [bonjour])
             ChatRoute.MAX_RETRIES
             (world_at 1000000 [completion_429; completion_429] [])).
    unfold ChatRoute.INITIAL_RETRY_DELAY, ChatRoute.MAX_RETRY_DELAY. lia.
Defined.

(** C2 as stated fails for [sendMessage]: no maximum caps its delays.
    Whatever the maximum, a call that starts from [INITIAL_RETRY_DELAY]
    with enough retries and meets 429 after 429 ends up sleeping longer. *)
Lemma C2_sendMessage_delay_not_capped :
  ~ (exists maxDelay, forall retries (w : world Api.chat_json) evs k d,
       trace (after (Api.sendMessage [bonjour] retries Api.INITIAL_RETRY_DELAY) w) =
         trace w ++ evs ->
       nth_error (backoffs evs) k = Some d ->
       d = Z.min (Api.INITIAL_RETRY_DELAY * 2 ^ Z.of_nat k) maxDelay).
Proof.
  intros (maxDelay & H).
  set (k := Z.to_nat maxDelay).
  set (w := world_at 1000000 (repeat chat_429 (S (S k))) [] : world Api.chat_json).
  destruct (@sendMessage_all_429 [bonjour] (S k) Api.INITIAL_RETRY_DELAY w [])
    as (evs & T & B).
  { rewrite app_nil_r. reflexivity. }
  specialize (H (S k) w evs k (Api.INITIAL_RETRY_DELAY * 2 ^ Z.of_nat k) T).
  rewrite B in H. specialize (H (doubling_nth_lt _ (Nat.lt_succ_diag_r k))).
  assert (L : maxDelay < Api.INITIAL_RETRY_DELAY * 2 ^ Z.of_nat k).
  { unfold Api.INITIAL_RETRY_DELAY, k.
    destruct (Z.le_gt_cases maxDelay 0) as [N | P].
    - assert (0 < 2 ^ Z.of_nat (Z.to_nat maxDelay)) by (apply Z.pow_pos_nonneg; lia). lia.
    - rewrite Z2Nat.id by lia.
      pose proof (Z.pow_gt_lin_r 2 maxDelay). lia. }
  lia.
Qed.

(** ** C3 *)

(** C3, as amended.  For the chat class, in a turn taken while the flag is
    down, a reply that reads as a rate-limiting notice adds one to the
    counter of consecutive signals, and the circuit opens (flag up, timer
    of 60 s) exactly when the counter has reached 2, so not on a first
    signal; any other reply resets the counter to 0.  A turn taken while
    the chat flag is up makes no chat call.  For the geocoding class there
    is no counter: one rate-limiting error of the geocoding of the input
    opens the circuit, with a timer of 60 s, and a turn taken while the
    map flag is up makes no geocoding call.  Either flag stays up until
    60 s after it was raised and comes down then. *)
Theorem C3_cooldown t s :
  Page.blank (Page.input t) = false ->
  let s' := fst (Page.handleSendMessage t s) in
  let calls := snd (Page.handleSendMessage t s) in
  (if Page.isChatRateLimited s then
     (forall history, ~ In (Page.ChatCall history) calls) /\
     Page.isChatRateLimited s' = true /\
     Page.chatRateLimitTimerRef s' = Page.chatRateLimitTimerRef s /\
     Page.consecutiveErrorsRef s' = Page.consecutiveErrorsRef s
   else if Page.signals_rate_limit (Page.chat_reply t) then
     Page.consecutiveErrorsRef s' = Page.consecutiveErrorsRef s + 1 /\
     Page.isChatRateLimited s' = (2 <=? Page.consecutiveErrorsRef s + 1) /\
     Page.chatRateLimitTimerRef s' =
       (if 2 <=? Page.consecutiveErrorsRef s + 1
        then Some (Page.chat_reply_time t + 60000)
        else Page.chatRateLimitTimerRef s)
   else
     Page.consecutiveErrorsRef s' = 0 /\ Page.isChatRateLimited s' = false) /\
  (if Page.isMapRateLimited s then
     forall text, ~ In (Page.GeocodeCall text) calls
   else
     match Page.geocode_of_input t with
     | Throw e =>
         if is_rate_limit_message e then
           Page.isMapRateLimited s' = true /\
           exists now, Page.rateLimitTimerRef s' = Some (now + 60000) /\
             (now = Page.geocode_of_input_time t \/ now = Page.geocode_of_reply_time t)
         else True
     | Return _ => True
     end) /\
  (forall raised now,
     Page.isChatRateLimited (Page.tick now (Page.setChatRateLimitWithCooldown true raised s))
       = (now <? raised + 60000) /\
     Page.isMapRateLimited (Page.tick now (Page.setMapRateLimitWithCooldown true raised s))
       = (now <? raised + 60000)).
Proof.
  intros B s' calls. split; [|split].
  - destruct (Page.isChatRateLimited s) eqn:C.
    + apply chat_suppressed, C.
    + destruct (Page.signals_rate_limit (Page.chat_reply t)) eqn:S.
      * apply (chat_signal t s B C S).
      * apply (chat_success t s B C S).
  - destruct (Page.isMapRateLimited s) eqn:G.
    + apply map_suppressed, G.
    + destruct (Page.geocode_of_input t) as [found|e] eqn:E; [exact I|].
      destruct (is_rate_limit_message e) eqn:R; [|exact I].
      apply (map_single_signal t s B G E R).
  - intros raised now. split.
    + apply tick_chat; reflexivity.
    + apply tick_map; reflexivity.
Qed.

Lemma C3_cooldown_witness :
  Page.blank (Page.input chat_overloaded_turn) = false /\
  (* a first signal: the counter is 1 and the circuit stays closed *)
  Page.consecutiveErrorsRef (fst (Page.handleSendMessage chat_overloaded_turn first_render)) = 1 /\
  Page.isChatRateLimited (fst (Page.handleSendMessage chat_overloaded_turn first_render)) = false.
Proof.
  split; [reflexivity|].
  pose proof (C3_cooldown chat_overloaded_turn first_render eq_refl) as H.
  cbv zeta in H. destruct H as [H _].
  change (Page.isChatRateLimited first_render) with false in H.
  replace (Page.signals_rate_limit (Page.chat_reply chat_overloaded_turn))
    with true in H by (vm_compute; reflexivity).
  destruct H as (H1 & H2 & _). split; [exact H1 | exact H2].
Defined.

(** C3 as stated fails for the geocoding class: on the page as first
    rendered, one rate-limiting error opens the map circuit. *)
Lemma C3_map_opens_on_first_signal :
  Page.isMapRateLimited first_render = false /\
  Page.geocodingErrorsRef first_render = 0 /\
  Page.isMapRateLimited (fst (Page.handleSendMessage geocoder_limited_turn first_render)) = true /\
  Page.rateLimitTimerRef (fst (Page.handleSendMessage geocoder_limited_turn first_render))
    = Some (1006000 + 60000).
Proof. vm_compute. auto. Qed.

Example two_signals_open_the_chat_circuit :
  let once := fst (Page.handleSendMessage chat_overloaded_turn first_render) in
  let twice := fst (Page.handleSendMessage chat_overloaded_turn once) in
  Page.isChatRateLimited once = false /\
  Page.isChatRateLimited twice = true /\
  Page.chatRateLimitTimerRef twice = Some 1067000 /\
  snd (Page.handleSendMessage chat_overloaded_turn twice) = [Page.GeocodeCall "Bonjour"].
Proof. vm_compute. auto. Qed.

(** ** C4 *)

(** Where the wait opens every attempt, requests keep their distance:
    whatever calls of [sendMessage] are made one after the other, each
    request leaves at least 2000 ms after the one before, and the time of
    the last is what the module records. *)
Lemma sendMessage_requests_spaced
  (calls : list (N * (list Message * nat * Z))) (w : world Api.chat_json) :
  orderly Api.MIN_REQUEST_INTERVAL w
    (after (in_sequence
              (map (fun c => (fst c, Api.sendMessage (fst (fst (snd c)))
                                       (snd (fst (snd c))) (snd (snd c)))) calls)) w).
Proof.
  apply in_sequence_orderly. apply Forall_forall. intros c I.
  apply in_map_iff in I. destruct I as (x & <- & _). intros w0.
  apply sendMessage_orderly.
Qed.

Lemma geocodeLocation_requests_spaced
  (calls : list (N * (string * nat * Z))) (w : world Geocoding.geocode_json) :
  orderly Geocoding.MIN_REQUEST_INTERVAL w
    (after (in_sequence
              (map (fun c => (fst c, Geocoding.geocodeLocation (fst (fst (snd c)))
                                       (snd (fst (snd c))) (snd (snd c)))) calls)) w).
Proof.
  apply in_sequence_orderly. apply Forall_forall. intros c I.
  apply in_map_iff in I. destruct I as (x & <- & _). intros w0.
  apply geocodeLocation_orderly.
Qed.

Lemma fetchWithRetry_requests_spaced
  (calls : list (N * (string * payload * nat * Z))) (w : world ChatRoute.completion_json) :
  orderly ChatRoute.MIN_OPENAI_REQUEST_INTERVAL w
    (after (in_sequence
              (map (fun c => (fst c, ChatRoute.fetchWithRetry
                                       (fst (fst (fst (snd c)))) (snd (fst (fst (snd c))))
                                       (snd (fst (snd c))) (snd (snd c)))) calls)) w).
Proof.
  apply in_sequence_orderly. apply Forall_forall. intros c I.
  apply in_map_iff in I. destruct I as (x & <- & _). intros w0.
  apply fetchWithRetry_orderly.
Qed.

(** Any two successive requests of an orderly run are [gap] apart. *)
Lemma orderly_separated J gap (w w' : world J) evs i a b :
  trace w' = trace w ++ evs ->
  orderly gap w w' ->
  nth_error (dispatches evs) i = Some a ->
  nth_error (dispatches evs) (S i) = Some b ->
  a + gap <= b.
Proof.
  intros T (evs' & T' & S & _) A B.
  rewrite T in T'. apply app_inv_head in T'. subst evs'.
  eapply spaced_nth; eauto.
Qed.

(** C4, on the geocode route: the wait is taken once per incoming request
    and the retries of [makeRequestWithRetry] neither wait nor record
    their time.  The first request is retried at 1002100; the second
    arrives 60 ms later, finds the recorded time 2160 ms old, and leaves
    at once: two successive requests to the search service are 60 ms
    apart, less than [MIN_REQUEST_INTERVAL]. *)
Theorem C4_geocode_route_retry_escapes_throttle :
  dispatches (trace (after two_geocode_requests retried_then_next)) =
    [1000000; 1002100; 1002160] /\
  1002160 - 1002100 < GeocodeRoute.MIN_REQUEST_INTERVAL /\
  ~ spaced GeocodeRoute.MIN_REQUEST_INTERVAL (lastRequestTime retried_then_next)
      (dispatches (trace (after two_geocode_requests retried_then_next))).
Proof.
  assert (E : dispatches (trace (after two_geocode_requests retried_then_next)) =
              [1000000; 1002100; 1002160]) by (vm_compute; reflexivity).
  rewrite E. split; [reflexivity|]. split; [reflexivity|].
  unfold GeocodeRoute.MIN_REQUEST_INTERVAL. simpl. lia.
Qed.

(** ** C5 *)

(** C5.  In [detectAndGeocodeLocation], on a text outside the gazetteer:
    when the candidates before one are passed over (each gave [null] or
    failed with an error that is not a rate-limiting error) and that one
    fails with a rate-limiting error, the pipeline ends there with that
    error, in the world that call left: no later candidate and no
    whole-text call is made.  When every candidate is passed over, the
    whole text is geocoded: a rate-limiting error of that call is thrown
    on, and otherwise its result is returned, [null] standing for any
    other error.  A candidate that gives a location ends the pipeline
    with it. *)
Theorem C5_rate_limit_aborts_pipeline J
  (extractLocationNames : string -> list string)
  (geocode : string -> M J (option Location)) text (w : world J) :
  Geocoding.detectPredefinedLocation text = None ->
  let detect := Geocoding.detectAndGeocodeLocation_with extractLocationNames geocode in
  (forall before locationName rest w1 e w2,
     extractLocationNames text = before ++ locationName :: rest ->
     Geocoding.passes geocode before w w1 ->
     geocode locationName w1 = (Throw e, w2) ->
     is_rate_limit_message e = true ->
     detect text w = (Throw e, w2)) /\
  (forall w1 e w2,
     Geocoding.passes geocode (extractLocationNames text) w w1 ->
     geocode text w1 = (Throw e, w2) ->
     is_rate_limit_message e = true ->
     detect text w = (Throw e, w2)) /\
  (forall w1 o w2,
     Geocoding.passes geocode (extractLocationNames text) w w1 ->
     geocode text w1 = (o, w2) ->
     (forall e, o = Throw e -> is_rate_limit_message e = false) ->
     detect text w =
     (match o with
      | Return found => Return found
      | Throw _ => Return None
      end, w2)) /\
  (forall before locationName rest w1 location w2,
     extractLocationNames text = before ++ locationName :: rest ->
     Geocoding.passes geocode before w w1 ->
     geocode locationName w1 = (Return (Some location), w2) ->
     detect text w = (Return (Some location), w2)).
Proof.
  intros Miss detect. repeat split.
  - intros. eapply detect_candidate_rate_limited; eauto.
  - intros w1 e w2 P E R.
    unfold detect. erewrite detect_whole_text by eauto. cbv iota beta.
    rewrite R. reflexivity.
  - intros w1 o w2 P E N.
    unfold detect. erewrite detect_whole_text by eauto.
    destruct o as [found|e]; [reflexivity|]. cbv iota beta.
    rewrite (N e eq_refl). reflexivity.
  - intros. eapply detect_candidate_found; eauto.
Qed.

Lemma C5_rate_limit_aborts_pipeline_witness :
  Geocoding.detectPredefinedLocation lyon_then_nice = None /\
  Geocoding.detectAndGeocodeLocation lyon_and_nice lyon_then_nice null_then_limited =
  (Throw Geocoding.too_many_requests,
   after (geocode_by_default "Nice") (after (geocode_by_default "Lyon") null_then_limited)).
Proof.
  assert (Miss : Geocoding.detectPredefinedLocation lyon_then_nice = None)
    by (vm_compute; reflexivity).
  split; [exact Miss|].
  destruct (@C5_rate_limit_aborts_pipeline _ lyon_and_nice geocode_by_default
              lyon_then_nice null_then_limited Miss) as (H & _).
  apply (H ["Lyon"] "Nice" [] (after (geocode_by_default "Lyon") null_then_limited)).
  - reflexivity.
  - exists (Return None), (after (geocode_by_default "Lyon") null_then_limited).
    split; [vm_compute; reflexivity|]. split; [left; reflexivity | reflexivity].
  - vm_compute. reflexivity.
  - vm_compute. reflexivity.
Defined.

Example the_pipeline_stops_at_nice :
  dispatches
    (trace (after (Geocoding.detectAndGeocodeLocation lyon_and_nice lyon_then_nice)
              null_then_limited)) = [1000000; 1002000; 1004000; 1008000] /\
  map (fun e => match e with Dispatch _ _ b => Some b | _ => None end)
    (trace (after (Geocoding.detectAndGeocodeLocation lyon_and_nice lyon_then_nice)
              null_then_limited)) =
  [Some (QueryBody "Lyon"); None; Some (QueryBody "Nice"); None;
   Some (QueryBody "Nice"); None; Some (QueryBody "Nice")].
Proof. vm_compute. auto. Qed.

(** With [geocodeLocation] as the geocoder, every error of a candidate
    ends the pipeline: [geocodeLocation] throws rate-limiting errors only,
    and turns every other failure into [null] itself. *)
Lemma detectAndGeocodeLocation_rethrows extractLocationNames text
  (w : world Geocoding.geocode_json) before locationName rest w1 e w2 :
  Geocoding.detectPredefinedLocation text = None ->
  extractLocationNames text = before ++ locationName :: rest ->
  Geocoding.passes geocode_by_default before w w1 ->
  geocode_by_default locationName w1 = (Throw e, w2) ->
  Geocoding.detectAndGeocodeLocation extractLocationNames text w = (Throw e, w2).
Proof.
  intros Miss Names P E.
  eapply detect_candidate_rate_limited; eauto.
  eapply geocodeLocation_outcome; [exact E | reflexivity].
Qed.

(** ** C6 *)

Lemma existsb_skipn A (f : A -> bool) n : forall l,
  existsb f l = false -> existsb f (skipn n l) = false.
Proof.
  induction n as [|n IH]; intros l H; [exact H|].
  destruct l as [|x l]; [reflexivity|]. simpl in *.
  apply orb_false_iff in H. apply IH, H.
Qed.

(** What is sent upstream has at most five entries and is the end of the
    history with the system prompt put in front when it had none. *)
Lemma recentMessages_spec messages :
  (List.length (ChatRoute.recentMessages messages) <= 5)%nat /\
  exists dropped,
    ChatRoute.messagesWithSystem messages = dropped ++ ChatRoute.recentMessages messages.
Proof.
  split; [apply slice_last_length|].
  eexists. unfold ChatRoute.recentMessages. apply slice_last_suffix.
Qed.

(** A history of at most four entries without a system entry is sent with
    the system prompt as entry zero. *)
Lemma recentMessages_short messages :
  existsb ChatRoute.is_system messages = false ->
  (List.length messages <= 4)%nat ->
  ChatRoute.recentMessages messages = ChatRoute.systemMessage :: messages.
Proof.
  intros N L. unfold ChatRoute.recentMessages, ChatRoute.messagesWithSystem.
  rewrite N. apply slice_last_short. simpl. lia.
Qed.

(** A history of five entries or more without a system entry is sent
    without any system entry: the prompt put in front is cut off again. *)
Lemma recentMessages_long messages :
  existsb ChatRoute.is_system messages = false ->
  (5 <= List.length messages)%nat ->
  existsb ChatRoute.is_system (ChatRoute.recentMessages messages) = false.
Proof.
  intros N L. unfold ChatRoute.recentMessages, ChatRoute.messagesWithSystem,
    ChatRoute.slice_last.
  rewrite N. cbn [List.length].
  replace (S (List.length messages) - 5)%nat with (S (List.length messages - 5)) by lia.
  cbn [skipn]. apply existsb_skipn, N.
Qed.

(** C6, at a history of five questions.  The system prompt is put in
    front, the six entries are cut to the last five, and the request that
    leaves for the completion service carries the five questions and no
    system entry. *)
Theorem C6_system_prompt_cut_off :
  existsb ChatRoute.is_system five_questions = false /\
  ChatRoute.messagesWithSystem five_questions = ChatRoute.systemMessage :: five_questions /\
  ChatRoute.recentMessages five_questions = five_questions /\
  existsb ChatRoute.is_system (ChatRoute.recentMessages five_questions) = false /\
  trace (after (ChatRoute.POST full_configuration (ChatRoute.Body (Some five_questions)))
           (world_at 1000000 [completion_200 "Partez en Sicile."] [])) =
  [Dispatch 1000000
     "https://example.openai.azure.com/openai/deployments/gpt/chat/completions?api-version=2023-05-15"
     (ChatBody five_questions)].
Proof. vm_compute. repeat split; reflexivity. Qed.

(** ** C7 *)

(** What [validateCoordinates] accepts: finite numbers, the longitude
    between -180 and 180 and the latitude between -90 and 90. *)
Lemma validateCoordinates_spec lon lat :
  validateCoordinates lon lat = true <->
  exists x y : Q,
    lon = Finite x /\ lat = Finite y /\
    (-180 <= x)%Q /\ (x <= 180)%Q /\ (-90 <= y)%Q /\ (y <= 90)%Q.
Proof.
  unfold validateCoordinates, integer. split.
  - intros H. repeat (apply andb_true_iff in H; destruct H as [H ?]).
    destruct lon as [|[]|x]; try discriminate;
      destruct lat as [|[]|y]; try discriminate.
    exists x, y. simpl in *.
    repeat split; apply Qle_bool_iff; assumption.
  - intros (x & y & -> & -> & A & B & C & D). simpl.
    apply Qle_bool_iff in A, B, C, D.
    change (inject_Z (-180)) with (-180)%Q. change (inject_Z 180) with 180%Q.
    change (inject_Z (-90)) with (-90)%Q. change (inject_Z 90) with 90%Q.
    rewrite A, B, C, D. reflexivity.
Qed.

(** C7, as amended.  A location returned by [geocodeLocation], from the
    gazetteer or from the route, has finite coordinates, the longitude
    within [-180, 180] and the latitude within [-90, 90]; so has a
    location in an answer of the geocode route, which comes with status
    200.  An [ok] response whose location has coordinates out of range
    makes [geocodeLocation] return [null]; a search result with
    coordinates out of range makes the route answer with status 400 and
    an error, not with a [null] location. *)
Theorem C7_locations_have_valid_coordinates
  locationName retries delay (w : world Geocoding.geocode_json)
  encodeURIComponent ToString apiKey req (ws : world GeocodeRoute.azure_json) :
  (forall location w',
     Geocoding.geocodeLocation locationName retries delay w = (Return (Some location), w') ->
     exists x y : Q,
       coordinates location = (Finite x, Finite y) /\
       (-180 <= x)%Q /\ (x <= 180)%Q /\ (-90 <= y)%Q /\ (y <= 90)%Q) /\
  (forall r e s l lon lat,
     Geocoding.detectPredefinedLocation locationName = None ->
     fetched (upstream w) = Return r ->
     ok r = true ->
     Geocoding.read_body r = Return (Geocoding.GValue e s (Some l)) ->
     Geocoding.loc_coordinates l = Some [lon; lat] ->
     validateCoordinates lon lat = false ->
     fst (Geocoding.geocodeLocation locationName retries delay w) = Return None) /\
  (forall resp ws' location,
     GeocodeRoute.POST encodeURIComponent ToString apiKey req ws = (Return resp, ws') ->
     GeocodeRoute.http_body resp = GeocodeRoute.location (Some location) ->
     GeocodeRoute.http_status resp = 200 /\
     exists x y : Q,
       coordinates location = (Finite x, Finite y) /\
       (-180 <= x)%Q /\ (x <= 180)%Q /\ (-90 <= y)%Q /\ (y <= 90)%Q) /\
  (forall query s lon lat entityType address results,
     validateCoordinates lon lat = false ->
     GeocodeRoute.answer ToString query
       (GeocodeRoute.AValue s
          (GeocodeRoute.Result (Some (Some lon, Some lat)) entityType address :: results)) ws =
     (Return (GeocodeRoute.NextResponse_json
                (GeocodeRoute.error
                   ("Invalid coordinates: " ++ ToString lon ++ ", " ++ ToString lat)%string)
                400), ws)).
Proof.
  assert (V : forall location, valid_location location = true ->
              exists x y : Q,
                coordinates location = (Finite x, Finite y) /\
                (-180 <= x)%Q /\ (x <= 180)%Q /\ (-90 <= y)%Q /\ (y <= 90)%Q).
  { intros location H. apply validateCoordinates_spec in H.
    destruct H as (x & y & X & Y & B). exists x, y. split; [|exact B].
    destruct (coordinates location) as [lon lat]. simpl in *. congruence. }
  repeat split.
  - intros location w' E. apply V.
    destruct (geocodeLocation_outcome locationName retries delay w E) as [H _].
    apply H. reflexivity.
  - intros r e s l lon lat Miss F Ok Body Coord Bad.
    erewrite geocodeLocation_out_of_range by eassumption. reflexivity.
  - eapply GeocodeRoute_POST_location; eassumption.
  - apply V. eapply GeocodeRoute_POST_location; eassumption.
  - intros. apply answer_out_of_range. assumption.
Qed.

Lemma C7_locations_have_valid_coordinates_witness :
  Geocoding.detectPredefinedLocation "Atlantis" = None /\
  validateCoordinates (integer 200) (integer 48) = false /\
  fst (Geocoding.geocodeLocation "Atlantis" Geocoding.MAX_RETRIES
         Geocoding.INITIAL_RETRY_DELAY (world_at 1000000 [geocode_at 200 48] []))
  = Return None.
Proof.
  assert (Miss : Geocoding.detectPredefinedLocation "Atlantis" = None)
    by (vm_compute; reflexivity).
  assert (Bad : validateCoordinates (integer 200) (integer 48) = false)
    by (vm_compute; reflexivity).
  split; [exact Miss|]. split; [exact Bad|].
  destruct (@C7_locations_have_valid_coordinates
              "Atlantis" Geocoding.MAX_RETRIES Geocoding.INITIAL_RETRY_DELAY
              (world_at 1000000 [geocode_at 200 48] [])
              (fun s => s) render (Some "key") (GeocodeRoute.Body "Atlantis")
              (world_at 1000000 [search_result 200 48] []))
    as (_ & H & _).
  eapply H; [exact Miss | reflexivity | reflexivity | reflexivity | reflexivity | exact Bad].
Defined.

(** C7 as stated fails on the geocode route: a search result at
    (200, 48) is not treated as no match, which would be the answer
    [{ location: null }] with status 200, but as a bad request. *)
Lemma C7_route_answers_400 :
  fst (GeocodeRoute.POST (fun s => s) render (Some "key") (GeocodeRoute.Body "Atlantis")
         (world_at 1000000 [search_result 200 48] [])) =
    Return (GeocodeRoute.NextResponse_json
              (GeocodeRoute.error "Invalid coordinates: 200, 48") 400) /\
  fst (GeocodeRoute.POST (fun s => s) render (Some "key") (GeocodeRoute.Body "Atlantis")
         (world_at 1000000 [search_nothing] [])) =
    Return (GeocodeRoute.NextResponse_json (GeocodeRoute.location None) 200).
Proof. vm_compute. split; reflexivity. Qed.

(** ** C8 *)

(** C8, at a name outside the gazetteer that the route answers with 400
    three times.  [geocodeLocation] does not fail with that error at the
    first answer: the error thrown for the 400 is caught by the handler of
    the function, which retries every error that is not a rate-limiting
    one; the request is sent three times, 2000 ms and 4000 ms apart, and
    the call ends with [null]. *)
Theorem C8_bad_request_is_retried :
  Geocoding.detectPredefinedLocation "Atlantis" = None /\
  Geocoding.geocodeLocation "Atlantis" Geocoding.MAX_RETRIES Geocoding.INITIAL_RETRY_DELAY
    (world_at 1000000 [geocode_400; geocode_400; geocode_400] []) =
  (Return None,
   {| clock := 1006000; lastRequestTime := 1006000; upstream := []; lag := [];
      trace := [ Dispatch 1000000 "/api/geocode" (QueryBody "Atlantis");
                 Backoff 2000;
                 Dispatch 1002000 "/api/geocode" (QueryBody "Atlantis");
                 Backoff 4000;
                 Dispatch 1006000 "/api/geocode" (QueryBody "Atlantis") ] |}).
Proof. vm_compute. split; reflexivity. Qed.

(** ** C9 *)

(** C9.  A text that has a part reading, case ignored, as a key of the
    gazetteer is resolved to the first entry of the gazetteer whose key it
    includes, by [detectAndGeocodeLocation] and by [geocodeLocation]
    alike, and the world is left untouched: no wait, no request, no
    recorded time. *)
Theorem C9_gazetteer_short_circuits
  (extractLocationNames : string -> list string) text key place_
  (w : world Geocoding.geocode_json) :
  In (key, place_) locationData ->
  Geocoding.contains_ignoring_case text key ->
  exists before key' location rest,
    locationData = before ++ (key', location) :: rest /\
    forallb (fun entry => negb (includes (Geocoding.toLowerCase text) (fst entry))) before
      = true /\
    includes (Geocoding.toLowerCase text) key' = true /\
    Geocoding.detectPredefinedLocation text = Some location /\
    Geocoding.detectAndGeocodeLocation extractLocationNames text w
      = (Return (Some location), w) /\
    forall retries delay,
      Geocoding.geocodeLocation text retries delay w = (Return (Some location), w).
Proof.
  intros I C. apply includes_ignoring_case in C.
  destruct (first_match_first _ _ _ _ I C) as (before & key' & location & rest & E & B & K & F).
  exists before, key', location, rest.
  repeat split; auto.
  - unfold Geocoding.detectAndGeocodeLocation. apply detect_predefined. exact F.
  - intros retries delay. apply geocodeLocation_hit. exact F.
Qed.

Lemma C9_gazetteer_short_circuits_witness :
  In ("paris", defaultLocation) locationData /\
  Geocoding.contains_ignoring_case je_veux_visiter_paris "paris" /\
  Geocoding.detectAndGeocodeLocation lyon_and_nice je_veux_visiter_paris
    (world_at 1000000 [] []) =
  (Return (Some defaultLocation), world_at 1000000 [] []).
Proof.
  assert (I : In ("paris", defaultLocation) locationData) by (left; reflexivity).
  assert (C : Geocoding.contains_ignoring_case je_veux_visiter_paris "paris").
  { exists "Je veux visiter ", "Paris", " cet été". split; reflexivity. }
  split; [exact I|]. split; [exact C|].
  destruct (@C9_gazetteer_short_circuits lyon_and_nice je_veux_visiter_paris "paris"
              defaultLocation (world_at 1000000 [] []) I C)
    as (before & key' & location & rest & _ & _ & _ & F & D & _).
  rewrite D. f_equal. f_equal. rewrite <- F. vm_compute. reflexivity.
Defined.

(** ** C10 *)

(** C10, as amended.  For the static-map route, leaving a parameter out
    is the same as passing ["0"] for a coordinate and ["10"] for the zoom.
    These defaults pass both validations, so a request without any
    parameter is never answered with status 400: it is answered with
    status 200 and the map centred on (0, 0) at zoom 10 when the key of
    the map service is set, and with status 500 when it is not. *)
Theorem C10_static_map_defaults
  (parseFloat parseInt : string -> number) (ToString : number -> string) apiKey req :
  parseFloat "0" = integer 0 ->
  parseInt "10" = integer 10 ->
  StaticMap.GET parseFloat parseInt ToString apiKey req =
    StaticMap.GET parseFloat parseInt ToString apiKey
      {| StaticMap.longitude := Some (StaticMap.param_or (StaticMap.longitude req) "0");
         StaticMap.latitude := Some (StaticMap.param_or (StaticMap.latitude req) "0");
         StaticMap.zoom_level := Some (StaticMap.param_or (StaticMap.zoom_level req) "10") |} /\
  StaticMap.GET parseFloat parseInt ToString apiKey StaticMap.no_parameters =
    match apiKey with
    | Some (String c key) =>
        StaticMap.NextResponse_json
          (StaticMap.url
             (StaticMap.mapUrl ToString (integer 10) (integer 0) (integer 0) (String c key)))
          200
    | _ =>
        StaticMap.NextResponse_json
          (StaticMap.error "Map service configuration error") 500
    end /\
  StaticMap.http_status
    (StaticMap.GET parseFloat parseInt ToString apiKey StaticMap.no_parameters) <> 400.
Proof.
  intros F I.
  assert (E : StaticMap.GET parseFloat parseInt ToString apiKey StaticMap.no_parameters =
              match apiKey with
              | Some (String c key) =>
                  StaticMap.NextResponse_json
                    (StaticMap.url
                       (StaticMap.mapUrl ToString (integer 10) (integer 0) (integer 0)
                          (String c key)))
                    200
              | _ =>
                  StaticMap.NextResponse_json
                    (StaticMap.error "Map service configuration error") 500
              end).
  { destruct apiKey as [[|c key]|].
    - apply GET_no_parameters_unconfigured; auto.
    - apply GET_no_parameters_configured; auto. discriminate.
    - apply GET_no_parameters_unconfigured; auto. }
  split; [apply GET_defaults|]. split; [exact E|].
  rewrite E. destruct apiKey as [[|c key]|]; discriminate.
Qed.

Lemma C10_static_map_defaults_witness :
  parse_digits "0" = integer 0 /\
  parse_digits "10" = integer 10 /\
  StaticMap.GET parse_digits parse_digits render (Some "key") StaticMap.no_parameters =
  StaticMap.NextResponse_json
    (StaticMap.url
       "https://atlas.microsoft.com/map/static/png?api-version=1.0&layer=basic&style=main&zoom=10&center=0,0&width=800&height=500&subscription-key=key")
    200.
Proof.
  split; [reflexivity|]. split; [reflexivity|].
  destruct (@C10_static_map_defaults parse_digits parse_digits render (Some "key")
              StaticMap.no_parameters eq_refl eq_refl) as (_ & E & _).
  rewrite E. vm_compute. reflexivity.
Defined.

(** C10 as stated fails: without the key of the map service, a request
    without parameters is answered with status 500, not 200. *)
Lemma C10_no_key_answers_500 :
  StaticMap.GET parse_digits parse_digits render None StaticMap.no_parameters =
  StaticMap.NextResponse_json (StaticMap.error "Map service configuration error") 500.
Proof. vm_compute. reflexivity. Qed.

(* ################################################################# *)
(** * Further properties *)

(** ** [sendMessage] under rate limiting and failures *)

(** A response that carries a reply ends the call with that reply. *)
Lemma sendMessage_carried messages retries delay (w : world Api.chat_json) r reply :
  fetched (upstream w) = Return r ->
  carries r reply ->
  Api.sendMessage messages retries delay w =
  (Return reply,
   after (attempt Api.MIN_REQUEST_INTERVAL "/api/chat" (ChatBody messages)) w).
Proof.
  intros F (Ok & e & Js).
  assert (N429 : (status r =? 429) = false).
  { unfold ok in Ok. apply andb_true_iff in Ok. destruct Ok as [_ Ok].
    apply Z.leb_le in Ok. apply Z.eqb_neq. lia. }
  rewrite sendMessage_unfold. unfold Api.sendMessage_body.
  rewrite bind_try_attempt, F. run. rewrite N429, Ok, Js. reflexivity.
Qed.

(** The events of one attempt followed by a retry delay and more events. *)
Lemma attempt_then_backoff J gap url body delay (w w' : world J) evs :
  trace w' =
    trace (after (sleep Backoff delay) (after (attempt gap url body) w)) ++ evs ->
  exists evs', trace w' = trace w ++ evs' /\
    dispatches evs' = lastRequestTime (after (attempt gap url body) w) :: dispatches evs /\
    backoffs evs' = delay :: backoffs evs.
Proof.
  intros T.
  destruct (attempt_spec gap url body w) as (waits & t & _ & T1 & D1 & B1 & _ & L1).
  exists (waits ++ [Dispatch t url body] ++ [Backoff delay] ++ evs). split.
  - rewrite T. change (trace (after (sleep Backoff delay) (after (attempt gap url body) w)))
      with (trace (after (attempt gap url body) w) ++ [Backoff delay]).
    rewrite T1, <- !app_assoc. reflexivity.
  - rewrite !dispatches_app, !backoffs_app, D1, B1, L1. split; reflexivity.
Qed.

Lemma attempt_alone J gap url body (w : world J) :
  exists evs, trace (after (attempt gap url body) w) = trace w ++ evs /\
    dispatches evs = [lastRequestTime (after (attempt gap url body) w)] /\
    backoffs evs = [].
Proof.
  destruct (attempt_spec gap url body w) as (waits & t & _ & T1 & D1 & B1 & _ & L1).
  exists (waits ++ [Dispatch t url body]). split; [exact T1|].
  rewrite dispatches_app, backoffs_app, D1, B1, L1. split; reflexivity.
Qed.

Lemma attempt_upstream J gap url body (w : world J) :
  upstream (after (attempt gap url body) w) = tl (upstream w).
Proof. destruct (attempt_spec gap url body w) as (? & ? & U & _). exact U. Qed.

(** X1.  When the chat route answers 429 to every request of a call of
    [sendMessage], each time with a message that reads as a rate-limiting
    one, the call uses all its retries and then resolves to the overload
    notice: it has made [retries + 1] requests, consuming as many answers,
    with the delays [delay], [2 * delay], ... between them. *)
Theorem X1_sendMessage_gives_up_overloaded messages retries :
  forall delay (w : world Api.chat_json) limited rest,
    List.length limited = S retries ->
    Forall (fun r => status r = 429 /\
                     is_rate_limit_message (Api.error_message_of r) = true) limited ->
    upstream w = map (@Responds _) limited ++ rest ->
    exists w' evs,
      Api.sendMessage messages retries delay w = (Return Api.overloaded_reply, w') /\
      upstream w' = rest /\
      trace w' = trace w ++ evs /\
      List.length (dispatches evs) = S retries /\
      backoffs evs = doubling delay retries.
Proof.
  induction retries as [|retries IH]; intros delay w limited rest Len All U.
  - destruct limited as [|r [|? ?]]; try discriminate.
    apply Forall_inv in All. destruct All as [St R].
    assert (NOk : ok r = false).
    { unfold ok. rewrite St. reflexivity. }
    destruct (attempt_alone Api.MIN_REQUEST_INTERVAL "/api/chat" (ChatBody messages) w)
      as (evs & T & D & B).
    eexists. exists evs. split; [|split; [|split; [exact T|]]].
    + rewrite sendMessage_unfold. unfold Api.sendMessage_body.
      rewrite bind_try_attempt, U. run. rewrite St, NOk. run. rewrite R. reflexivity.
    + rewrite attempt_upstream, U. reflexivity.
    + rewrite D, B. split; reflexivity.
  - destruct limited as [|r limited]; [discriminate|].
    injection Len as Len. inversion All as [|? ? [St R] All']; subst.
    erewrite sendMessage_429; [| rewrite U; reflexivity | exact St].
    set (w1 := after (sleep Backoff delay)
                 (after (attempt Api.MIN_REQUEST_INTERVAL "/api/chat" (ChatBody messages)) w)).
    destruct (IH (delay * 2) w1 limited rest Len All') as (w' & evs & E & U' & T & D & B).
    { unfold w1. change (upstream (after (sleep Backoff delay) ?x)) with (upstream x).
      rewrite attempt_upstream, U. reflexivity. }
    apply attempt_then_backoff in T. destruct T as (evs' & T' & D' & B').
    exists w', evs'. repeat split; auto.
    + rewrite D'. simpl. rewrite D. reflexivity.
    + rewrite B', B. reflexivity.
Qed.

Lemma X1_sendMessage_gives_up_overloaded_witness :
  exists w' evs,
    Api.sendMessage [bonjour] 2 2000
      (world_at 1000000 [chat_429; chat_429; chat_429; chat_200 "Paris"] []) =
      (Return Api.overloaded_reply, w') /\
    upstream w' = [chat_200 "Paris"] /\
    trace w' = [] ++ evs /\
    List.length (dispatches evs) = 3%nat /\
    backoffs evs = [2000; 4000].
Proof.
  apply (@X1_sendMessage_gives_up_overloaded [bonjour] 2 2000
           (world_at 1000000 [chat_429; chat_429; chat_429; chat_200 "Paris"] [])
           [chat_limited; chat_limited; chat_limited] [chat_200 "Paris"]).
  - reflexivity.
  - repeat constructor.
  - reflexivity.
Defined.

(** X2.  When the chat route answers 429 to the first [n] requests of a
    call of [sendMessage], [n] being within the retry budget, and then
    sends a response that carries a reply, the call resolves to that very
    reply, after [n + 1] requests and the delays [delay], [2 * delay], ...
    between them; answers beyond are left unconsumed. *)
Theorem X2_sendMessage_recovers messages limited :
  forall retries delay (w : world Api.chat_json) r reply rest,
    (List.length limited <= retries)%nat ->
    Forall (fun l => status l = 429) limited ->
    carries r reply ->
    upstream w = map (@Responds _) limited ++ Responds r :: rest ->
    exists w' evs,
      Api.sendMessage messages retries delay w = (Return reply, w') /\
      upstream w' = rest /\
      trace w' = trace w ++ evs /\
      List.length (dispatches evs) = S (List.length limited) /\
      backoffs evs = doubling delay (List.length limited).
Proof.
  induction limited as [|l limited IH]; intros retries delay w r reply rest Len All C U.
  - destruct (attempt_alone Api.MIN_REQUEST_INTERVAL "/api/chat" (ChatBody messages) w)
      as (evs & T & D & B).
    eexists. exists evs. split; [|split; [|split; [exact T|]]].
    + eapply sendMessage_carried; [rewrite U; reflexivity | exact C].
    + rewrite attempt_upstream, U. reflexivity.
    + rewrite D, B. split; reflexivity.
  - destruct retries as [|retries]; [simpl in Len; lia|].
    inversion All as [|? ? St All']; subst.
    erewrite sendMessage_429; [| rewrite U; reflexivity | exact St].
    set (w1 := after (sleep Backoff delay)
                 (after (attempt Api.MIN_REQUEST_INTERVAL "/api/chat" (ChatBody messages)) w)).
    destruct (IH retries (delay * 2) w1 r reply rest) as (w' & evs & E & U' & T & D & B);
      auto.
    { simpl in Len. lia. }
    { unfold w1. change (upstream (after (sleep Backoff delay) ?x)) with (upstream x).
      rewrite attempt_upstream, U. reflexivity. }
    apply attempt_then_backoff in T. destruct T as (evs' & T' & D' & B').
    exists w', evs'. repeat split; auto.
    + rewrite D'. simpl. rewrite D. reflexivity.
    + rewrite B', B. reflexivity.
Qed.

Lemma X2_sendMessage_recovers_witness :
  exists w' evs,
    Api.sendMessage [bonjour] Api.MAX_RETRIES Api.INITIAL_RETRY_DELAY
      (world_at 1000000 [chat_429; chat_429; chat_200 "Paris est magnifique."] []) =
      (Return "Paris est magnifique.", w') /\
    upstream w' = [] /\
    trace w' = [] ++ evs /\
    List.length (dispatches evs) = 3%nat /\
    backoffs evs = [2000; 4000].
Proof.
  apply (@X2_sendMessage_recovers [bonjour] [chat_limited; chat_limited]
           Api.MAX_RETRIES Api.INITIAL_RETRY_DELAY
           (world_at 1000000 [chat_429; chat_429; chat_200 "Paris est magnifique."] [])
           (chat_answer "Paris est magnifique.") "Paris est magnifique." []).
  - unfold Api.MAX_RETRIES. simpl. lia.
  - repeat constructor.
  - split; [reflexivity | eexists; reflexivity].
  - reflexivity.
Defined.

(** A failure that does not read as rate limiting ends the call with the
    generic failure notice. *)
Lemma sendMessage_failure messages retries delay
  (w : world Api.chat_json) e :
  (fetched (upstream w) = Throw e \/
   exists r, fetched (upstream w) = Return r /\ ok r = false /\ status r <> 429 /\
             Api.error_message_of r = e) ->
  is_rate_limit_message e = false ->
  Api.sendMessage messages retries delay w =
  (Return Api.failed_reply,
   after (attempt Api.MIN_REQUEST_INTERVAL "/api/chat" (ChatBody messages)) w).
Proof.
  intros [F | (r & F & NOk & N & <-)] R;
    rewrite sendMessage_unfold; unfold Api.sendMessage_body;
    rewrite bind_try_attempt, F; run.
  - rewrite R. reflexivity.
  - apply Z.eqb_neq in N. rewrite N, NOk. run. rewrite R. reflexivity.
Qed.

(** X3.  A failure that does not read as rate limiting is never retried
    by [sendMessage]: when the request fails on the network, or is
    answered with a status that is neither a success nor 429, and the
    message of the error has none of the rate-limiting marks, the call
    resolves to the generic failure notice after that single request,
    whatever retries are left. *)
Theorem X3_sendMessage_failure_not_retried messages retries delay
  (w : world Api.chat_json) e :
  (fetched (upstream w) = Throw e \/
   exists r, fetched (upstream w) = Return r /\ ok r = false /\ status r <> 429 /\
             Api.error_message_of r = e) ->
  is_rate_limit_message e = false ->
  Api.sendMessage messages retries delay w =
  (Return Api.failed_reply,
   after (attempt Api.MIN_REQUEST_INTERVAL "/api/chat" (ChatBody messages)) w).
Proof. apply sendMessage_failure. Qed.

Lemma X3_sendMessage_failure_not_retried_witness :
  Api.sendMessage [bonjour] Api.MAX_RETRIES Api.INITIAL_RETRY_DELAY
    (world_at 1000000 [Responds chat_unavailable; chat_200 "Paris"] []) =
  (Return Api.failed_reply,
   {| clock := 1000000; lastRequestTime := 1000000; upstream := [chat_200 "Paris"];
      lag := []; trace := [Dispatch 1000000 "/api/chat" (ChatBody [bonjour])] |}).
Proof.
  rewrite (@X3_sendMessage_failure_not_retried [bonjour] Api.MAX_RETRIES
             Api.INITIAL_RETRY_DELAY
             (world_at 1000000 [Responds chat_unavailable; chat_200 "Paris"] [])
             "Service Unavailable").
  - reflexivity.
  - right. exists chat_unavailable. repeat split. discriminate.
  - reflexivity.
Defined.

(** ** [geocodeLocation] under rate limiting and failures *)

(** X4.  Outside the gazetteer, a call of [geocodeLocation] makes at most
    [retries + 1] requests to the geocode route, all for the same name,
    one retry delay lying between each request and the next, and its
    [k]-th delay (counting from 0) is [delay * 2 ^ k]: the delays double
    and nothing caps them. *)
Theorem X4_geocodeLocation_attempts_and_delays locationName retries delay
  (w : world Geocoding.geocode_json) :
  Geocoding.detectPredefinedLocation locationName = None ->
  exists n evs, (n <= retries)%nat /\
    trace (after (Geocoding.geocodeLocation locationName retries delay) w) = trace w ++ evs /\
    retry_trace "/api/geocode" (QueryBody locationName) (fun d => d * 2) delay n evs /\
    List.length (dispatches evs) = S n /\
    (forall k d, nth_error (backoffs evs) k = Some d -> d = delay * 2 ^ Z.of_nat k).
Proof.
  intros Miss.
  destruct (@loop_trace _ _ Geocoding.MIN_REQUEST_INTERVAL "/api/geocode"
              (QueryBody locationName) (fun d => d * 2)
              (Geocoding.geocodeLocation locationName)
              (fun r d w0 => geocodeLocation_step locationName r d w0 Miss)
              retries delay w) as (n & evs & N & T & R).
  exists n, evs. repeat split; auto.
  - eapply retry_trace_dispatches, R.
  - intros k d H. rewrite (retry_trace_backoffs _ _ _ _ _ _ R) in H.
    eapply doubling_nth, H.
Qed.

Lemma X4_geocodeLocation_attempts_and_delays_witness :
  Geocoding.detectPredefinedLocation "Atlantis" = None /\
  exists n evs, (n <= 2)%nat /\
    trace (after (Geocoding.geocodeLocation "Atlantis" 2 2000)
             (world_at 1000000 [geocode_429; geocode_null] [])) = [] ++ evs /\
    retry_trace "/api/geocode" (QueryBody "Atlantis") (fun d => d * 2) 2000 n evs /\
    List.length (dispatches evs) = S n /\
    (forall k d, nth_error (backoffs evs) k = Some d -> d = 2000 * 2 ^ Z.of_nat k).
Proof.
  assert (Miss : Geocoding.detectPredefinedLocation "Atlantis" = None)
    by (vm_compute; reflexivity).
  split; [exact Miss|].
  apply (@X4_geocodeLocation_attempts_and_delays "Atlantis" 2 2000
           (world_at 1000000 [geocode_429; geocode_null] []) Miss).
Defined.

(** X5.  Whatever the name, the retry budget, the delay and the answers
    of the route, [geocodeLocation] fails with rate-limiting errors only:
    every other failure, of the network, of the route or of the body of
    its answer, ends in [null] or in a retry. *)
Theorem X5_geocodeLocation_throws_rate_limits_only locationName retries delay
  (w : world Geocoding.geocode_json) :
  match fst (Geocoding.geocodeLocation locationName retries delay w) with
  | Return _ => True
  | Throw e => is_rate_limit_message e = true
  end.
Proof.
  destruct (Geocoding.geocodeLocation locationName retries delay w) as [o w'] eqn:E.
  destruct (geocodeLocation_outcome locationName retries delay w E) as [_ H].
  simpl. destruct o as [found|e]; [exact I|]. apply H. reflexivity.
Qed.

(** A 429, or a status of 500 and above, with retries left: sleep and
    start again. *)
Lemma geocodeLocation_retried locationName retries delay
  (w : world Geocoding.geocode_json) r :
  Geocoding.detectPredefinedLocation locationName = None ->
  fetched (upstream w) = Return r ->
  status r = 429 \/ 500 <= status r ->
  Geocoding.geocodeLocation locationName (S retries) delay w =
  Geocoding.geocodeLocation locationName retries (delay * 2)
    (after (sleep Backoff delay)
       (after (attempt Geocoding.MIN_REQUEST_INTERVAL "/api/geocode"
                 (QueryBody locationName)) w)).
Proof.
  intros Miss F St. rewrite geocodeLocation_unfold. unfold Geocoding.geocodeLocation_body.
  rewrite Miss, bind_try_attempt, F. run.
  destruct (status r =? 429) eqn:E; [reflexivity|].
  destruct St as [St | St]; [apply Z.eqb_neq in E; contradiction|].
  assert (NOk : ok r = false).
  { unfold ok. apply andb_false_iff. right. apply Z.leb_gt. lia. }
  rewrite NOk. simpl. apply Z.leb_le in St. rewrite St. reflexivity.
Qed.

(** X6.  Outside the gazetteer, when the geocode route answers 429 to
    every request of a call of [geocodeLocation], the call uses all its
    retries and then throws the error "Too Many Requests: Service
    temporarily unavailable": it has made [retries + 1] requests, with the
    delays [delay], [2 * delay], ... between them. *)
Theorem X6_geocodeLocation_gives_up_rate_limited locationName retries :
  forall delay (w : world Geocoding.geocode_json) limited rest,
    Geocoding.detectPredefinedLocation locationName = None ->
    List.length limited = S retries ->
    Forall (fun r => status r = 429) limited ->
    upstream w = map (@Responds _) limited ++ rest ->
    exists w' evs,
      Geocoding.geocodeLocation locationName retries delay w =
        (Throw Geocoding.too_many_requests, w') /\
      upstream w' = rest /\
      trace w' = trace w ++ evs /\
      List.length (dispatches evs) = S retries /\
      backoffs evs = doubling delay retries.
Proof.
  induction retries as [|retries IH]; intros delay w limited rest Miss Len All U.
  - destruct limited as [|r [|? ?]]; try discriminate.
    apply Forall_inv in All.
    destruct (attempt_alone Geocoding.MIN_REQUEST_INTERVAL "/api/geocode"
                (QueryBody locationName) w) as (evs & T & D & B).
    eexists. exists evs. split; [|split; [|split; [exact T|]]].
    + rewrite geocodeLocation_unfold. unfold Geocoding.geocodeLocation_body.
      rewrite Miss, bind_try_attempt, U. run. rewrite All. reflexivity.
    + rewrite attempt_upstream, U. reflexivity.
    + rewrite D, B. split; reflexivity.
  - destruct limited as [|r limited]; [discriminate|].
    injection Len as Len. inversion All as [|? ? St All']; subst.
    erewrite geocodeLocation_retried; [| exact Miss | rewrite U; reflexivity | left; exact St].
    set (w1 := after (sleep Backoff delay)
                 (after (attempt Geocoding.MIN_REQUEST_INTERVAL "/api/geocode"
                           (QueryBody locationName)) w)).
    destruct (IH (delay * 2) w1 limited rest Miss Len All') as (w' & evs & E & U' & T & D & B).
    { unfold w1. change (upstream (after (sleep Backoff delay) ?x)) with (upstream x).
      rewrite attempt_upstream, U. reflexivity. }
    apply attempt_then_backoff in T. destruct T as (evs' & T' & D' & B').
    exists w', evs'. repeat split; auto.
    + rewrite D'. simpl. rewrite D. reflexivity.
    + rewrite B', B. reflexivity.
Qed.

Lemma X6_geocodeLocation_gives_up_rate_limited_witness :
  Geocoding.detectPredefinedLocation "Atlantis" = None /\
  exists w' evs,
    Geocoding.geocodeLocation "Atlantis" Geocoding.MAX_RETRIES Geocoding.INITIAL_RETRY_DELAY
      (world_at 1000000 [geocode_429; geocode_429; geocode_429] []) =
      (Throw Geocoding.too_many_requests, w') /\
    upstream w' = [] /\
    trace w' = [] ++ evs /\
    List.length (dispatches evs) = 3%nat /\
    backoffs evs = [2000; 4000].
Proof.
  assert (Miss : Geocoding.detectPredefinedLocation "Atlantis" = None)
    by (vm_compute; reflexivity).
  split; [exact Miss|].
  apply (@X6_geocodeLocation_gives_up_rate_limited "Atlantis" Geocoding.MAX_RETRIES
           Geocoding.INITIAL_RETRY_DELAY
           (world_at 1000000 [geocode_429; geocode_429; geocode_429] [])
           [geocode_limited; geocode_limited; geocode_limited] [] Miss).
  - reflexivity.
  - repeat constructor.
  - reflexivity.
Defined.

(** X7.  Outside the gazetteer, rate limiting and server errors are
    transient for [geocodeLocation]: when the first [n] requests, [n]
    being within the retry budget, are answered with 429 or with a status
    of 500 and above, and the next with a success whose body holds a
    location that passes the validation, the call returns that location,
    after [n + 1] requests and the delays [delay], [2 * delay], ... *)
Theorem X7_geocodeLocation_recovers locationName failing :
  forall retries delay (w : world Geocoding.geocode_json) r responseData location rest,
    Geocoding.detectPredefinedLocation locationName = None ->
    (List.length failing <= retries)%nat ->
    Forall (fun l => status l = 429 \/ 500 <= status l) failing ->
    ok r = true ->
    Geocoding.read_body r = Return responseData ->
    Geocoding.validate responseData = Some location ->
    upstream w = map (@Responds _) failing ++ Responds r :: rest ->
    exists w' evs,
      Geocoding.geocodeLocation locationName retries delay w =
        (Return (Some location), w') /\
      upstream w' = rest /\
      trace w' = trace w ++ evs /\
      List.length (dispatches evs) = S (List.length failing) /\
      backoffs evs = doubling delay (List.length failing).
Proof.
  induction failing as [|l failing IH];
    intros retries delay w r responseData location rest Miss Len All Ok Body V U.
  - destruct (attempt_alone Geocoding.MIN_REQUEST_INTERVAL "/api/geocode"
                (QueryBody locationName) w) as (evs & T & D & B).
    assert (N429 : (status r =? 429) = false).
    { unfold ok in Ok. apply andb_true_iff in Ok. destruct Ok as [_ Ok'].
      apply Z.leb_le in Ok'. apply Z.eqb_neq. lia. }
    eexists. exists evs. split; [|split; [|split; [exact T|]]].
    + rewrite geocodeLocation_unfold. unfold Geocoding.geocodeLocation_body.
      rewrite Miss, bind_try_attempt, U. run. rewrite N429, Ok, Body. run.
      rewrite V. reflexivity.
    + rewrite attempt_upstream, U. reflexivity.
    + rewrite D, B. split; reflexivity.
  - destruct retries as [|retries]; [simpl in Len; lia|].
    inversion All as [|? ? St All']; subst.
    erewrite geocodeLocation_retried; [| exact Miss | rewrite U; reflexivity | exact St].
    set (w1 := after (sleep Backoff delay)
                 (after (attempt Geocoding.MIN_REQUEST_INTERVAL "/api/geocode"
                           (QueryBody locationName)) w)).
    destruct (IH retries (delay * 2) w1 r responseData location rest)
      as (w' & evs & E & U' & T & D & B); auto.
    { simpl in Len. lia. }
    { unfold w1. change (upstream (after (sleep Backoff delay) ?x)) with (upstream x).
      rewrite attempt_upstream, U. reflexivity. }
    apply attempt_then_backoff in T. destruct T as (evs' & T' & D' & B').
    exists w', evs'. repeat split; auto.
    + rewrite D'. simpl. rewrite D. reflexivity.
    + rewrite B', B. reflexivity.
Qed.

Lemma X7_geocodeLocation_recovers_witness :
  Geocoding.detectPredefinedLocation "Atlantis" = None /\
  exists w' evs,
    Geocoding.geocodeLocation "Atlantis" Geocoding.MAX_RETRIES Geocoding.INITIAL_RETRY_DELAY
      (world_at 1000000
         [geocode_429; Responds geocode_unavailable; geocode_at 10 20] []) =
      (Return (Some (somewhere 10 20)), w') /\
    upstream w' = [] /\
    trace w' = [] ++ evs /\
    List.length (dispatches evs) = 3%nat /\
    backoffs evs = [2000; 4000].
Proof.
  assert (Miss : Geocoding.detectPredefinedLocation "Atlantis" = None)
    by (vm_compute; reflexivity).
  split; [exact Miss|].
  apply (@X7_geocodeLocation_recovers "Atlantis" [geocode_limited; geocode_unavailable]
           Geocoding.MAX_RETRIES Geocoding.INITIAL_RETRY_DELAY
           (world_at 1000000
              [geocode_429; Responds geocode_unavailable; geocode_at 10 20] [])
           (geocode_found 10 20)
           (Geocoding.GValue None "{}"
              (Some {| Geocoding.loc_name := "Somewhere";
                       Geocoding.loc_coordinates := Some [integer 10; integer 20];
                       Geocoding.loc_zoom := integer 10;
                       Geocoding.loc_description := None |}))
           (somewhere 10 20) [] Miss).
  - unfold Geocoding.MAX_RETRIES. simpl. lia.
  - constructor; [left; reflexivity|]. constructor; [right; simpl; lia|]. constructor.
  - reflexivity.
  - reflexivity.
  - reflexivity.
  - reflexivity.
Defined.

(** ** The pipeline as a whole *)

Section PipelineWhole.

Variable J : Type.
Variable extractLocationNames : string -> list string.
Variable geocode : string -> M J (option Location).
Variable gap : Z.

Let detect := Geocoding.detectAndGeocodeLocation_with extractLocationNames geocode.

(** The handler of every [catch] of the pipeline leaves the world as the
    failed call left it. *)
Lemma guarded_after (m : M J (option Location)) w :
  after (try_catch m
           (fun error => if is_rate_limit_message error then throw error else ret None)) w =
  after m w.
Proof.
  unfold after, try_catch. destruct (m w) as [[found|e] w1]; [reflexivity|].
  destruct (is_rate_limit_message e); reflexivity.
Qed.

Hypothesis geocode_orderly : forall locationName w,
  orderly gap w (after (geocode locationName) w).

Lemma try_candidates_orderly names : forall w,
  orderly gap w (after (Geocoding.try_candidates geocode names) w).
Proof.
  induction names as [|n names IH]; intros w; [apply orderly_refl|].
  pose proof (geocode_orderly n w) as H. rewrite <- guarded_after in H.
  unfold after in *. cbn [Geocoding.try_candidates]. unfold bind at 1.
  destruct (try_catch (geocode n) _ w) as [[[l|]|e] w1]; simpl in *; auto.
  eapply orderly_trans; [exact H | apply IH].
Qed.

Lemma detect_orderly text w : orderly gap w (after (detect text) w).
Proof.
  unfold detect, Geocoding.detectAndGeocodeLocation_with.
  rewrite guarded_after.
  destruct (Geocoding.detectPredefinedLocation text) as [l|]; [apply orderly_refl|].
  pose proof (try_candidates_orderly (extractLocationNames text) w) as H.
  unfold after in H |- *. unfold bind.
  destruct (Geocoding.try_candidates geocode (extractLocationNames text) w)
    as [[[l|]|e] w1]; simpl in *; auto.
  eapply orderly_trans; [exact H|].
  pose proof (geocode_orderly text w1) as H1. rewrite <- guarded_after in H1.
  unfold after in H1. exact H1.
Qed.

Hypothesis geocode_valid : forall locationName w location w',
  geocode locationName w = (Return (Some location), w') ->
  valid_location location = true.

Lemma try_candidates_valid names : forall w location w',
  Geocoding.try_candidates geocode names w = (Return (Some location), w') ->
  valid_location location = true.
Proof.
  induction names as [|n names IH]; intros w location w'; [discriminate|].
  cbn [Geocoding.try_candidates]. unfold bind, try_catch.
  destruct (geocode n w) as [[[l|]|e] w1] eqn:E.
  - intros [= <- <-]. eapply geocode_valid, E.
  - apply IH.
  - destruct (is_rate_limit_message e); [discriminate | apply IH].
Qed.

Lemma detect_outcome text w :
  match fst (detect text w) with
  | Return (Some location) => valid_location location = true
  | Return None => True
  | Throw e => is_rate_limit_message e = true
  end.
Proof.
  unfold detect, Geocoding.detectAndGeocodeLocation_with, try_catch.
  destruct (Geocoding.detectPredefinedLocation text) as [l|] eqn:Hit.
  - simpl. eapply detectPredefinedLocation_valid, Hit.
  - unfold bind.
    destruct (Geocoding.try_candidates geocode (extractLocationNames text) w)
      as [[[l|]|e] w1] eqn:E; simpl.
    + eapply try_candidates_valid, E.
    + destruct (geocode text w1) as [[[l|]|e] w2] eqn:G; simpl; auto.
      * eapply geocode_valid, G.
      * destruct (is_rate_limit_message e) eqn:R; simpl; rewrite ?R; auto.
    + destruct (is_rate_limit_message e) eqn:R; simpl; auto.
Qed.

End PipelineWhole.

(** X8.  Whatever candidates the extractor proposes and whatever the
    route answers, a location that [detectAndGeocodeLocation] returns has
    finite coordinates within [-180, 180] and [-90, 90], and an error that
    it throws reads as a rate-limiting error: every other failure, of any
    candidate or of the whole text, ends in [null]. *)
Theorem X8_pipeline_valid_locations_rate_limits_only
  (extractLocationNames : string -> list string) text (w : world Geocoding.geocode_json) :
  match fst (Geocoding.detectAndGeocodeLocation extractLocationNames text w) with
  | Return (Some location) =>
      exists x y : Q,
        coordinates location = (Finite x, Finite y) /\
        (-180 <= x)%Q /\ (x <= 180)%Q /\ (-90 <= y)%Q /\ (y <= 90)%Q
  | Return None => True
  | Throw e => is_rate_limit_message e = true
  end.
Proof.
  pose proof (@detect_outcome _ extractLocationNames geocode_by_default) as H.
  specialize (H (fun locationName w0 location w' E =>
                   proj1 (geocodeLocation_outcome locationName _ _ w0 E) location eq_refl)
                text w).
  unfold Geocoding.detectAndGeocodeLocation. fold geocode_by_default.
  destruct (fst (Geocoding.detectAndGeocodeLocation_with extractLocationNames
                   geocode_by_default text w)) as [[location|]|e]; auto.
  apply validateCoordinates_spec in H. destruct H as (x & y & X & Y & B).
  exists x, y. split; [|exact B].
  destruct (coordinates location) as [lon lat]. simpl in *. congruence.
Qed.

(** X9.  Whatever candidates the extractor proposes, the requests that a
    run of [detectAndGeocodeLocation] sends to the geocode route, over
    all its candidates, their retries and the whole text, leave at least
    2000 ms after one another, the first at least 2000 ms after the
    request time the module had recorded; so do the requests of any
    number of runs made one after the other. *)
Theorem X9_pipeline_requests_spaced
  (extractLocationNames : string -> list string)
  (runs : list (N * string)) (w : world Geocoding.geocode_json) :
  exists evs,
    trace (after (in_sequence
                    (map (fun run => (fst run,
                            Geocoding.detectAndGeocodeLocation extractLocationNames (snd run)))
                         runs)) w) = trace w ++ evs /\
    spaced 2000 (lastRequestTime w) (dispatches evs) /\
    forall i a b, nth_error (dispatches evs) i = Some a ->
                  nth_error (dispatches evs) (S i) = Some b -> a + 2000 <= b.
Proof.
  assert (O : orderly Geocoding.MIN_REQUEST_INTERVAL w
                (after (in_sequence
                    (map (fun run => (fst run,
                            Geocoding.detectAndGeocodeLocation extractLocationNames (snd run)))
                         runs)) w)).
  { apply in_sequence_orderly. apply Forall_forall. intros c I.
    apply in_map_iff in I. destruct I as (x & <- & _). intros w0. simpl.
    apply detect_orderly. intros locationName w1. apply geocodeLocation_orderly. }
  destruct O as (evs & T & Sp & _). exists evs. split; [exact T|]. split; [exact Sp|].
  intros i a b A B. eapply spaced_nth; eauto.
Qed.

(** ** [extractLocationNames] *)

Section ExtractFacts.

Variable split : string -> list string.
Variable trim : string -> string.
Variable initial_unchanged : string -> bool.

Let extract := Extract.extractLocationNames split trim initial_unchanged.

Lemma join_nonempty phrase :
  phrase <> [] -> Forall (fun word => word <> EmptyString) phrase ->
  Extract.join phrase <> EmptyString.
Proof.
  destruct phrase as [|w [|w' rest]]; [congruence | |]; intros _ H;
    apply Forall_inv in H.
  - exact H.
  - cbn [Extract.join]. destruct w; [congruence | discriminate].
Qed.

Lemma scan_made_of all : forall words previous currentPhrase potentialLocations,
  incl (map trim words) all ->
  Forall (fun word => word <> EmptyString /\ initial_unchanged word = true /\ In word all)
    currentPhrase ->
  Forall (made_of initial_unchanged all) potentialLocations ->
  Forall (made_of initial_unchanged all)
    (Extract.scan trim initial_unchanged previous words currentPhrase potentialLocations).
Proof.
  assert (flush : forall currentPhrase potentialLocations,
             currentPhrase <> [] ->
             Forall (fun word => word <> EmptyString /\ initial_unchanged word = true /\
                                 In word all) currentPhrase ->
             Forall (made_of initial_unchanged all) potentialLocations ->
             Forall (made_of initial_unchanged all)
               (potentialLocations ++ [Extract.join currentPhrase])).
  { intros cp pl N G F. apply Forall_app. split; [exact F|].
    constructor; [|constructor]. exists cp. auto. }
  induction words as [|next words IH]; intros previous cp pl I G F.
  - cbn [Extract.scan]. destruct cp as [|w cp]; [exact F|].
    apply flush; auto. discriminate.
  - assert (I' : incl (map trim words) all).
    { intros x Hx. apply I. right. exact Hx. }
    assert (Here : In (trim next) all) by (apply I; left; reflexivity).
    cbn [Extract.scan]. cbv zeta.
    destruct (trim next) as [|c s] eqn:W; [apply IH; auto|].
    destruct ((match previous with None => true | Some _ => false end)
              && initial_unchanged (String c s)); [apply IH; auto|].
    destruct (initial_unchanged (String c s)) eqn:Up; cbn [andb].
    + destruct (match previous with
                | None => true
                | Some p => negb (Extract.endsWith_period p)
                end).
      * apply IH; auto. apply Forall_app. split; [exact G|].
        constructor; [|constructor]. split; [discriminate|]. auto.
      * destruct cp as [|w cp]; [apply IH; auto|].
        apply IH; auto. apply flush; auto. discriminate.
    + destruct cp as [|w cp]; [apply IH; auto|].
      apply IH; auto. apply flush; auto. discriminate.
Qed.

End ExtractFacts.

(** X10.  Every candidate that [extractLocationNames] proposes is made of
    words of the text: one or more of them, each non-empty once trimmed
    and passing the test [word[0] === word[0].toUpperCase()], joined by
    single spaces.  The test is the one of the code: it holds of a word
    whose first character [toUpperCase] leaves as it is, so of a word that
    starts with a digit or a punctuation mark as much as of a capitalised
    one.  No candidate is the empty string, and a text none of whose words
    passes the test, each starting with a lower-case letter, has no
    candidate at all. *)
Theorem X10_candidates_made_of_words
  (split : string -> list string) (trim : string -> string)
  (initial_unchanged : string -> bool) text :
  Forall (fun candidate =>
            candidate <> EmptyString /\
            made_of initial_unchanged (map trim (split text)) candidate)
    (Extract.extractLocationNames split trim initial_unchanged text) /\
  ((forall word, In word (map trim (split text)) -> initial_unchanged word = false) ->
   Extract.extractLocationNames split trim initial_unchanged text = []).
Proof.
  assert (H : Forall (made_of initial_unchanged (map trim (split text)))
                (Extract.extractLocationNames split trim initial_unchanged text)).
  { unfold Extract.extractLocationNames. apply scan_made_of; auto.
    intros x Hx. exact Hx. }
  split.
  - rewrite Forall_forall in *. intros c Hc. split; [|apply H, Hc].
    destruct (H c Hc) as (phrase & N & -> & G). apply join_nonempty; [exact N|].
    rewrite Forall_forall in *. intros w Hw. apply (G w Hw).
  - intros Low.
    destruct (Extract.extractLocationNames split trim initial_unchanged text) as [|c rest];
      [reflexivity|].
    apply Forall_inv in H. destruct H as ([|w phrase] & N & _ & G); [congruence|].
    apply Forall_inv in G. destruct G as (_ & Up & Hw).
    rewrite (Low w Hw) in Up. discriminate.
Qed.

(** X11.  A text of a single word has no candidate, whatever its letter
    case, and [detectAndGeocodeLocation] then is [geocodeLocation] on the
    whole text at its default arguments: same result, same requests, same
    waits. *)
Theorem X11_single_word_text
  (split : string -> list string) (trim : string -> string)
  (initial_unchanged : string -> bool) text word (w : world Geocoding.geocode_json) :
  split text = [word] ->
  Extract.extractLocationNames split trim initial_unchanged text = [] /\
  Geocoding.detectAndGeocodeLocation
    (Extract.extractLocationNames split trim initial_unchanged) text w =
  Geocoding.geocodeLocation text Geocoding.MAX_RETRIES Geocoding.INITIAL_RETRY_DELAY w.
Proof.
  intros One.
  assert (E : Extract.extractLocationNames split trim initial_unchanged text = []).
  { unfold Extract.extractLocationNames. rewrite One. cbn [Extract.scan]. cbv zeta.
    destruct (trim word) as [|c s]; [reflexivity|].
    destruct (initial_unchanged (String c s)); reflexivity. }
  split; [exact E|].
  unfold Geocoding.detectAndGeocodeLocation.
  destruct (Geocoding.detectPredefinedLocation text) as [l|] eqn:Hit.
  - erewrite detect_predefined by exact Hit.
    erewrite geocodeLocation_hit by exact Hit. reflexivity.
  - destruct (Geocoding.geocodeLocation text Geocoding.MAX_RETRIES
                Geocoding.INITIAL_RETRY_DELAY w) as [o w2] eqn:G.
    erewrite detect_whole_text; [| exact Hit | rewrite E; reflexivity | exact G].
    destruct o as [found|e]; [reflexivity|].
    destruct (geocodeLocation_outcome _ _ _ _ G) as [_ R].
    rewrite (R e eq_refl). reflexivity.
Qed.

Lemma X11_single_word_text_witness :
  Extract.split_ascii "atlantis" = ["atlantis"] /\
  Extract.extractLocationNames Extract.split_ascii (fun word => word)
    Extract.initial_unchanged_ascii "atlantis" = [] /\
  Geocoding.detectAndGeocodeLocation
    (Extract.extractLocationNames Extract.split_ascii (fun word => word)
       Extract.initial_unchanged_ascii)
    "atlantis" (world_at 1000000 [geocode_at 10 20] []) =
  Geocoding.geocodeLocation "atlantis" Geocoding.MAX_RETRIES Geocoding.INITIAL_RETRY_DELAY
    (world_at 1000000 [geocode_at 10 20] []).
Proof.
  split; [reflexivity|].
  apply (@X11_single_word_text Extract.split_ascii (fun word => word)
           Extract.initial_unchanged_ascii "atlantis" "atlantis"
           (world_at 1000000 [geocode_at 10 20] [])).
  reflexivity.
Defined.

(** In "il y a 3 pommes" the word "3" passes the test and is proposed. *)
Lemma X10_candidates_made_of_words_witness :
  Extract.extractLocationNames Extract.split_ascii (fun word => word)
    Extract.initial_unchanged_ascii "il y a 3 pommes" = ["3"] /\
  Forall (fun candidate =>
            candidate <> EmptyString /\
            made_of Extract.initial_unchanged_ascii
              ["il"; "y"; "a"; "3"; "pommes"] candidate)
    ["3"].
Proof.
  split; [reflexivity|].
  exact (proj1 (@X10_candidates_made_of_words Extract.split_ascii
                  (fun word => word) Extract.initial_unchanged_ascii "il y a 3 pommes")).
Defined.

Example candidates_of_a_sentence :
  Extract.extractLocationNames Extract.split_ascii (fun word => word)
    Extract.initial_unchanged_ascii lyon_then_nice = ["Lyon"; "Nice"] /\
  Extract.extractLocationNames Extract.split_ascii (fun word => word)
    Extract.initial_unchanged_ascii "le train de 8h47 pour Lyon." = ["8h47"; "Lyon."].
Proof. vm_compute. split; reflexivity. Qed.

(** ** The chat route under rate limiting and failures *)

(** X12.  [fetchWithRetry] retries on 429 only: a response with any other
    status, a server error of the completion service included, is handed
    back to the caller after that single request, whatever retries are
    left. *)
Theorem X12_fetchWithRetry_returns_other_statuses url options retries delay
  (w : world ChatRoute.completion_json) r :
  fetched (upstream w) = Return r ->
  status r <> 429 ->
  ChatRoute.fetchWithRetry url options retries delay w =
  (Return r, after (attempt ChatRoute.MIN_OPENAI_REQUEST_INTERVAL url options) w).
Proof.
  intros F N. apply Z.eqb_neq in N.
  rewrite fetchWithRetry_unfold. unfold ChatRoute.fetchWithRetry_body.
  rewrite bind_try_attempt, F. run. rewrite N. reflexivity.
Qed.

Lemma X12_fetchWithRetry_returns_other_statuses_witness :
  ChatRoute.fetchWithRetry completion_url (ChatBody [bonjour]) ChatRoute.MAX_RETRIES
    ChatRoute.INITIAL_RETRY_DELAY
    (world_at 1000000 [Responds completion_broken; completion_200 "Partez."] []) =
  (Return completion_broken,
   {| clock := 1000000; lastRequestTime := 1000000;
      upstream := [completion_200 "Partez."]; lag := [];
      trace := [Dispatch 1000000 completion_url (ChatBody [bonjour])] |}).
Proof.
  rewrite (@X12_fetchWithRetry_returns_other_statuses completion_url (ChatBody [bonjour])
             ChatRoute.MAX_RETRIES ChatRoute.INITIAL_RETRY_DELAY
             (world_at 1000000 [Responds completion_broken; completion_200 "Partez."] [])
             completion_broken).
  - reflexivity.
  - reflexivity.
  - discriminate.
Defined.

(** A 429 or a network failure with retries left: sleep and start again. *)
Lemma fetchWithRetry_retried url options retries delay
  (w : world ChatRoute.completion_json) :
  match fetched (upstream w) with
  | Return r => status r = 429
  | Throw _ => True
  end ->
  ChatRoute.fetchWithRetry url options (S retries) delay w =
  ChatRoute.fetchWithRetry url options retries (Z.min (delay * 2) ChatRoute.MAX_RETRY_DELAY)
    (after (sleep Backoff delay)
       (after (attempt ChatRoute.MIN_OPENAI_REQUEST_INTERVAL url options) w)).
Proof.
  intros H. rewrite fetchWithRetry_unfold. unfold ChatRoute.fetchWithRetry_body.
  rewrite bind_try_attempt. destruct (fetched (upstream w)) as [r|e]; run.
  - rewrite H. reflexivity.
  - reflexivity.
Qed.

(** Under 429 after 429, or network failures, [fetchWithRetry] uses all
    its retries and ends as its last request ended. *)
Lemma fetchWithRetry_exhausted url options retries :
  forall delay (w : world ChatRoute.completion_json) failing rest,
    List.length failing = S retries ->
    Forall (fun a => match a with
                     | Responds r => status r = 429
                     | NetworkError _ => True
                     end) failing ->
    upstream w = failing ++ rest ->
    exists w' evs,
      ChatRoute.fetchWithRetry url options retries delay w =
        (fetched [last failing (NetworkError "")], w') /\
      upstream w' = rest /\
      trace w' = trace w ++ evs /\
      List.length (dispatches evs) = S retries /\
      backoffs evs = capped ChatRoute.MAX_RETRY_DELAY delay retries.
Proof.
  induction retries as [|retries IH]; intros delay w failing rest Len All U.
  - destruct failing as [|a [|? ?]]; try discriminate.
    apply Forall_inv in All.
    destruct (attempt_alone ChatRoute.MIN_OPENAI_REQUEST_INTERVAL url options w)
      as (evs & T & D & B).
    eexists. exists evs. split; [|split; [|split; [exact T|]]].
    + rewrite fetchWithRetry_unfold. unfold ChatRoute.fetchWithRetry_body.
      rewrite bind_try_attempt, U. destruct a as [r|e]; run; [|reflexivity].
      rewrite All. reflexivity.
    + rewrite attempt_upstream, U. reflexivity.
    + rewrite D, B. split; reflexivity.
  - destruct failing as [|a failing]; [discriminate|].
    injection Len as Len. inversion All as [|? ? St All']; subst.
    rewrite fetchWithRetry_retried.
    2:{ rewrite U. destruct a as [r|e]; simpl; auto. }
    set (w1 := after (sleep Backoff delay)
                 (after (attempt ChatRoute.MIN_OPENAI_REQUEST_INTERVAL url options) w)).
    destruct (IH (Z.min (delay * 2) ChatRoute.MAX_RETRY_DELAY) w1 failing rest Len All')
      as (w' & evs & E & U' & T & D & B).
    { unfold w1. change (upstream (after (sleep Backoff delay) ?x)) with (upstream x).
      rewrite attempt_upstream, U. reflexivity. }
    apply attempt_then_backoff in T. destruct T as (evs' & T' & D' & B').
    exists w', evs'. repeat split; auto.
    + rewrite E. f_equal. f_equal. f_equal.
      destruct failing as [|b failing]; [discriminate | reflexivity].
    + rewrite D'. simpl. rewrite D. reflexivity.
    + rewrite B', B. reflexivity.
Qed.

(** X13.  When every request of a call of [fetchWithRetry] meets a 429 or
    a network failure, the call uses all its retries, [retries + 1]
    requests with the delays [delay], [min (2 * delay) MAX_RETRY_DELAY],
    ... between them, and ends as its last request ended: the last 429
    response is returned as it is, the last network failure is thrown. *)
Theorem X13_fetchWithRetry_gives_up url options retries delay
  (w : world ChatRoute.completion_json) failing rest :
  List.length failing = S retries ->
  Forall (fun a => match a with
                   | Responds r => status r = 429
                   | NetworkError _ => True
                   end) failing ->
  upstream w = failing ++ rest ->
  exists w' evs,
    ChatRoute.fetchWithRetry url options retries delay w =
      (fetched [last failing (NetworkError "")], w') /\
    upstream w' = rest /\
    trace w' = trace w ++ evs /\
    List.length (dispatches evs) = S retries /\
    backoffs evs = capped ChatRoute.MAX_RETRY_DELAY delay retries.
Proof. apply fetchWithRetry_exhausted. Qed.

Lemma X13_fetchWithRetry_gives_up_witness :
  exists w' evs,
    ChatRoute.fetchWithRetry completion_url (ChatBody [bonjour]) ChatRoute.MAX_RETRIES
      ChatRoute.INITIAL_RETRY_DELAY
      (world_at 1000000
         [completion_429; NetworkError "socket hang up"; completion_429; completion_429] []) =
      (Return completion_limited, w') /\
    upstream w' = [] /\
    trace w' = [] ++ evs /\
    List.length (dispatches evs) = 4%nat /\
    backoffs evs = [1000; 2000; 4000].
Proof.
  apply (@X13_fetchWithRetry_gives_up completion_url (ChatBody [bonjour])
           ChatRoute.MAX_RETRIES ChatRoute.INITIAL_RETRY_DELAY
           (world_at 1000000
              [completion_429; NetworkError "socket hang up"; completion_429;
               completion_429] [])
           [completion_429; NetworkError "socket hang up"; completion_429; completion_429]
           []).
  - reflexivity.
  - repeat constructor.
  - reflexivity.
Defined.

(** Waits hold no request; every request of a retry loop goes to the
    same URL with the same body. *)
Lemma quiet_no_request evs t u b : dispatches evs = [] -> ~ In (Dispatch t u b) evs.
Proof.
  induction evs as [|e evs IH]; intros D; [intros []|].
  destruct e; simpl in D; try discriminate;
    intros [H | H]; try discriminate; revert H; apply IH, D.
Qed.

Lemma retry_trace_requests url body next n : forall delay evs,
  retry_trace url body next delay n evs ->
  forall t u b, In (Dispatch t u b) evs -> u = url /\ b = body.
Proof.
  induction n as [|n IH]; intros delay evs (waits & t0 & [D _] & H) t u b I.
  - subst evs. apply in_app_or in I. destruct I as [I | [I | []]].
    + exfalso. eapply quiet_no_request; eauto.
    + injection I as _ <- <-. auto.
  - destruct H as (rest & -> & H). apply in_app_or in I. destruct I as [I | I].
    + exfalso. eapply quiet_no_request; eauto.
    + destruct I as [I | [I | I]]; [| discriminate | eapply IH; eauto].
      injection I as _ <- <-. auto.
Qed.

Lemma POST_served env messages :
  ChatRoute.configured env = true ->
  ChatRoute.POST env (ChatRoute.Body (Some messages)) =
  try_catch
    (r <- ChatRoute.fetchWithRetry (completions_url env)
            (ChatBody (ChatRoute.recentMessages messages))
            ChatRoute.MAX_RETRIES ChatRoute.INITIAL_RETRY_DELAY ;;
     if negb (ok r) then ret (ChatRoute.answer_error r) else ChatRoute.answer_success r)
    (fun _ => ret (ChatRoute.NextResponse_json (ChatRoute.reply ChatRoute.failed_reply) 200)).
Proof. intros C. unfold ChatRoute.POST. rewrite C. reflexivity. Qed.

(** With the configuration set and a list of messages, what the route
    does to the world is what its call of [fetchWithRetry] does. *)
Lemma POST_after env messages (w : world ChatRoute.completion_json) :
  ChatRoute.configured env = true ->
  after (ChatRoute.POST env (ChatRoute.Body (Some messages))) w =
  after (ChatRoute.fetchWithRetry (completions_url env)
           (ChatBody (ChatRoute.recentMessages messages))
           ChatRoute.MAX_RETRIES ChatRoute.INITIAL_RETRY_DELAY) w.
Proof.
  intros C. rewrite (@POST_served env messages C). unfold after, try_catch, bind.
  destruct (ChatRoute.fetchWithRetry (completions_url env)
              (ChatBody (ChatRoute.recentMessages messages))
              ChatRoute.MAX_RETRIES ChatRoute.INITIAL_RETRY_DELAY w) as [[r|e] w'];
    [|reflexivity].
  destruct (negb (ok r)); [reflexivity|].
  unfold ChatRoute.answer_success. repeat (branch; run); reflexivity.
Qed.

(** X14.  A request that the configured chat route serves leads to at
    most four requests to the completion service, all to the URL of the
    configured deployment and all with the same messages: the last five,
    at most, of the history with the system prompt put in front when it
    had no system entry. *)
Theorem X14_POST_sends_recent_messages env messages
  (w : world ChatRoute.completion_json) :
  ChatRoute.configured env = true ->
  exists n evs, (n <= 3)%nat /\
    trace (after (ChatRoute.POST env (ChatRoute.Body (Some messages))) w) = trace w ++ evs /\
    List.length (dispatches evs) = S n /\
    (forall t u b, In (Dispatch t u b) evs ->
       u = completions_url env /\ b = ChatBody (ChatRoute.recentMessages messages)) /\
    (List.length (ChatRoute.recentMessages messages) <= 5)%nat /\
    exists dropped,
      ChatRoute.messagesWithSystem messages = dropped ++ ChatRoute.recentMessages messages.
Proof.
  intros C. rewrite (@POST_after env messages w C).
  destruct (fetchWithRetry_trace (completions_url env)
              (ChatBody (ChatRoute.recentMessages messages))
              ChatRoute.MAX_RETRIES ChatRoute.INITIAL_RETRY_DELAY w) as (n & evs & N & T & R).
  exists n, evs. split; [exact N|]. split; [exact T|].
  split; [eapply retry_trace_dispatches, R|].
  split; [eapply retry_trace_requests, R|].
  apply recentMessages_spec.
Qed.

Lemma X14_POST_sends_recent_messages_witness :
  ChatRoute.configured full_configuration = true /\
  exists n evs, (n <= 3)%nat /\
    trace (after (ChatRoute.POST full_configuration (ChatRoute.Body (Some five_questions)))
             (world_at 1000000 [completion_429; completion_200 "Partez en Sicile."] [])) =
      [] ++ evs /\
    List.length (dispatches evs) = S n /\
    (forall t u b, In (Dispatch t u b) evs ->
       u = completions_url full_configuration /\
       b = ChatBody (ChatRoute.recentMessages five_questions)) /\
    (List.length (ChatRoute.recentMessages five_questions) <= 5)%nat /\
    exists dropped,
      ChatRoute.messagesWithSystem five_questions =
      dropped ++ ChatRoute.recentMessages five_questions.
Proof.
  split; [reflexivity|].
  apply (@X14_POST_sends_recent_messages full_configuration five_questions
           (world_at 1000000 [completion_429; completion_200 "Partez en Sicile."] [])).
  reflexivity.
Defined.

(** X15.  The chat route contacts the completion service only for a
    request it can serve.  When the body of the request does not parse,
    or its [messages] field is not an array, or a variable of the
    configuration is missing, it answers without any wait or request:
    with status 500 and the configuration error when the body parses and
    the configuration is incomplete, and with status 200 and the generic
    failure notice otherwise. *)
Theorem X15_POST_rejects_without_request env req
  (w : world ChatRoute.completion_json) :
  ChatRoute.configured env = false \/
  (forall messages, req <> ChatRoute.Body (Some messages)) ->
  ChatRoute.POST env req w =
  (Return
     match req with
     | ChatRoute.Unparseable _ =>
         ChatRoute.NextResponse_json (ChatRoute.reply ChatRoute.failed_reply) 200
     | ChatRoute.Body _ =>
         if ChatRoute.configured env
         then ChatRoute.NextResponse_json (ChatRoute.reply ChatRoute.failed_reply) 200
         else ChatRoute.NextResponse_json
                (ChatRoute.error "Service configuration error") 500
     end, w).
Proof.
  intros H. unfold ChatRoute.POST.
  destruct req as [e | [messages|]]; run; try reflexivity.
  - destruct H as [C | N]; [rewrite C; reflexivity|].
    exfalso. apply (N messages). reflexivity.
  - destruct (ChatRoute.configured env); reflexivity.
Qed.

Lemma X15_POST_rejects_without_request_witness :
  ChatRoute.configured no_configuration = false /\
  ChatRoute.POST no_configuration (ChatRoute.Body (Some [bonjour]))
    (world_at 1000000 [completion_200 "Partez."] []) =
  (Return (ChatRoute.NextResponse_json (ChatRoute.error "Service configuration error") 500),
   world_at 1000000 [completion_200 "Partez."] []).
Proof.
  split; [reflexivity|].
  apply (@X15_POST_rejects_without_request no_configuration
           (ChatRoute.Body (Some [bonjour]))
           (world_at 1000000 [completion_200 "Partez."] [])).
  left. reflexivity.
Defined.

(** X16.  When the completion service answers 429, with a body that
    parses, to all four requests the configured chat route makes for a
    request, the route answers with status 200 and the notice "je reçois
    trop de demandes", never with status 429; the four requests were
    1000, 2000 and 4000 ms of retry delay apart. *)
Theorem X16_POST_upstream_rate_limited env messages
  (w : world ChatRoute.completion_json) limited rest :
  ChatRoute.configured env = true ->
  List.length limited = 4%nat ->
  Forall (fun r => status r = 429 /\ exists data, json r = Return data) limited ->
  upstream w = map (@Responds _) limited ++ rest ->
  exists w' evs,
    ChatRoute.POST env (ChatRoute.Body (Some messages)) w =
      (Return (ChatRoute.NextResponse_json (ChatRoute.reply ChatRoute.too_many_reply) 200),
       w') /\
    upstream w' = rest /\
    trace w' = trace w ++ evs /\
    List.length (dispatches evs) = 4%nat /\
    backoffs evs = [1000; 2000; 4000].
Proof.
  intros C Len All U.
  destruct (@fetchWithRetry_exhausted (completions_url env)
              (ChatBody (ChatRoute.recentMessages messages))
              ChatRoute.MAX_RETRIES ChatRoute.INITIAL_RETRY_DELAY w
              (map (@Responds _) limited) rest) as (w' & evs & E & U' & T & D & B).
  { rewrite length_map. exact Len. }
  { apply Forall_forall. intros a I. apply in_map_iff in I. destruct I as (r & <- & I).
    rewrite Forall_forall in All. apply (All r I). }
  { exact U. }
  exists w', evs. split; [|auto].
  destruct limited as [|r1 [|r2 [|r3 [|r4 [|? ?]]]]]; try discriminate.
  assert (R4 : status r4 = 429 /\ exists data, json r4 = Return data).
  { rewrite Forall_forall in All. apply All. simpl. auto. }
  destruct R4 as (St & data & Js).
  rewrite (@POST_served env messages C). unfold try_catch, bind.
  rewrite E. simpl. unfold ok. rewrite St. simpl.
  unfold ChatRoute.answer_error. rewrite Js, St. reflexivity.
Qed.

Lemma X16_POST_upstream_rate_limited_witness :
  ChatRoute.configured full_configuration = true /\
  exists w' evs,
    ChatRoute.POST full_configuration (ChatRoute.Body (Some [bonjour]))
      (world_at 1000000
         [completion_429; completion_429; completion_429; completion_429] []) =
      (Return (ChatRoute.NextResponse_json (ChatRoute.reply ChatRoute.too_many_reply) 200),
       w') /\
    upstream w' = [] /\
    trace w' = [] ++ evs /\
    List.length (dispatches evs) = 4%nat /\
    backoffs evs = [1000; 2000; 4000].
Proof.
  split; [reflexivity|].
  apply (@X16_POST_upstream_rate_limited full_configuration [bonjour]
           (world_at 1000000
              [completion_429; completion_429; completion_429; completion_429] [])
           [completion_limited; completion_limited; completion_limited; completion_limited]
           []).
  - reflexivity.
  - reflexivity.
  - repeat constructor; eexists; reflexivity.
  - reflexivity.
Defined.

(** X17.  A failure of the chat call that has nothing to do with rate
    limiting, a network failure or an error status with a message without
    any rate-limiting mark, still counts on the page as a rate-limiting
    signal: [sendMessage] resolves to its generic failure notice, which
    ends in "réessayer dans quelques instants"; the turn adds one to the
    counter of consecutive signals, and the second such turn in a row
    raises the chat flag. *)
Theorem X17_plain_failure_counts_as_signal messages retries delay
  (w : world Api.chat_json) e t s :
  (fetched (upstream w) = Throw e \/
   exists r, fetched (upstream w) = Return r /\ ok r = false /\ status r <> 429 /\
             Api.error_message_of r = e) ->
  is_rate_limit_message e = false ->
  fst (Api.sendMessage messages retries delay w) = Return (Page.chat_reply t) ->
  Page.blank (Page.input t) = false ->
  Page.isChatRateLimited s = false ->
  Page.chat_reply t = Api.failed_reply /\
  Page.consecutiveErrorsRef (fst (Page.handleSendMessage t s)) =
    Page.consecutiveErrorsRef s + 1 /\
  Page.isChatRateLimited (fst (Page.handleSendMessage t s)) =
    (2 <=? Page.consecutiveErrorsRef s + 1).
Proof.
  intros F R E B C.
  rewrite (sendMessage_failure messages retries delay w F R) in E.
  injection E as E. symmetry in E.
  assert (Sg : Page.signals_rate_limit (Page.chat_reply t) = true).
  { rewrite E. vm_compute. reflexivity. }
  split; [exact E|].
  destruct (chat_signal t s B C Sg) as (H1 & H2 & _). split; [exact H1 | exact H2].
Qed.

Lemma X17_plain_failure_counts_as_signal_witness :
  Page.chat_reply chat_failed_turn = Api.failed_reply /\
  Page.consecutiveErrorsRef (fst (Page.handleSendMessage chat_failed_turn first_render)) =
    Page.consecutiveErrorsRef first_render + 1 /\
  Page.isChatRateLimited (fst (Page.handleSendMessage chat_failed_turn first_render)) =
    (2 <=? Page.consecutiveErrorsRef first_render + 1).
Proof.
  apply (@X17_plain_failure_counts_as_signal [bonjour] Api.MAX_RETRIES
           Api.INITIAL_RETRY_DELAY
           (world_at 1000000 [Responds chat_unavailable] [])
           "Service Unavailable" chat_failed_turn first_render).
  - right. exists chat_unavailable. repeat split. discriminate.
  - reflexivity.
  - reflexivity.
  - reflexivity.
  - reflexivity.
Defined.

(** ** The geocode route under rate limiting and failures *)

Lemma bind_try_fetch J A B url body (K : response J -> M J A) handler
  (G : A -> M J B) (w : world J) :
  bind (try_catch (r <- fetch url body ;; K r) handler) G w =
  match fetched (upstream w) with
  | Return r => bind (try_catch (K r) handler) G (after (fetch url body) w)
  | Throw e => bind (handler e) G (after (fetch url body) w)
  end.
Proof.
  unfold bind, try_catch, fetch, fetched, after.
  destruct (upstream w) as [|[r|e] ?]; reflexivity.
Qed.

Lemma fetch_after J url body (w : world J) :
  trace (after (fetch url body) w) = trace w ++ [Dispatch (clock w) url body] /\
  lastRequestTime (after (fetch url body) w) = lastRequestTime w /\
  upstream (after (fetch url body) w) = tl (upstream w) /\
  clock w <= clock (after (fetch url body) w).
Proof.
  unfold after, fetch. pose proof (next_lag_nonneg w).
  destruct (upstream w) as [|[r|e] ?]; simpl; repeat split; lia.
Qed.

Section GeocodeRouteMore.

Variable encodeURIComponent : string -> string.
Variable ToString : number -> string.

Let POST := GeocodeRoute.POST encodeURIComponent ToString.
Let delay := GeocodeRoute.MIN_REQUEST_INTERVAL * 2.

Lemma makeRequestWithRetry_unfold url retries :
  GeocodeRoute.makeRequestWithRetry url retries =
  GeocodeRoute.makeRequestWithRetry_body url
    match retries with
    | O => None
    | S retries' => Some (GeocodeRoute.makeRequestWithRetry url retries')
    end.
Proof. destruct retries; reflexivity. Qed.

(** One attempt of [makeRequestWithRetry] is a request, after which the
    call either ends or, retries being left, sleeps and starts again. *)
Lemma makeRequestWithRetry_body_step url again (w : world GeocodeRoute.azure_json) :
  let w1 := after (fetch url NoBody) w in
  after (GeocodeRoute.makeRequestWithRetry_body url again) w = w1 \/
  (exists k, again = Some k /\
     GeocodeRoute.makeRequestWithRetry_body url again w =
     k (after (sleep Backoff delay) w1)).
Proof.
  intros w1. unfold after at 1. unfold GeocodeRoute.makeRequestWithRetry_body.
  rewrite !bind_try_fetch. fold w1. run.
  repeat (branch; run);
    first [left; reflexivity | right; eexists; split; reflexivity].
Qed.

Lemma bare_retries_cons url d t times :
  times <> [] ->
  bare_retries url d (t :: times) =
  Dispatch t url NoBody :: Backoff d :: bare_retries url d times.
Proof. destruct times; [congruence | reflexivity]. Qed.

(** The events of a call of [makeRequestWithRetry]: at most [retries + 1]
    requests, the first at once, with a delay of 2000 ms between each and
    the next; the recorded request time is left as it was. *)
Lemma makeRequestWithRetry_events url retries : forall (w : world GeocodeRoute.azure_json),
  exists times,
    (1 <= List.length times <= S retries)%nat /\
    trace (after (GeocodeRoute.makeRequestWithRetry url retries) w) =
      trace w ++ bare_retries url delay times /\
    spaced delay (clock w - delay) times /\
    hd 0 times = clock w /\
    lastRequestTime (after (GeocodeRoute.makeRequestWithRetry url retries) w) =
      lastRequestTime w.
Proof.
  assert (base : forall retries w,
             after (GeocodeRoute.makeRequestWithRetry url retries) w =
               after (fetch url NoBody) w ->
             exists times,
               (1 <= List.length times <= S retries)%nat /\
               trace (after (GeocodeRoute.makeRequestWithRetry url retries) w) =
                 trace w ++ bare_retries url delay times /\
               spaced delay (clock w - delay) times /\
               hd 0 times = clock w /\
               lastRequestTime (after (GeocodeRoute.makeRequestWithRetry url retries) w) =
                 lastRequestTime w).
  { intros r w E. destruct (fetch_after url NoBody w) as (T & L & _ & _).
    exists [clock w]. rewrite E, T, L. simpl. repeat split; lia. }
  induction retries as [|retries IH]; intros w; rewrite makeRequestWithRetry_unfold.
  - destruct (makeRequestWithRetry_body_step url None w) as [E | (k & K & _)];
      [|discriminate].
    apply (base 0%nat). rewrite makeRequestWithRetry_unfold. exact E.
  - destruct (makeRequestWithRetry_body_step url
                (Some (GeocodeRoute.makeRequestWithRetry url retries)) w)
      as [E | (k & K & E)].
    + rewrite <- (makeRequestWithRetry_unfold url (S retries)).
      apply base. rewrite makeRequestWithRetry_unfold. exact E.
    + injection K as <-. unfold after at 1 2. rewrite E.
      set (w1 := after (fetch url NoBody) w) in *.
      fold (after (GeocodeRoute.makeRequestWithRetry url retries)
              (after (sleep Backoff delay) w1)).
      destruct (IH (after (sleep Backoff delay) w1)) as (times & Len & T & Sp & _ & L).
      destruct (fetch_after url NoBody w) as (T1 & L1 & _ & C1). fold w1 in T1, L1, C1.
      exists (clock w :: times). split; [simpl; lia|]. split; [|split; [|split]].
      * rewrite T. change (trace (after (sleep Backoff delay) w1))
          with (trace w1 ++ [Backoff delay]).
        rewrite T1, bare_retries_cons, <- !app_assoc; [reflexivity|].
        destruct times; [simpl in Len; lia | discriminate].
      * split; [lia|]. destruct times as [|t times]; [exact I|].
        destruct Sp as [Sp Rest]. split; [|exact Rest].
        change (clock (after (sleep Backoff delay) w1))
          with (clock w1 + Z.max 0 delay + next_lag w1) in Sp.
        pose proof (next_lag_nonneg w1). unfold delay, GeocodeRoute.MIN_REQUEST_INTERVAL in *.
        lia.
      * reflexivity.
      * rewrite L. change (lastRequestTime (after (sleep Backoff delay) w1))
          with (lastRequestTime w1). exact L1.
Qed.

(** Building the answer leaves the world as it is. *)
Lemma answer_world query data (w : world GeocodeRoute.azure_json) :
  snd (GeocodeRoute.answer ToString query data w) = w.
Proof.
  unfold GeocodeRoute.answer.
  destruct data as [|s [|[|[[[lon|] [lat|]]|] entityType address] results]];
    try reflexivity.
  destruct (negb (validateCoordinates lon lat)); reflexivity.
Qed.

(** A request with a query and the key set: the wait, the call of
    [makeRequestWithRetry], and the answer made of how it ended. *)
Lemma GeocodeRoute_POST_served apiKey query (w : world GeocodeRoute.azure_json) :
  query <> EmptyString ->
  unset apiKey = false ->
  POST apiKey (GeocodeRoute.Body query) w =
  let w0 := after (throttle GeocodeRoute.MIN_REQUEST_INTERVAL) w in
  let run := GeocodeRoute.makeRequestWithRetry
               (search_url encodeURIComponent query apiKey) GeocodeRoute.MAX_RETRIES w0 in
  match fst run with
  | Throw e =>
      (Return
         (if is_rate_limit_message e
          then GeocodeRoute.NextResponse_json
                 (GeocodeRoute.error "Too Many Requests: Service temporarily unavailable") 429
          else GeocodeRoute.NextResponse_json (GeocodeRoute.error e) 500),
       snd run)
  | Return data =>
      (Return
         match fst (GeocodeRoute.answer ToString query data (snd run)) with
         | Return resp => resp
         | Throw e => GeocodeRoute.NextResponse_json (GeocodeRoute.error e) 500
         end,
       snd run)
  end.
Proof.
  intros Q U. unfold POST, GeocodeRoute.POST.
  destruct query as [|c q]; [congruence|]. rewrite U.
  fold (search_url encodeURIComponent (String c q) apiKey).
  destruct (throttle_spec GeocodeRoute.MIN_REQUEST_INTERVAL w) as (w0 & R & _).
  unfold after, try_catch, bind, settle. rewrite R. cbn [snd].
  destruct (GeocodeRoute.makeRequestWithRetry
              (search_url encodeURIComponent (String c q) apiKey)
              GeocodeRoute.MAX_RETRIES w0) as [[data|e] w1]; cbn [fst snd].
  - pose proof (answer_world (String c q) data w1) as W.
    destruct (GeocodeRoute.answer ToString (String c q) data w1) as [[resp|e] w2];
      simpl in W; subst w2; reflexivity.
  - destruct (is_rate_limit_message e); reflexivity.
Qed.

End GeocodeRouteMore.

(** X18.  The geocode route contacts the search service only for a
    request it can serve.  A body that does not parse and an empty or
    missing query are answered with status 400, a missing key with status
    500, each without any wait, request or change of the recorded request
    time. *)
Theorem X18_geocode_route_rejects_without_request
  (encodeURIComponent : string -> string) (ToString : number -> string)
  apiKey req (w : world GeocodeRoute.azure_json) :
  req = GeocodeRoute.Unparseable \/ req = GeocodeRoute.Body "" \/ unset apiKey = true ->
  GeocodeRoute.POST encodeURIComponent ToString apiKey req w =
  (Return
     match req with
     | GeocodeRoute.Unparseable =>
         GeocodeRoute.NextResponse_json (GeocodeRoute.error "Invalid request format") 400
     | GeocodeRoute.Body EmptyString =>
         GeocodeRoute.NextResponse_json (GeocodeRoute.error "Query parameter is required") 400
     | GeocodeRoute.Body _ =>
         GeocodeRoute.NextResponse_json (GeocodeRoute.error "Configuration error") 500
     end, w).
Proof.
  intros H. unfold GeocodeRoute.POST.
  destruct req as [|[|c q]]; try reflexivity.
  destruct H as [H | [H | H]]; try discriminate. rewrite H. reflexivity.
Qed.

Lemma X18_geocode_route_rejects_without_request_witness :
  GeocodeRoute.POST (fun s => s) render None (GeocodeRoute.Body "Lyon")
    (world_at 1000000 [search_result 4 45] []) =
  (Return (GeocodeRoute.NextResponse_json (GeocodeRoute.error "Configuration error") 500),
   world_at 1000000 [search_result 4 45] []).
Proof.
  apply (@X18_geocode_route_rejects_without_request (fun s => s) render None
           (GeocodeRoute.Body "Lyon") (world_at 1000000 [search_result 4 45] [])).
  right. right. reflexivity.
Defined.

(** X19.  For a request it serves, the geocode route waits once, then
    makes at most three requests to the search service, all to the same
    URL, the first at the time it records and each next one at least 2000
    ms after the one before: the delay between retries is 2000 ms each
    time, it does not grow.  Nothing else happens in between, and the
    recorded request time stays that of the first request. *)
Theorem X19_geocode_route_requests
  (encodeURIComponent : string -> string) (ToString : number -> string)
  apiKey query (w : world GeocodeRoute.azure_json) :
  query <> EmptyString ->
  unset apiKey = false ->
  let w' := after (GeocodeRoute.POST encodeURIComponent ToString apiKey
                     (GeocodeRoute.Body query)) w in
  exists waits times,
    trace w' =
      trace w ++ waits ++ bare_retries (search_url encodeURIComponent query apiKey) 2000 times /\
    quiet waits /\
    (1 <= List.length times <= 3)%nat /\
    lastRequestTime w + 1000 <= hd 0 times /\
    (forall i a b, nth_error times i = Some a -> nth_error times (S i) = Some b ->
                   a + 2000 <= b) /\
    lastRequestTime w' = hd 0 times.
Proof.
  intros Q U w'.
  assert (E : w' = after (GeocodeRoute.makeRequestWithRetry
                            (search_url encodeURIComponent query apiKey)
                            GeocodeRoute.MAX_RETRIES)
                     (after (throttle GeocodeRoute.MIN_REQUEST_INTERVAL) w)).
  { unfold w', after at 1.
    rewrite (@GeocodeRoute_POST_served encodeURIComponent ToString apiKey query w Q U).
    cbv zeta. unfold after at 2.
    destruct (fst (GeocodeRoute.makeRequestWithRetry _ _ _)); reflexivity. }
  destruct (throttle_spec GeocodeRoute.MIN_REQUEST_INTERVAL w)
    as (w0 & R & L0 & G0 & _ & waits & T0 & D0 & B0).
  assert (W0 : after (throttle GeocodeRoute.MIN_REQUEST_INTERVAL) w = w0).
  { unfold after. rewrite R. reflexivity. }
  rewrite W0 in E.
  destruct (makeRequestWithRetry_events
              (search_url encodeURIComponent query apiKey) GeocodeRoute.MAX_RETRIES w0)
    as (times & Len & T & Sp & H & L).
  rewrite <- E in T, L.
  exists waits, times. repeat split; auto.
  - rewrite T, T0, <- app_assoc. reflexivity.
  - lia.
  - apply Len.
  - rewrite H. unfold GeocodeRoute.MIN_REQUEST_INTERVAL in G0. exact G0.
  - intros i a b A B. eapply spaced_nth; eauto.
  - rewrite L, H. exact L0.
Qed.

Lemma X19_geocode_route_requests_witness :
  exists waits times,
    trace (after (GeocodeRoute.POST (fun s => s) render (Some "key")
                    (GeocodeRoute.Body "Lyon")) retried_then_next) =
      trace retried_then_next ++ waits ++
      bare_retries (search_url (fun s => s) "Lyon" (Some "key")) 2000 times /\
    quiet waits /\
    (1 <= List.length times <= 3)%nat /\
    lastRequestTime retried_then_next + 1000 <= hd 0 times /\
    (forall i a b, nth_error times i = Some a -> nth_error times (S i) = Some b ->
                   a + 2000 <= b) /\
    lastRequestTime (after (GeocodeRoute.POST (fun s => s) render (Some "key")
                              (GeocodeRoute.Body "Lyon")) retried_then_next) = hd 0 times.
Proof.
  apply (@X19_geocode_route_requests (fun s => s) render (Some "key") "Lyon"
           retried_then_next).
  - discriminate.
  - reflexivity.
Defined.

(** Under 429 after 429, [makeRequestWithRetry] uses all its retries and
    throws the error "Too Many Requests". *)
Lemma makeRequestWithRetry_limited url retries :
  forall (w : world GeocodeRoute.azure_json) limited rest,
    List.length limited = S retries ->
    Forall (fun r => status r = 429) limited ->
    upstream w = map (@Responds _) limited ++ rest ->
    exists w',
      GeocodeRoute.makeRequestWithRetry url retries w = (Throw "Too Many Requests", w') /\
      upstream w' = rest /\
      List.length (dispatches (trace w')) =
        (List.length (dispatches (trace w)) + S retries)%nat.
Proof.
  induction retries as [|retries IH]; intros w limited rest Len All U;
    rewrite makeRequestWithRetry_unfold; unfold GeocodeRoute.makeRequestWithRetry_body;
    rewrite bind_try_fetch, U;
    (destruct limited as [|r limited]; [discriminate|]);
    inversion All as [|? ? St All']; subst; injection Len as Len;
    destruct (fetch_after url NoBody w) as (T1 & _ & U1 & _);
    set (w1 := after (fetch url NoBody) w) in *.
  - destruct limited; [|discriminate]. run.
    assert (NOk : ok r = false) by (unfold ok; rewrite St; reflexivity).
    rewrite St, NOk. cbn. unfold GeocodeRoute.error_message_of. rewrite St. cbn.
    eexists. split; [reflexivity|]. split.
    + rewrite U1, U. reflexivity.
    + rewrite T1, dispatches_app, length_app. reflexivity.
  - run. rewrite St. cbn.
    destruct (IH (after (sleep Backoff (GeocodeRoute.MIN_REQUEST_INTERVAL * 2)) w1)
                limited rest Len All')
      as (w' & E & U' & D).
    { change (upstream (after (sleep Backoff ?d) ?x)) with (upstream x).
      rewrite U1, U. reflexivity. }
    exists w'. split; [exact E|]. split; [exact U'|].
    rewrite D. change (trace (after (sleep Backoff ?d) ?x)) with (trace x ++ [Backoff d]).
    rewrite T1, !dispatches_app, !length_app. simpl. lia.
Qed.

(** X20.  When the search service answers 429 to all three requests the
    geocode route makes for a request it serves, the route answers with
    status 429 and the error "Too Many Requests: Service temporarily
    unavailable", which the client reads as rate limiting; the three
    answers are consumed. *)
Theorem X20_geocode_route_upstream_rate_limited
  (encodeURIComponent : string -> string) (ToString : number -> string)
  apiKey query (w : world GeocodeRoute.azure_json) limited rest :
  query <> EmptyString ->
  unset apiKey = false ->
  List.length limited = 3%nat ->
  Forall (fun r => status r = 429) limited ->
  upstream w = map (@Responds _) limited ++ rest ->
  exists w',
    GeocodeRoute.POST encodeURIComponent ToString apiKey (GeocodeRoute.Body query) w =
      (Return (GeocodeRoute.NextResponse_json
                 (GeocodeRoute.error Geocoding.too_many_requests) 429), w') /\
    upstream w' = rest /\
    List.length (dispatches (trace w')) = (List.length (dispatches (trace w)) + 3)%nat /\
    is_rate_limit_message Geocoding.too_many_requests = true.
Proof.
  intros Q U Len All Up.
  rewrite (@GeocodeRoute_POST_served encodeURIComponent ToString apiKey query w Q U).
  cbv zeta.
  destruct (throttle_spec GeocodeRoute.MIN_REQUEST_INTERVAL w)
    as (w0 & R & _ & _ & U0 & waits & T0 & D0 & _).
  assert (W0 : after (throttle GeocodeRoute.MIN_REQUEST_INTERVAL) w = w0).
  { unfold after. rewrite R. reflexivity. }
  rewrite W0.
  destruct (@makeRequestWithRetry_limited
              (search_url encodeURIComponent query apiKey) GeocodeRoute.MAX_RETRIES
              w0 limited rest Len All) as (w' & E & U' & D).
  { rewrite U0. exact Up. }
  rewrite E. cbn [fst snd].
  exists w'. split; [reflexivity|]. split; [exact U'|]. split; [|reflexivity].
  rewrite D, T0, dispatches_app, D0, app_nil_r. reflexivity.
Qed.

Lemma X20_geocode_route_upstream_rate_limited_witness :
  exists w',
    GeocodeRoute.POST (fun s => s) render (Some "key") (GeocodeRoute.Body "Lyon")
      (world_at 1000000 [search_429; search_429; search_429] []) =
      (Return (GeocodeRoute.NextResponse_json
                 (GeocodeRoute.error Geocoding.too_many_requests) 429), w') /\
    upstream w' = [] /\
    List.length (dispatches (trace w')) = (0 + 3)%nat /\
    is_rate_limit_message Geocoding.too_many_requests = true.
Proof.
  apply (@X20_geocode_route_upstream_rate_limited (fun s => s) render (Some "key") "Lyon"
           (world_at 1000000 [search_429; search_429; search_429] [])
           [search_limited; search_limited; search_limited] []).
  - discriminate.
  - reflexivity.
  - reflexivity.
  - repeat constructor.
  - reflexivity.
Defined.

(** A location in an answer of the route was built from a search result
    for the query of the request, which is not empty. *)
Lemma answer_location_of ToString query data (w : world GeocodeRoute.azure_json) resp w' l :
  GeocodeRoute.answer ToString query data w = (Return resp, w') ->
  GeocodeRoute.http_body resp = GeocodeRoute.location (Some l) ->
  exists lon lat entityType address,
    l = GeocodeRoute.location_of query lon lat entityType address.
Proof.
  unfold GeocodeRoute.answer.
  destruct data as [|s [|[|[[[lon|] [lat|]]|] entityType address] results]];
    run; try discriminate; try (intros [= <- <-]; discriminate).
  destruct (validateCoordinates lon lat); simpl; intros [= <- <-]; simpl;
    [|discriminate].
  intros [= <-]. eauto.
Qed.

Lemma GeocodeRoute_POST_location_of encodeURIComponent ToString apiKey req
  (w : world GeocodeRoute.azure_json) resp w' l :
  GeocodeRoute.POST encodeURIComponent ToString apiKey req w = (Return resp, w') ->
  GeocodeRoute.http_body resp = GeocodeRoute.location (Some l) ->
  exists query lon lat entityType address,
    req = GeocodeRoute.Body query /\ query <> EmptyString /\
    l = GeocodeRoute.location_of query lon lat entityType address.
Proof.
  unfold GeocodeRoute.POST, try_catch.
  destruct req as [|[|c query]]; run; try (intros [= <- <-]; discriminate).
  destruct (unset apiKey); run; try (intros [= <- <-]; discriminate).
  destruct (throttle GeocodeRoute.MIN_REQUEST_INTERVAL w) as [[[]|e] w0];
    try (intros [= <- <-]; discriminate).
  unfold settle.
  match goal with
  | |- context [GeocodeRoute.makeRequestWithRetry ?u ?n w0] =>
      destruct (GeocodeRoute.makeRequestWithRetry u n w0) as [[data|e] w1]
  end.
  - destruct (GeocodeRoute.answer ToString (String c query) data w1) as [[resp1|e] w2] eqn:A;
      intros [= <- <-]; [|discriminate].
    intros B. destruct (answer_location_of _ _ _ _ A B) as (lon & lat & et & ad & ->).
    exists (String c query), lon, lat, et, ad. repeat split. discriminate.
  - destruct (is_rate_limit_message e); intros [= <- <-]; discriminate.
Qed.

Lemma zoom_of_range entityType : 5 <= GeocodeRoute.zoom_of entityType <= 16.
Proof.
  unfold GeocodeRoute.zoom_of.
  repeat match goal with
         | |- context [if ?b then _ else _] => destruct b
         end; lia.
Qed.

Lemma truthy_or_nonempty x fallback :
  fallback <> EmptyString -> GeocodeRoute.truthy_or x fallback <> EmptyString.
Proof. destruct x as [[|c s]|]; simpl; auto; discriminate. Qed.

(** X21.  A location in an answer of the geocode route has a name that is
    not empty and a zoom level that is an integer from 5 to 16, whatever
    the search service returned as entity type and address; the zoom
    check of the static-map route accepts it. *)
Theorem X21_geocode_route_location_fields
  (encodeURIComponent : string -> string) (ToString : number -> string)
  apiKey req (w : world GeocodeRoute.azure_json) resp w' l :
  GeocodeRoute.POST encodeURIComponent ToString apiKey req w = (Return resp, w') ->
  GeocodeRoute.http_body resp = GeocodeRoute.location (Some l) ->
  name l <> EmptyString /\
  (exists z, zoom l = integer z /\ 5 <= z <= 16) /\
  isNaN (zoom l) || number_lt (zoom l) (integer 1) || number_lt (integer 20) (zoom l) = false.
Proof.
  intros E B.
  destruct (GeocodeRoute_POST_location_of _ _ _ _ _ E B)
    as (query & lon & lat & et & ad & _ & Q & ->).
  pose proof (zoom_of_range et) as Z.
  split; [|split].
  - unfold GeocodeRoute.location_of. cbn [name]. apply truthy_or_nonempty, Q.
  - exists (GeocodeRoute.zoom_of et). split; [reflexivity | exact Z].
  - cbn [zoom GeocodeRoute.location_of]. unfold integer, number_lt, number_le, isNaN.
    cbn [orb negb].
    assert (A : Qle_bool (inject_Z 1) (inject_Z (GeocodeRoute.zoom_of et)) = true).
    { apply Qle_bool_iff. rewrite <- Zle_Qle. lia. }
    assert (C : Qle_bool (inject_Z (GeocodeRoute.zoom_of et)) (inject_Z 20) = true).
    { apply Qle_bool_iff. rewrite <- Zle_Qle. lia. }
    rewrite A, C. reflexivity.
Qed.

Lemma X21_geocode_route_location_fields_witness :
  name (GeocodeRoute.location_of "Lyon" (integer 4) (integer 45) "Municipality" None)
    <> EmptyString /\
  (exists z, zoom (GeocodeRoute.location_of "Lyon" (integer 4) (integer 45)
                     "Municipality" None) = integer z /\ 5 <= z <= 16) /\
  isNaN (zoom (GeocodeRoute.location_of "Lyon" (integer 4) (integer 45) "Municipality" None))
  || number_lt (zoom (GeocodeRoute.location_of "Lyon" (integer 4) (integer 45)
                        "Municipality" None)) (integer 1)
  || number_lt (integer 20)
       (zoom (GeocodeRoute.location_of "Lyon" (integer 4) (integer 45) "Municipality" None))
  = false.
Proof.
  apply (@X21_geocode_route_location_fields (fun s => s) render (Some "key")
           (GeocodeRoute.Body "Lyon") (world_at 1000000 [search_result 4 45] [])
           (GeocodeRoute.NextResponse_json
              (GeocodeRoute.location
                 (Some (GeocodeRoute.location_of "Lyon" (integer 4) (integer 45)
                          "Municipality" None))) 200)
           (after (GeocodeRoute.POST (fun s => s) render (Some "key")
                     (GeocodeRoute.Body "Lyon"))
              (world_at 1000000 [search_result 4 45] []))).
  - vm_compute. reflexivity.
  - reflexivity.
Defined.

(** A failure that does not read as rate limiting ends
    [makeRequestWithRetry] at once, with that error. *)
Lemma makeRequestWithRetry_failure url retries (w : world GeocodeRoute.azure_json) e :
  (fetched (upstream w) = Throw e \/
   exists r, fetched (upstream w) = Return r /\ ok r = false /\ status r <> 429 /\
             GeocodeRoute.error_message_of r = e) ->
  is_rate_limit_message e = false ->
  GeocodeRoute.makeRequestWithRetry url retries w = (Throw e, after (fetch url NoBody) w).
Proof.
  intros [F | (r & F & NOk & N & <-)] R;
    rewrite makeRequestWithRetry_unfold; unfold GeocodeRoute.makeRequestWithRetry_body;
    rewrite bind_try_fetch, F; set (w1 := after (fetch url NoBody) w); run.
  - destruct retries; run; rewrite ?R; reflexivity.
  - apply Z.eqb_neq in N. rewrite N, NOk. cbn.
    destruct retries; run; rewrite ?R; reflexivity.
Qed.

(** X22.  The geocode route retries rate limiting only.  When the first
    request to the search service fails on the network, or is answered
    with a status that is neither a success nor 429, and the message of
    the error has none of the rate-limiting marks, the route answers with
    status 500 and that message after that single request. *)
Theorem X22_geocode_route_failure_not_retried
  (encodeURIComponent : string -> string) (ToString : number -> string)
  apiKey query (w : world GeocodeRoute.azure_json) e :
  query <> EmptyString ->
  unset apiKey = false ->
  (fetched (upstream w) = Throw e \/
   exists r, fetched (upstream w) = Return r /\ ok r = false /\ status r <> 429 /\
             GeocodeRoute.error_message_of r = e) ->
  is_rate_limit_message e = false ->
  exists w',
    GeocodeRoute.POST encodeURIComponent ToString apiKey (GeocodeRoute.Body query) w =
      (Return (GeocodeRoute.NextResponse_json (GeocodeRoute.error e) 500), w') /\
    upstream w' = tl (upstream w) /\
    List.length (dispatches (trace w')) = S (List.length (dispatches (trace w))).
Proof.
  intros Q U F R.
  rewrite (@GeocodeRoute_POST_served encodeURIComponent ToString apiKey query w Q U).
  cbv zeta.
  destruct (throttle_spec GeocodeRoute.MIN_REQUEST_INTERVAL w)
    as (w0 & Rn & _ & _ & U0 & waits & T0 & D0 & _).
  assert (W0 : after (throttle GeocodeRoute.MIN_REQUEST_INTERVAL) w = w0).
  { unfold after. rewrite Rn. reflexivity. }
  rewrite W0. rewrite <- U0 in F.
  rewrite (@makeRequestWithRetry_failure (search_url encodeURIComponent query apiKey)
             GeocodeRoute.MAX_RETRIES w0 e F R).
  cbn [fst snd]. rewrite R.
  destruct (fetch_after (search_url encodeURIComponent query apiKey) NoBody w0)
    as (T1 & _ & U1 & _).
  eexists. split; [reflexivity|]. split.
  - rewrite U1, U0. reflexivity.
  - rewrite T1, T0, !dispatches_app, D0, !length_app. simpl. lia.
Qed.

Lemma X22_geocode_route_failure_not_retried_witness :
  exists w',
    GeocodeRoute.POST (fun s => s) render (Some "key") (GeocodeRoute.Body "Lyon")
      (world_at 1000000 [Responds search_unavailable; search_result 4 45] []) =
      (Return (GeocodeRoute.NextResponse_json
                 (GeocodeRoute.error "API error: 503 - Service Unavailable") 500), w') /\
    upstream w' = [search_result 4 45] /\
    List.length (dispatches (trace w')) = 1%nat.
Proof.
  apply (@X22_geocode_route_failure_not_retried (fun s => s) render (Some "key") "Lyon"
           (world_at 1000000 [Responds search_unavailable; search_result 4 45] [])
           "API error: 503 - Service Unavailable").
  - discriminate.
  - reflexivity.
  - right. exists search_unavailable. repeat split. discriminate.
  - reflexivity.
Defined.

(** ** The static-map route *)

(** X23.  The static-map route rejects, with status 400, exactly the
    coordinates that [validateCoordinates] rejects and the zoom levels
    outside 1 to 20; what passes is answered with status 500 when the key
    of the map service is missing or empty, and with status 200 and a URL
    otherwise.  A URL never comes with another status than 200. *)
Theorem X23_static_map_status
  (parseFloat parseInt : string -> number) (ToString : number -> string) apiKey req :
  let longitude := parseFloat (StaticMap.param_or (StaticMap.longitude req) "0") in
  let latitude := parseFloat (StaticMap.param_or (StaticMap.latitude req) "0") in
  let zoom := parseInt (StaticMap.param_or (StaticMap.zoom_level req) "10") in
  let resp := StaticMap.GET parseFloat parseInt ToString apiKey req in
  StaticMap.http_status resp =
    (if negb (validateCoordinates longitude latitude) then 400
     else if negb (number_le (integer 1) zoom && number_le zoom (integer 20)) then 400
     else if unset apiKey then 500
     else 200) /\
  match StaticMap.http_body resp with
  | StaticMap.url _ => StaticMap.http_status resp = 200
  | StaticMap.error _ => StaticMap.http_status resp <> 200
  end.
Proof.
  intros longitude latitude zoom resp. unfold resp, StaticMap.GET.
  fold longitude latitude zoom.
  unfold validateCoordinates, number_lt, number_le, isNaN, integer.
  destruct longitude as [|[]|x]; destruct latitude as [|[]|y];
    destruct zoom as [|[]|z]; cbn;
    repeat match goal with
           | |- context [Qle_bool ?a ?b] => destruct (Qle_bool a b); cbn
           end;
    try (destruct apiKey as [[|c k]|]; cbn); split; (reflexivity || discriminate).
Qed.

(** ** The fallback map, [fetchMapUrl] *)

(** X24.  The fallback map asks the static-map route once and never
    retries.  For a location with valid coordinates it always ends with a
    map URL that is not empty, and never with its error flag.  When the
    route answered with a success whose body carries a URL that is not
    empty, the map URL is that URL; in every other case, a 429, any other
    error status, a network failure or a success without a URL, it is the
    OpenStreetMap URL centred on the location, latitude first.  For a
    location with invalid coordinates it sets its error flag and makes no
    request. *)
Theorem X24_fallback_map_url (ToString : number -> string) location
  (s : MapFallback.state) (w : world static_json) :
  let (longitude, latitude) := coordinates location in
  let zoom := zoom_or_10 location in
  let osm := MapFallback.osmUrl ToString longitude latitude zoom in
  if valid_location location then
    exists u,
      MapFallback.fetchMapUrl ToString location s w =
        (Return (MapFallback.setMapUrl u s),
         after (fetch (MapFallback.static_map_request ToString longitude latitude zoom)
                  NoBody) w) /\
      u <> EmptyString /\
      (forall r carried,
         fetched (upstream w) = Return r -> ok r = true ->
         json r = Return (SValue (Some carried)) -> carried <> EmptyString ->
         u = carried) /\
      (u = osm \/
       exists r, fetched (upstream w) = Return r /\ ok r = true /\
                 json r = Return (SValue (Some u))) /\
      (forall r, fetched (upstream w) = Return r -> ok r = false -> u = osm) /\
      (forall r, fetched (upstream w) = Return r -> status r = 429 -> u = osm) /\
      (forall e, fetched (upstream w) = Throw e -> u = osm) /\
      (MapFallback.imageError s = false -> MapFallback.isRateLimited s = false ->
       MapFallback.render (MapFallback.setMapUrl u s) = MapFallback.Image u)
  else
    MapFallback.fetchMapUrl ToString location s w =
      (Return (MapFallback.setImageError true s), w) /\
    MapFallback.render (MapFallback.setImageError true s) = MapFallback.Unavailable.
Proof.
  unfold valid_location, MapFallback.fetchMapUrl.
  destruct (coordinates location) as [longitude latitude]. cbn [fst snd]. cbv zeta.
  destruct (validateCoordinates longitude latitude); cbn [negb]; [|split; reflexivity].
  set (osm := MapFallback.osmUrl ToString longitude latitude (zoom_or_10 location)).
  assert (Osm : osm <> EmptyString) by (unfold osm, MapFallback.osmUrl; discriminate).
  assert (Shown : forall u, u <> EmptyString ->
            MapFallback.imageError s = false -> MapFallback.isRateLimited s = false ->
            MapFallback.render (MapFallback.setMapUrl u s) = MapFallback.Image u).
  { intros u N E R. unfold MapFallback.render. cbn. rewrite E, R. cbn.
    destruct u; [congruence | reflexivity]. }
  assert (Limited : forall r : response static_json,
            (status r =? 429) = true -> ok r = false).
  { intros r St. apply Z.eqb_eq in St. unfold ok. rewrite St. reflexivity. }
  unfold try_catch, bind, fetch, fetched, after.
  destruct (upstream w) as [|[r|e] rest]; cbn.
  - exists osm. repeat split; auto; intros; discriminate.
  - destruct (status r =? 429) eqn:St; cbn.
    + apply Limited in St.
      exists osm. repeat split; auto.
      intros r0 carried [= <-] Ok0. congruence.
    + destruct (ok r) eqn:Ok; cbn.
      * destruct (json r) as [[|[[|c u]|]]|e] eqn:Js; cbn;
          try (exists osm; repeat split; auto;
               intros r0 carried [= <-] Ok0 Js0 N0; congruence).
        exists (String c u). repeat split; auto; try discriminate.
        -- intros r0 carried [= <-] Ok0 Js0 N0. congruence.
        -- right. exists r. auto.
        -- intros r0 [= <-] Ok0. congruence.
        -- intros r0 [= <-] S9. apply Z.eqb_neq in St. contradiction.
        -- apply Shown. discriminate.
      * exists osm. repeat split; auto.
        intros r0 carried [= <-] Ok0. congruence.
  - exists osm. repeat split; auto; intros; discriminate.
Qed.

(** ** The map component, [generateStaticMap] *)

(** The range check written out in the components and the static-map
    route is the negation of [validateCoordinates]. *)
Lemma range_check lon lat :
  isNaN lon || isNaN lat ||
  number_lt lon (integer (-180)) || number_lt (integer 180) lon ||
  number_lt lat (integer (-90)) || number_lt (integer 90) lat =
  negb (validateCoordinates lon lat).
Proof.
  unfold validateCoordinates, number_lt, number_le, isNaN, integer.
  destruct lon as [|[]|x]; destruct lat as [|[]|y]; cbn; try reflexivity;
    repeat match goal with
           | |- context [Qle_bool ?a ?b] => destruct (Qle_bool a b); cbn
           end; reflexivity.
Qed.

(** How a run of [generateStaticMap] ends: on invalid coordinates, on a
    success that carries a URL, on a 429, and on anything else. *)
Lemma generateStaticMap_run (ToString : number -> string) location
  (s : MapComponent.state) (w : world static_json) :
  let w1 := after (attempt MapComponent.MIN_REQUEST_INTERVAL
                     (MapFallback.static_map_request ToString
                        (fst (coordinates location)) (snd (coordinates location))
                        (zoom_or_10 location)) NoBody) w in
  (valid_location location = false /\
   exists details,
     MapComponent.generateStaticMap ToString location s w =
     (Return (MapComponent.fail (MapComponent.setErrorDetails details s)), w)) \/
  (valid_location location = true /\
   ((exists u r, u <> EmptyString /\ fetched (upstream w) = Return r /\ ok r = true /\
                 json r = Return (SValue (Some u)) /\
                 MapComponent.generateStaticMap ToString location s w =
                 (Return (MapComponent.setStaticMapUrl u s), w1)) \/
    (exists r details, fetched (upstream w) = Return r /\ status r = 429 /\
                 MapComponent.generateStaticMap ToString location s w =
                 (Return (MapComponent.fail
                            (MapComponent.setErrorDetails details
                               (MapComponent.setIsRateLimited true s))), w1)) \/
    (((forall r, fetched (upstream w) = Return r -> status r <> 429) /\
      (forall r carried, fetched (upstream w) = Return r -> ok r = true ->
                         json r = Return (SValue (Some carried)) ->
                         carried <> EmptyString -> False)) /\
     MapComponent.generateStaticMap ToString location s w =
     (Return (MapComponent.fail s), w1)))).
Proof.
  intros w1. unfold valid_location, MapComponent.generateStaticMap in *.
  destruct (coordinates location) as [longitude latitude]. cbn [fst snd] in *.
  cbv zeta. rewrite range_check.
  destruct (validateCoordinates longitude latitude); cbn [negb].
  - right. split; [reflexivity|]. rewrite try_attempt. fold w1.
    destruct (fetched (upstream w)) as [r|e] eqn:F.
    + destruct (status r =? 429) eqn:St; run.
      * right. left. exists r. eexists. apply Z.eqb_eq in St. repeat split; auto.
      * assert (N : forall r0, Return r = Return r0 -> status r0 <> 429).
        { intros r0 [= <-]. apply Z.eqb_neq, St. }
        destruct (ok r) eqn:Ok; cbn.
        2:{ right. right. split; [split; [exact N|] | reflexivity].
            intros r0 carried [= <-] Ok0. congruence. }
        destruct (json r) as [[|[[|c u]|]]|e] eqn:Js; cbn;
          try (right; right; (split; [split; [exact N|] | reflexivity]);
               intros r0 carried [= <-] Ok0 Js0 N0; congruence).
        left. exists (String c u), r. repeat split; auto. discriminate.
    + right. right. split; [split; intros; discriminate | reflexivity].
  - left. split; [reflexivity|]. eexists. reflexivity.
Qed.

Lemma rate_limited_unavailable script_failed (s : MapComponent.state) :
  MapComponent.isRateLimited s = true ->
  MapComponent.render script_failed s = MapComponent.Unavailable.
Proof.
  intros R. unfold MapComponent.render. rewrite R.
  rewrite orb_true_r. cbn. destruct (MapComponent.staticMapUrl s); reflexivity.
Qed.

Lemma failed_not_live script_failed (s : MapComponent.state) :
  MapComponent.hasError s = true ->
  MapComponent.render script_failed s <> MapComponent.LiveMap.
Proof.
  intros E. unfold MapComponent.render. rewrite E. cbn.
  destruct (MapComponent.staticMapUrl s); [discriminate|].
  destruct (negb (MapComponent.isRateLimited s)); discriminate.
Qed.

(** X25.  A run of [generateStaticMap] never throws and makes at most one
    request.  It ends in one of two ways.  When the coordinates are valid
    and the static-map route answered with a success whose body carries a
    URL that is not empty, that URL is stored and nothing else changes.
    In every other case, invalid coordinates, a 429, any other error
    status, a network failure or a success without a URL, the run failed:
    the error flag is up, [onError] was called once, and the URL stored
    before is left as it was.  The rate-limit flag is raised by a 429 and
    by nothing else, and with it up the component shows "Carte non
    disponible".  Invalid coordinates cost no request and no wait. *)
Theorem X25_generateStaticMap_outcome (ToString : number -> string) location
  (s : MapComponent.state) (w : world static_json) :
  exists s' w',
    MapComponent.generateStaticMap ToString location s w = (Return s', w') /\
    (forall r carried,
       valid_location location = true ->
       fetched (upstream w) = Return r -> ok r = true ->
       json r = Return (SValue (Some carried)) -> carried <> EmptyString ->
       s' = MapComponent.setStaticMapUrl carried s) /\
    ((exists r carried,
        valid_location location = true /\
        fetched (upstream w) = Return r /\ ok r = true /\
        json r = Return (SValue (Some carried)) /\ carried <> EmptyString /\
        s' = MapComponent.setStaticMapUrl carried s) \/
     (MapComponent.hasError s' = true /\
      MapComponent.onError_calls s' = S (MapComponent.onError_calls s) /\
      MapComponent.staticMapUrl s' = MapComponent.staticMapUrl s)) /\
    (MapComponent.isRateLimited s' = true ->
     MapComponent.isRateLimited s = true \/
     exists r, fetched (upstream w) = Return r /\ status r = 429) /\
    (forall r, valid_location location = true ->
               fetched (upstream w) = Return r -> status r = 429 ->
               MapComponent.isRateLimited s' = true /\
               forall script_failed,
                 MapComponent.render script_failed s' = MapComponent.Unavailable) /\
    (valid_location location = false -> w' = w) /\
    (List.length (dispatches (trace w')) <= S (List.length (dispatches (trace w))))%nat.
Proof.
  destruct (attempt_alone MapComponent.MIN_REQUEST_INTERVAL
              (MapFallback.static_map_request ToString
                 (fst (coordinates location)) (snd (coordinates location))
                 (zoom_or_10 location)) NoBody w) as (evs & T & D & _).
  assert (Count : (List.length (dispatches (trace w ++ evs)) <=
                   S (List.length (dispatches (trace w))))%nat).
  { rewrite dispatches_app, length_app, D. simpl. lia. }
  rewrite <- T in Count.
  assert (Limited : forall r : response static_json, status r = 429 -> ok r = false).
  { intros r St. unfold ok. rewrite St. reflexivity. }
  destruct (generateStaticMap_run ToString location s w)
    as [(V & details & E) | (V & [(u & r & N & F & Ok & Js & E) |
                                  [(r & details & F & St & E) | (Other & E)]])];
    rewrite E; eexists; eexists; (split; [reflexivity|]).
  - split; [intros r carried V'; congruence|].
    split; [right; repeat split|]. split; [cbn; auto|].
    split; [intros r V'; congruence|]. split; [reflexivity | lia].
  - split; [intros r0 carried _ F0 _ Js0 _; congruence|].
    split; [left; exists r, u; auto 6|]. split; [cbn; auto|].
    split; [|split; [congruence | exact Count]].
    intros r0 _ F0 St. exfalso. rewrite F in F0. injection F0 as <-.
    rewrite (Limited r St) in Ok. discriminate.
  - split.
    { intros r0 carried _ F0 Ok0 _ _. exfalso. rewrite F in F0. injection F0 as <-.
      rewrite (Limited r St) in Ok0. discriminate. }
    split; [right; repeat split|]. split; [intros _; right; eauto|].
    split; [|split; [congruence | exact Count]].
    intros r0 _ _ _. split; [reflexivity|].
    intros script_failed. apply rate_limited_unavailable. reflexivity.
  - destruct Other as (NotLimited & NotCarried).
    split; [intros r0 carried _ F0 Ok0 Js0 N0; exfalso; eapply NotCarried; eauto|].
    split; [right; repeat split|]. split; [cbn; auto|].
    split; [|split; [congruence | exact Count]].
    intros r0 _ F0 St. exfalso. apply (NotLimited r0 F0 St).
Qed.

(** X26.  In the map component an error sticks.  Over any number of
    locations shown one after the other, [onError] calls only add up; once
    the error flag is up the component never shows the live map again,
    and once the rate-limit flag is up it shows "Carte non disponible"
    for every later location, even one whose static map was fetched
    successfully. *)
Theorem X26_map_errors_stick (ToString : number -> string) locations :
  forall (s : MapComponent.state) (w : world static_json),
  exists s' w',
    generate_all ToString locations s w = (Return s', w') /\
    (MapComponent.onError_calls s <= MapComponent.onError_calls s')%nat /\
    (MapComponent.hasError s = true ->
     MapComponent.hasError s' = true /\
     forall script_failed, MapComponent.render script_failed s' <> MapComponent.LiveMap) /\
    (MapComponent.isRateLimited s = true ->
     MapComponent.isRateLimited s' = true /\
     forall script_failed,
       MapComponent.render script_failed s' = MapComponent.Unavailable).
Proof.
  induction locations as [|location locations IH]; intros s w.
  - exists s, w. split; [reflexivity|]. split; [lia|].
    split; intros H; (split; [exact H|]); intros b;
      [apply failed_not_live | apply rate_limited_unavailable]; exact H.
  - assert (Step : exists s1 w1,
               MapComponent.generateStaticMap ToString location s w = (Return s1, w1) /\
               (MapComponent.onError_calls s <= MapComponent.onError_calls s1)%nat /\
               (MapComponent.hasError s = true -> MapComponent.hasError s1 = true) /\
               (MapComponent.isRateLimited s = true ->
                MapComponent.isRateLimited s1 = true)).
    { destruct (generateStaticMap_run ToString location s w)
        as [(V & details & E) | (V & [(u & r & N & F & Ok & Js & E) |
                                      [(r & details & F & St & E) | (N & E)]])];
        rewrite E; eexists; eexists; (split; [reflexivity|]); cbn; auto. }
    destruct Step as (s1 & w1 & E & C & H & R).
    destruct (IH s1 w1) as (s' & w' & E' & C' & H' & R').
    exists s', w'. split.
    + cbn [generate_all]. unfold bind. rewrite E. exact E'.
    + split; [lia|]. split; intros X; [apply H', H, X | apply R', R, X].
Qed.

(** ** The page, turn by turn *)

(** X28.  A turn with an input that is not blank adds exactly two entries
    to the conversation, whatever the services do: the message of the
    user, then one message of the assistant, which is the reply of the
    chat call, the overload notice or the apology.  The turn makes at
    most three calls, and a chat call it makes carries the conversation
    as it was, followed by the message of the user.  A blank input
    changes nothing and calls nothing. *)
Theorem X28_turn_adds_two_messages t s :
  if Page.blank (Page.input t) then Page.handleSendMessage t s = (s, [])
  else
    exists answer,
      Page.messages (fst (Page.handleSendMessage t s)) =
        Page.messages s ++ [ {| role := user; content := Page.input t |};
                             {| role := assistant; content := answer |} ] /\
      (answer = Page.chat_reply t \/ answer = Page.overloaded_reply \/
       answer = Page.sorry_reply) /\
      (List.length (snd (Page.handleSendMessage t s)) <= 3)%nat /\
      forall history, In (Page.ChatCall history) (snd (Page.handleSendMessage t s)) ->
                      history = Page.messages s ++ [ {| role := user; content := Page.input t |} ].
Proof.
  unfold Page.handleSendMessage.
  destruct (Page.blank (Page.input t)); [reflexivity|].
  assert (App : forall (l : list Message) a b, (l ++ [a]) ++ [b] = l ++ [a; b]).
  { intros. rewrite <- app_assoc. reflexivity. }
  cbv zeta.
  destruct (Page.signals_rate_limit (Page.chat_reply t));
    remember (Page.chat_reply t) as reply eqn:Reply;
    destruct reply as [|c reply];
    destruct (Page.isMapRateLimited s); cbn [negb];
    destruct (Page.isChatRateLimited s);
    destruct (Page.geocode_of_input t) as [[l|]|e];
    try destruct (is_rate_limit_message e) eqn:Re;
    destruct (Page.geocode_of_reply t) as [[l'|]|e'];
    try destruct (is_rate_limit_message e') eqn:Re';
    cbn; rewrite ?Re, ?Re'; cbn;
    try (destruct (2 <=? Page.consecutiveErrorsRef s + 1); cbn);
    rewrite ?App;
    eexists; (split; [reflexivity|]);
    (split; [auto|]); (split; [lia|]);
    intros history I; simpl in I; intuition congruence.
Qed.

(** ** The minimum-interval wait and the retries *)

(** An attempt made at least [gap] after the recorded request time leaves
    at once. *)
Lemma attempt_unthrottled J gap url body (w : world J) :
  gap <= clock w - lastRequestTime w ->
  trace (after (attempt gap url body) w) = trace w ++ [Dispatch (clock w) url body] /\
  lastRequestTime (after (attempt gap url body) w) = clock w /\
  clock w <= clock (after (attempt gap url body) w).
Proof.
  intros G. apply Z.ltb_ge in G.
  unfold after, attempt, throttle, bind, Date_now, get_lastRequestTime,
    set_lastRequestTime, ret, fetch.
  rewrite G. cbn. pose proof (next_lag_nonneg w).
  destruct (upstream w) as [|[r|e] ?]; cbn; repeat split; unfold next_lag in *; cbn; lia.
Qed.

(** Any attempt waits at most once, no longer than [gap] when the
    recorded request time is not ahead of the clock, and then leaves. *)
Lemma attempt_one_wait J gap url body (w : world J) :
  lastRequestTime w <= clock w ->
  exists waits t,
    trace (after (attempt gap url body) w) = trace w ++ waits ++ [Dispatch t url body] /\
    one_wait gap waits /\
    lastRequestTime (after (attempt gap url body) w) = t /\
    t <= clock (after (attempt gap url body) w).
Proof.
  intros Past.
  unfold after, attempt, throttle, bind, Date_now, get_lastRequestTime,
    set_lastRequestTime, ret, fetch, sleep.
  pose proof (next_lag_nonneg w) as N.
  destruct (clock w - lastRequestTime w <? gap) eqn:G; cbn.
  - apply Z.ltb_lt in G.
    exists [Throttled (gap - (clock w - lastRequestTime w))]. eexists.
    destruct (upstream w) as [|[r|e] ?]; cbn; rewrite <- app_assoc;
      (split; [reflexivity|]);
      (split; [right; eexists; split; [reflexivity | lia]|]);
      (split; [reflexivity|]);
      unfold next_lag; cbn; lia.
  - exists []. eexists.
    destruct (upstream w) as [|[r|e] ?]; cbn;
      (split; [reflexivity|]); (split; [left; reflexivity|]); (split; [reflexivity|]).
    all: unfold next_lag in *; cbn in *.
    all: lia.
Qed.

Section RetriesUnthrottled.

Variables (J A : Type) (gap : Z) (url : string) (body : payload).
Variable next : Z -> Z.
Variable f : nat -> Z -> M J A.

Hypothesis step : forall retries delay w,
  let w1 := after (attempt gap url body) w in
  after (f retries delay) w = w1 \/
  exists retries', retries = S retries' /\
    f retries delay w = f retries' (next delay) (after (sleep Backoff delay) w1).

(** [fits retries delay]: the delay is at least the minimum interval, and
    it and the delays that follow it, as long as retries are left, are
    delays the timer takes as they are. *)
Variable fits : nat -> Z -> Prop.

Hypothesis fits_gap : forall retries delay, fits retries delay -> gap <= delay.
Hypothesis fits_timer : forall retries delay,
  fits (S retries) delay -> 0 <= delay <= MAX_TIMEOUT.
Hypothesis fits_next : forall retries delay,
  fits (S retries) delay -> fits retries (next delay).
Hypothesis gap_timer : 0 <= gap <= MAX_TIMEOUT.

Lemma slept_long_enough delay (w1 : world J) :
  gap <= delay ->
  lastRequestTime w1 <= clock w1 ->
  gap <= clock (after (sleep Backoff delay) w1)
         - lastRequestTime (after (sleep Backoff delay) w1).
Proof.
  intros G P. cbn. pose proof (next_lag_nonneg w1). lia.
Qed.

Lemma loop_unthrottled retries : forall delay w,
  fits retries delay ->
  gap <= clock w - lastRequestTime w ->
  exists evs, trace (after (f retries delay) w) = trace w ++ evs /\
              unthrottled evs /\ within_timer evs.
Proof.
  induction retries as [|retries IH]; intros delay w G P;
    destruct (attempt_unthrottled url body w P) as (T & L & C).
  - destruct (step 0 delay w) as [E | (r' & E & R)]; [|discriminate].
    rewrite E, T. eexists. split; [reflexivity|]. split; repeat constructor.
  - destruct (step (S retries) delay w) as [E | (r' & E & R)].
    { rewrite E, T. eexists. split; [reflexivity|]. split; repeat constructor. }
    injection E as <-. unfold after at 1. rewrite R.
    set (w1 := after (attempt gap url body) w) in *.
    fold (after (f retries (next delay)) (after (sleep Backoff delay) w1)).
    destruct (IH (next delay) (after (sleep Backoff delay) w1)) as (evs & T' & U & W).
    { apply fits_next, G. }
    { apply slept_long_enough; [eapply fits_gap, G | lia]. }
    exists ([Dispatch (clock w) url body; Backoff delay] ++ evs). split; [|split].
    + rewrite T'. change (trace (after (sleep Backoff delay) w1))
        with (trace w1 ++ [Backoff delay]).
      rewrite T, <- !app_assoc. reflexivity.
    + repeat constructor. exact U.
    + constructor; [exact I|]. constructor; [apply (fits_timer G) | exact W].
Qed.

Lemma loop_one_wait retries delay w :
  fits retries delay ->
  lastRequestTime w <= clock w ->
  exists waits evs,
    trace (after (f retries delay) w) = trace w ++ waits ++ evs /\
    one_wait gap waits /\ unthrottled evs /\ within_timer (waits ++ evs).
Proof.
  intros G P.
  destruct (attempt_one_wait gap url body w P) as (waits & t & T & W & L & C).
  assert (WT : within_timer waits).
  { destruct W as [-> | (ms & -> & B)]; [constructor|].
    constructor; [|constructor]. lia. }
  destruct (step retries delay w) as [E | (r' & E & R)].
  - exists waits, [Dispatch t url body]. rewrite E, T.
    split; [reflexivity|]. split; [exact W|]. split; [repeat constructor|].
    apply Forall_app. split; [exact WT | repeat constructor].
  - subst retries. unfold after at 1. rewrite R.
    set (w1 := after (attempt gap url body) w) in *.
    fold (after (f r' (next delay)) (after (sleep Backoff delay) w1)).
    destruct (@loop_unthrottled r' (next delay) (after (sleep Backoff delay) w1))
      as (evs & T' & U & WE).
    { apply fits_next, G. }
    { apply slept_long_enough; [eapply fits_gap, G | lia]. }
    exists waits, ([Dispatch t url body; Backoff delay] ++ evs).
    split; [|split; [exact W|split]].
    + rewrite T'. change (trace (after (sleep Backoff delay) w1))
        with (trace w1 ++ [Backoff delay]).
      rewrite T, <- !app_assoc. reflexivity.
    + repeat constructor. exact U.
    + apply Forall_app. split; [exact WT|].
      constructor; [exact I|]. constructor; [apply (fits_timer G) | exact WE].
Qed.

End RetriesUnthrottled.

(** Doubling delays that start at 2000 ms or more and stay within the
    range of the timer as long as retries are left. *)
Lemma doubling_fits_timer (gap : Z) :
  0 < gap ->
  (forall retries delay,
     gap <= delay /\ delay * 2 ^ Z.of_nat (S retries) <= MAX_TIMEOUT ->
     0 <= delay <= MAX_TIMEOUT) /\
  (forall retries delay,
     gap <= delay /\ delay * 2 ^ Z.of_nat (S retries) <= MAX_TIMEOUT ->
     gap <= delay * 2 /\ delay * 2 * 2 ^ Z.of_nat retries <= MAX_TIMEOUT).
Proof.
  intros G. split; intros retries delay [L B];
    rewrite Nat2Z.inj_succ, Z.pow_succ_r in B by lia;
    assert (0 < 2 ^ Z.of_nat retries) by (apply Z.pow_pos_nonneg; lia).
  - split; [lia | nia].
  - split; [lia|]. rewrite <- Z.mul_assoc. exact B.
Qed.

(** X29.  The minimum-interval wait never holds a retry back.  Take a
    call of [sendMessage], of [geocodeLocation] outside the gazetteer or
    of [fetchWithRetry] whose delay is at least the minimum interval of
    the module, as the default delay is, and whose retry delays are all
    delays that [setTimeout] takes as they are: for the two doubling
    loops, [delay * 2 ^ retries] is at most 2147483647 ms; for
    [fetchWithRetry], whose later delays are capped, the first one is.
    Then every timer of the call asks for a delay within that range, only
    the first request can wait for the interval, for no longer than the
    interval, and every retry leaves as soon as its retry delay has
    passed. *)
Theorem X29_retries_never_throttled
  messages retries delay (w : world Api.chat_json)
  locationName retries' delay' (w' : world Geocoding.geocode_json)
  url options retries'' delay'' (w'' : world ChatRoute.completion_json) :
  Api.MIN_REQUEST_INTERVAL <= delay ->
  delay * 2 ^ Z.of_nat retries <= MAX_TIMEOUT ->
  lastRequestTime w <= clock w ->
  Geocoding.MIN_REQUEST_INTERVAL <= delay' ->
  delay' * 2 ^ Z.of_nat retries' <= MAX_TIMEOUT ->
  lastRequestTime w' <= clock w' ->
  Geocoding.detectPredefinedLocation locationName = None ->
  ChatRoute.MIN_OPENAI_REQUEST_INTERVAL <= delay'' <= MAX_TIMEOUT ->
  lastRequestTime w'' <= clock w'' ->
  (exists waits evs,
     trace (after (Api.sendMessage messages retries delay) w) = trace w ++ waits ++ evs /\
     one_wait Api.MIN_REQUEST_INTERVAL waits /\ unthrottled evs /\
     within_timer (waits ++ evs)) /\
  (exists waits evs,
     trace (after (Geocoding.geocodeLocation locationName retries' delay') w') =
       trace w' ++ waits ++ evs /\
     one_wait Geocoding.MIN_REQUEST_INTERVAL waits /\ unthrottled evs /\
     within_timer (waits ++ evs)) /\
  (exists waits evs,
     trace (after (ChatRoute.fetchWithRetry url options retries'' delay'') w'') =
       trace w'' ++ waits ++ evs /\
     one_wait ChatRoute.MIN_OPENAI_REQUEST_INTERVAL waits /\ unthrottled evs /\
     within_timer (waits ++ evs)).
Proof.
  intros G B P G' B' P' Miss G'' P''.
  destruct (@doubling_fits_timer 2000 eq_refl) as [Fits Next].
  split; [|split].
  - apply (@loop_one_wait _ _ Api.MIN_REQUEST_INTERVAL "/api/chat" (ChatBody messages)
             (fun d => d * 2) (Api.sendMessage messages)
             (fun r d => sendMessage_step messages r d)
             (fun r d => Api.MIN_REQUEST_INTERVAL <= d /\
                         d * 2 ^ Z.of_nat r <= MAX_TIMEOUT)); auto.
    + intros r d H. apply H.
    + unfold Api.MIN_REQUEST_INTERVAL, MAX_TIMEOUT. lia.
  - apply (@loop_one_wait _ _ Geocoding.MIN_REQUEST_INTERVAL "/api/geocode"
             (QueryBody locationName) (fun d => d * 2)
             (Geocoding.geocodeLocation locationName)
             (fun r d w0 => geocodeLocation_step locationName r d w0 Miss)
             (fun r d => Geocoding.MIN_REQUEST_INTERVAL <= d /\
                         d * 2 ^ Z.of_nat r <= MAX_TIMEOUT)); auto.
    + intros r d H. apply H.
    + unfold Geocoding.MIN_REQUEST_INTERVAL, MAX_TIMEOUT. lia.
  - apply (@loop_one_wait _ _ ChatRoute.MIN_OPENAI_REQUEST_INTERVAL url options
             (fun d => Z.min (d * 2) ChatRoute.MAX_RETRY_DELAY)
             (ChatRoute.fetchWithRetry url options)
             (fun r d => fetchWithRetry_step url options r d)
             (fun r d => ChatRoute.MIN_OPENAI_REQUEST_INTERVAL <= d <= MAX_TIMEOUT)); auto.
    + intros r d H. apply H.
    + unfold ChatRoute.MIN_OPENAI_REQUEST_INTERVAL, MAX_TIMEOUT. intros r d. lia.
    + unfold ChatRoute.MIN_OPENAI_REQUEST_INTERVAL, ChatRoute.MAX_RETRY_DELAY, MAX_TIMEOUT.
      intros r d. lia.
    + unfold ChatRoute.MIN_OPENAI_REQUEST_INTERVAL, MAX_TIMEOUT. lia.
Qed.

Lemma X29_retries_never_throttled_witness :
  (exists waits evs,
     trace (after (Api.sendMessage [bonjour] Api.MAX_RETRIES Api.INITIAL_RETRY_DELAY)
              (world_at 1000 [chat_429; chat_200 "Paris"] [3%N; 7%N])) =
       [] ++ waits ++ evs /\
     one_wait Api.MIN_REQUEST_INTERVAL waits /\ unthrottled evs /\
     within_timer (waits ++ evs)) /\
  (exists waits evs,
     trace (after (Geocoding.geocodeLocation "Atlantis" Geocoding.MAX_RETRIES
                     Geocoding.INITIAL_RETRY_DELAY)
              (world_at 1000 [geocode_429; geocode_null] [])) = [] ++ waits ++ evs /\
     one_wait Geocoding.MIN_REQUEST_INTERVAL waits /\ unthrottled evs /\
     within_timer (waits ++ evs)) /\
  (exists waits evs,
     trace (after (ChatRoute.fetchWithRetry completion_url (ChatBody [bonjour])
                     ChatRoute.MAX_RETRIES ChatRoute.INITIAL_RETRY_DELAY)
              (world_at 500 [completion_429; completion_200 "Partez."] [])) =
       [] ++ waits ++ evs /\
     one_wait ChatRoute.MIN_OPENAI_REQUEST_INTERVAL waits /\ unthrottled evs /\
     within_timer (waits ++ evs)).
Proof.
  apply (@X29_retries_never_throttled
           [bonjour] Api.MAX_RETRIES Api.INITIAL_RETRY_DELAY
           (world_at 1000 [chat_429; chat_200 "Paris"] [3%N; 7%N])
           "Atlantis" Geocoding.MAX_RETRIES Geocoding.INITIAL_RETRY_DELAY
           (world_at 1000 [geocode_429; geocode_null] [])
           completion_url (ChatBody [bonjour]) ChatRoute.MAX_RETRIES
           ChatRoute.INITIAL_RETRY_DELAY
           (world_at 500 [completion_429; completion_200 "Partez."] [])).
  - unfold Api.MIN_REQUEST_INTERVAL, Api.INITIAL_RETRY_DELAY. lia.
  - vm_compute. discriminate.
  - simpl. lia.
  - unfold Geocoding.MIN_REQUEST_INTERVAL, Geocoding.INITIAL_RETRY_DELAY. lia.
  - vm_compute. discriminate.
  - simpl. lia.
  - vm_compute. reflexivity.
  - unfold ChatRoute.MIN_OPENAI_REQUEST_INTERVAL, ChatRoute.INITIAL_RETRY_DELAY,
      MAX_TIMEOUT. lia.
  - simpl. lia.
Defined.

(** The two map components under a rate-limited static-map route: the
    map component gives up and reports the error; the fallback map turns
    to OpenStreetMap. *)
Example rate_limited_maps :
  fst (MapComponent.generateStaticMap render (somewhere 10 20) MapComponent.initial
         (world_at 1000000 [Responds static_map_limited] [])) =
    Return {| MapComponent.hasError := true;
              MapComponent.errorDetails :=
                "Service temporairement indisponible (trop de requêtes)";
              MapComponent.staticMapUrl := "";
              MapComponent.isRateLimited := true;
              MapComponent.onError_calls := 1 |} /\
  fst (MapFallback.fetchMapUrl render (somewhere 10 20) MapFallback.initial
         (world_at 1000000 [Responds static_map_limited] [])) =
    Return {| MapFallback.imageError := false;
              MapFallback.isRateLimited := false;
              MapFallback.mapUrl :=
                "https://staticmap.openstreetmap.de/staticmap.php?center=20,10&zoom=10&size=600x400&maptype=mapnik&markers=20,10,red-pushpin" |}.
Proof. vm_compute. split; reflexivity. Qed.

(** X30.  A success of the chat route whose body is not JSON, or is JSON
    without a [reply] that is a string, is not retried by [sendMessage]:
    the call resolves to the malformed-response notice after that single
    request.  Unlike the failure notice, this notice does not read as a
    rate-limiting signal on the page: the turn resets the counter of
    consecutive signals to 0 and leaves the chat flag down. *)
Theorem X30_malformed_success messages retries delay (w : world Api.chat_json) r t s :
  fetched (upstream w) = Return r ->
  ok r = true ->
  (forall reply e, json r <> Return (Api.JValue (Some reply) e)) ->
  Api.sendMessage messages retries delay w =
    (Return Api.malformed_reply,
     after (attempt Api.MIN_REQUEST_INTERVAL "/api/chat" (ChatBody messages)) w) /\
  (Page.chat_reply t = Api.malformed_reply ->
   Page.blank (Page.input t) = false ->
   Page.isChatRateLimited s = false ->
   Page.consecutiveErrorsRef (fst (Page.handleSendMessage t s)) = 0 /\
   Page.isChatRateLimited (fst (Page.handleSendMessage t s)) = false).
Proof.
  intros F Ok Bad. split.
  - assert (N429 : (status r =? 429) = false).
    { unfold ok in Ok. apply andb_true_iff in Ok. destruct Ok as [_ Ok'].
      apply Z.leb_le in Ok'. apply Z.eqb_neq. lia. }
    rewrite sendMessage_unfold. unfold Api.sendMessage_body.
    rewrite bind_try_attempt, F. run. rewrite N429, Ok. cbn.
    destruct (json r) as [[|[reply|] e]|e] eqn:Js; try reflexivity.
    exfalso. apply (Bad reply e). reflexivity.
  - intros E B C. apply chat_success; auto. rewrite E. vm_compute. reflexivity.
Qed.

Lemma X30_malformed_success_witness :
  Api.sendMessage [bonjour] Api.MAX_RETRIES Api.INITIAL_RETRY_DELAY
    (world_at 1000000 [Responds chat_garbled; chat_200 "Paris"] []) =
    (Return Api.malformed_reply,
     after (attempt Api.MIN_REQUEST_INTERVAL "/api/chat" (ChatBody [bonjour]))
       (world_at 1000000 [Responds chat_garbled; chat_200 "Paris"] [])) /\
  Page.consecutiveErrorsRef (fst (Page.handleSendMessage chat_garbled_turn first_render)) = 0 /\
  Page.isChatRateLimited (fst (Page.handleSendMessage chat_garbled_turn first_render)) = false.
Proof.
  destruct (@X30_malformed_success [bonjour] Api.MAX_RETRIES Api.INITIAL_RETRY_DELAY
              (world_at 1000000 [Responds chat_garbled; chat_200 "Paris"] [])
              chat_garbled chat_garbled_turn first_render) as [H1 H2].
  - reflexivity.
  - reflexivity.
  - intros reply e. discriminate.
  - split; [exact H1|]. apply H2; reflexivity.
Defined.
